(** * hr-fde-backend: analytics aggregation and load booking

    A shallow embedding of [app/services/analytics_service.py],
    [app/db/repositories/analytics_repo.py],
    [app/db/repositories/booked_load_repo.py] and
    [app/routes/booked_loads.py], with the properties of the written
    specification stated and proved over it. *)

From Stdlib Require Import List String Ascii Bool Arith ZArith NArith Lia DecimalString.
From Stdlib Require Import QArith Qround Qabs Qpower Lqa.
From Stdlib Require Import Sorted Permutation.
Import ListNotations.

Local Open Scope string_scope.
Local Open Scope list_scope.

(* ================================================================== *)
(** * Python numerics *)
(* ================================================================== *)

(** Python's [float] is IEEE-754 binary64.  A finite binary64 value is a
    rational [m * 2^e]; it is represented here by that rational, and
    every arithmetic operation is the exact rational operation followed
    by rounding to nearest, ties to even, on a 53-bit significand with
    gradual underflow.  All operands in this program are non-negative
    and bounded by row counts and 64-bit database integers, so the
    overflow threshold [2^1024] is never reached. *)

Module PyFloat.

Local Open Scope Q_scope.

Definition prec : Z := 53.
Definition emin : Z := -1074.

(** [round], [format(.., '.0f')] and the significand rounding all round
    half to even. *)
Definition round_half_even (q : Q) : Z :=
  let f := Qfloor q in
  match Qcompare (q - inject_Z f) (1 # 2) with
  | Lt => f
  | Gt => (f + 1)%Z
  | Eq => if Z.even f then f else (f + 1)%Z
  end.

(** [ilog2 q] is the floor of the binary logarithm of a positive [q]. *)
Definition ilog2 (q : Q) : Z :=
  let e := (Z.log2 (Qnum q) - Z.log2 (Zpos (Qden q)))%Z in
  if Qle_bool (2 ^ e) q then e else (e - 1)%Z.

(** The exponent of the unit in the last place of the binade of [q]. *)
Definition ulp_exp (q : Q) : Z :=
  Z.max (ilog2 (Qabs q) - (prec - 1)) emin.

Definition b64 (q : Q) : Q :=
  if Qeq_bool q 0 then 0
  else
    let e := ulp_exp q in
    inject_Z (round_half_even (q / 2 ^ e)) * 2 ^ e.

(** [float(n)] for an integer, [a / b] on two integers (CPython rounds
    the exact quotient once), and [x * y], [x + y] on floats. *)
Definition of_int (n : Z) : Q := b64 (inject_Z n).
Definition int_truediv (a b : Z) : Q := b64 (inject_Z a / inject_Z b).
Definition mul (x y : Q) : Q := b64 (x * y).
Definition add (x y : Q) : Q := b64 (x + y).
Definition div (x y : Q) : Q := b64 (x / y).

(** Built-in [round(x)] with one argument. *)
Definition round (x : Q) : Z := round_half_even x.

(** The unit roundoff [2^-53]. *)
Definition u53 : Q := 1 # 9007199254740992.

End PyFloat.

(* ================================================================== *)
(** * Exceptions *)
(* ================================================================== *)

(** The only exception the aggregation code could raise on well-typed
    rows is the one of a division by a zero total. *)
Inductive exn : Type := ZeroDivisionError.

Inductive result (A : Type) : Type :=
| Ok (a : A)
| Raise (e : exn).
Arguments Ok {A} a.
Arguments Raise {A} e.

Definition bind {A B : Type} (r : result A) (k : A -> result B) : result B :=
  match r with
  | Ok a => k a
  | Raise e => Raise e
  end.

Notation "x <- r ;; k" := (bind r (fun x => k))
  (at level 61, r at next level, right associativity).

(** A [for] loop that appends one computed element per item. *)
Fixpoint for_each {A B : Type} (f : A -> result B) (l : list A) : result (list B) :=
  match l with
  | [] => Ok []
  | x :: l' => y <- f x ;; ys <- for_each f l' ;; Ok (y :: ys)
  end.

(** [round(count / total * 100)] on two integers: the value when
    [total] is not zero, and the expression with its exception. *)
Definition pct_of (count total : nat) : Z :=
  PyFloat.round
    (PyFloat.mul (PyFloat.int_truediv (Z.of_nat count) (Z.of_nat total))
                 (inject_Z 100)).

Definition percent (count total : nat) : result Z :=
  if (total =? 0)%nat then Raise ZeroDivisionError
  else Ok (pct_of count total).

(* ================================================================== *)
(** * Sorting and counting *)
(* ================================================================== *)

(** [sorted] and [list.sort] are stable.  [before y x] says that [y]
    has to come strictly before [x]; an element is inserted in front of
    the first element that need not precede it, so equal elements keep
    their input order. *)
Section Sorting.
Context {A : Type}.
Variable before : A -> A -> bool.

Fixpoint insert_sorted (x : A) (l : list A) : list A :=
  match l with
  | [] => [x]
  | y :: l' => if before y x then y :: insert_sorted x l' else x :: l
  end.

Definition stable_sort (l : list A) : list A :=
  fold_right insert_sorted [] l.
End Sorting.

(** [sorted(l, key=key, reverse=reverse)] with integer keys. *)
Definition sorted_by_key {A : Type} (key : A -> Z) (reverse : bool) (l : list A) : list A :=
  stable_sort (fun y x => if reverse then (key x <? key y)%Z else (key y <? key x)%Z) l.

(** [sorted(l)] on integers and on strings (code point order, which on
    UTF-8 encoded strings is byte order). *)
Definition sorted_ints (l : list Z) : list Z := sorted_by_key (fun z => z) false l.
Definition sorted_strs (l : list string) : list string := stable_sort String.ltb l.

(** [collections.Counter]: a dict, so keys are kept in insertion order.
    [dict[str, int]] results of the repository use the same
    representation. *)
Module Counter.
Section Counter.
Context {K : Type}.
Variable eqb : K -> K -> bool.

Definition t : Type := list (K * nat).

(** [c[k] += 1] *)
Fixpoint incr (k : K) (c : t) : t :=
  match c with
  | [] => [(k, 1%nat)]
  | (k', n) :: c' => if eqb k k' then (k', S n) :: c' else (k', n) :: incr k c'
  end.

(** [c[k]] and [c.get(k, 0)] *)
Fixpoint get (c : t) (k : K) : nat :=
  match c with
  | [] => 0%nat
  | (k', n) :: c' => if eqb k k' then n else get c' k
  end.

Definition keys (c : t) : list K := map fst c.
Definition values (c : t) : list nat := map snd c.

(** [sum(c.values())] *)
Definition total (c : t) : nat := fold_right Nat.add 0%nat (values c).

(** [c.most_common()]: [sorted(c.items(), key=itemgetter(1), reverse=True)] *)
Definition most_common (c : t) : list (K * nat) :=
  sorted_by_key (fun kv => Z.of_nat (snd kv)) true c.

(** [c.most_common(n)]: [heapq.nlargest(n, ..)], the first [n] of the above *)
Definition most_common_n (n : nat) (c : t) : list (K * nat) :=
  firstn n (most_common c).
End Counter.
Arguments t K : clear implicits.
End Counter.

(* ================================================================== *)
(** * Strings *)
(* ================================================================== *)

(** [sub in s] *)
Definition contains (sub s : string) : bool :=
  match String.index 0 sub s with
  | Some _ => true
  | None => false
  end.

(** [str(n)] and [f"{n}"] for an integer. *)
Definition str_of_int (z : Z) : string :=
  DecimalString.NilZero.string_of_int (Z.to_int z).

(** Digit grouping of the [,] format option, on the digits in reverse. *)
Fixpoint group_thousands (rev_digits : list ascii) : list ascii :=
  match rev_digits with
  | a :: b :: c :: ((_ :: _) as rest) => a :: b :: c :: ","%char :: group_thousands rest
  | _ => rev_digits
  end.

(** [f"{x:,.0f}"]: the float rounded half to even to an integer, printed
    with thousands separators; the sign is the sign of [x]. *)
Definition format_comma_0f (x : Q) : string :=
  let n := Z.abs (PyFloat.round_half_even x) in
  let digits := list_ascii_of_string (str_of_int n) in
  let body := string_of_list_ascii (rev (group_thousands (rev digits))) in
  if Qlt_le_dec x 0 then "-" ++ body else body.

Definition is_upper (c : ascii) : bool :=
  let n := nat_of_ascii c in ((65 <=? n) && (n <=? 90))%nat.
Definition is_lower (c : ascii) : bool :=
  let n := nat_of_ascii c in ((97 <=? n) && (n <=? 122))%nat.
Definition to_upper (c : ascii) : ascii :=
  if is_lower c then ascii_of_nat (nat_of_ascii c - 32) else c.
Definition to_lower (c : ascii) : ascii :=
  if is_upper c then ascii_of_nat (nat_of_ascii c + 32) else c.

(** [s.replace(old, new)] for single characters. *)
Fixpoint replace_char (old new : ascii) (s : string) : string :=
  match s with
  | EmptyString => EmptyString
  | String c s' => String (if Ascii.eqb c old then new else c) (replace_char old new s')
  end.

(** [s.title()] on ASCII text: a cased character is upper-cased when the
    previous character is not cased and lower-cased otherwise. *)
Fixpoint title_from (previous_is_cased : bool) (s : string) : string :=
  match s with
  | EmptyString => EmptyString
  | String c s' =>
      if is_lower c || is_upper c
      then String (if previous_is_cased then to_lower c else to_upper c) (title_from true s')
      else String c (title_from false s')
  end.
Definition title (s : string) : string := title_from false s.

(** [not s] on an optional string: [None] and [""] are falsy. *)
Definition not_str (s : option string) : bool :=
  match s with
  | Some v => String.eqb v ""
  | None => true
  end.

(** [f"{s}"] on an optional string. *)
Definition fmt_str (s : option string) : string :=
  match s with
  | Some v => v
  | None => "None"
  end.

(** [a or b] on optional numbers: [None] and zero are falsy. *)
Definition num_or (a b : option Q) : option Q :=
  match a with
  | Some x => if Qeq_bool x 0 then b else Some x
  | None => b
  end.

(* ================================================================== *)
(** * Data model *)
(* ================================================================== *)

(** Modelled from the spec: the schema of [calls], [loads] and
    [booked_loads] is not among the sources; the rows carry the columns
    of the persisted layout (section 6) that the queries and the
    aggregations read.  Nullable columns the code tests for [None] are
    options, amounts are rationals, timestamps are seconds. *)
Module Call.
Record t : Type := mk {
  call_id : string;
  outcome : string;
  negotiation_rounds : option Z;
  equipment_type : option string;
  lane_origin : option string;
  lane_destination : option string;
  final_rate : option Q;
  created_at : Z
}.
End Call.

Module Load.
Record t : Type := mk {
  load_id : string;
  equipment_type : string;
  status : string;
  origin : string;
  destination : string;
  loadboard_rate : Q;
  booked_at : option Z
}.
End Load.

Module BookedLoad.
Record t : Type := mk {
  id : string;
  load_id : string;
  mc_number : string;
  carrier_name : option string;
  agreed_rate : Q;
  agreed_pickup_datetime : option string;
  offer_id : option string;
  call_id : option string;
  created_at : Z
}.
End BookedLoad.

Record Db : Type := mkDb {
  calls : list Call.t;
  loads : list Load.t;
  booked_loads : list BookedLoad.t
}.

(** A row of [SELECT c.*, bl.agreed_rate FROM calls c LEFT JOIN booked_loads bl]. *)
Module CallRow.
Record t : Type := mk {
  call : Call.t;
  agreed_rate : option Q
}.
End CallRow.

(** [app/models/analytics.py] *)
Module NegotiationDepthBucket.
Record t : Type := mk { round : string; pct : Z }.
End NegotiationDepthBucket.

Module CarrierObjection.
Record t : Type := mk { reason : string; count : nat; pct : Z }.
End CarrierObjection.

Module TopLane.
Record t : Type := mk { lane : string; calls : nat; bookings : nat; avg_rate : string }.
End TopLane.

Module EquipmentDemandSupply.
Record t : Type := mk { type : string; demand : Z; supply : Z }.
End EquipmentDemandSupply.

Module AnalyticsResponse.
Record t : Type := mk {
  negotiation_depth : list NegotiationDepthBucket.t;
  carrier_objections : list CarrierObjection.t;
  top_lanes : list TopLane.t;
  equipment_demand_supply : list EquipmentDemandSupply.t
}.
End AnalyticsResponse.

(* ================================================================== *)
(** * [analytics_repo.py] *)
(* ================================================================== *)

Section Repo.
(** The database and the clock ([datetime('now')], in seconds).  A
    query without [ORDER BY] returns its rows in table order. *)
Variable db : Db.
Variable now : Z.

(** [created_at >= datetime('now', '-30 days')] *)
Definition last_30_days (created_at : Z) : bool :=
  (now - 30 * 86400 <=? created_at)%Z.

Definition get_booked_calls_last_30_days : list Call.t :=
  filter (fun c => String.eqb (Call.outcome c) "booked"
                   && last_30_days (Call.created_at c))
         (calls db).

Definition get_failed_calls_last_30_days : list Call.t :=
  filter (fun c => (String.eqb (Call.outcome c) "negotiation_failed"
                    || String.eqb (Call.outcome c) "dropped_call")
                   && last_30_days (Call.created_at c))
         (calls db).

(** The left join yields one row per matching booking, and one row
    with a null [agreed_rate] for a call without booking. *)
Definition left_join_booked_loads (c : Call.t) : list CallRow.t :=
  match filter (fun bl => match BookedLoad.call_id bl with
                          | Some i => String.eqb (Call.call_id c) i
                          | None => false
                          end) (booked_loads db) with
  | [] => [CallRow.mk c None]
  | bls => map (fun bl => CallRow.mk c (Some (BookedLoad.agreed_rate bl))) bls
  end.

Definition get_all_calls_last_30_days : list CallRow.t :=
  flat_map left_join_booked_loads
           (filter (fun c => last_30_days (Call.created_at c)) (calls db)).

(** [GROUP BY equipment_type] with [COUNT( * )], as a dict. *)
Definition count_by (types : list string) : Counter.t string :=
  fold_left (fun d ty => Counter.incr String.eqb ty d) types [].

Definition get_available_loads_by_equipment : Counter.t string :=
  count_by (map Load.equipment_type
                (filter (fun l => String.eqb (Load.status l) "available") (loads db))).

Definition get_recent_calls_by_equipment : Counter.t string :=
  count_by (flat_map (fun c => match Call.equipment_type c with
                               | Some ty => if last_30_days (Call.created_at c) then [ty] else []
                               | None => []
                               end) (calls db)).
End Repo.

(* ================================================================== *)
(** * [analytics_service.py] *)
(* ================================================================== *)

(** Each aggregation is split into the repository fetch and the
    computation on the fetched rows; [x_of rows] is the body of [_x]
    after its first lines. *)

(** ** Negotiation depth *)

Definition _DEPTH_LABELS : list (Z * string) :=
  [ (0%Z, "1st offer"); (1%Z, "1 round"); (2%Z, "2 rounds"); (3%Z, "3 rounds (max)") ].

(** [_DEPTH_LABELS.get(key, f"{key} rounds")] *)
Definition depth_label (key : Z) : string :=
  match find (fun kv => Z.eqb (fst kv) key) _DEPTH_LABELS with
  | Some kv => snd kv
  | None => str_of_int key ++ " rounds"
  end.

(** [min(call.get("negotiation_rounds", 0) or 0, 3)] *)
Definition depth_key (call : Call.t) : Z :=
  let rounds := match Call.negotiation_rounds call with
                | Some r => r
                | None => 0%Z
                end in
  Z.min rounds 3.

Definition negotiation_depth_of (booked : list Call.t)
  : result (list NegotiationDepthBucket.t) :=
  match booked with
  | [] => Ok []
  | _ =>
      let buckets :=
        fold_left (fun b call => Counter.incr Z.eqb (depth_key call) b) booked [] in
      let total := Counter.total buckets in
      for_each (fun key =>
                  pct <- percent (Counter.get Z.eqb buckets key) total ;;
                  Ok (NegotiationDepthBucket.mk (depth_label key) pct))
               (sorted_ints (Counter.keys buckets))
  end.

(** ** Carrier objections *)

Definition count_failed (reasons : Counter.t string) (call : Call.t) : Counter.t string :=
  if String.eqb (Call.outcome call) "negotiation_failed"
  then Counter.incr String.eqb "Rate too low" reasons
  else if String.eqb (Call.outcome call) "dropped_call"
  then Counter.incr String.eqb "Call dropped" reasons
  else reasons.

Definition count_no_loads (reasons : Counter.t string) (row : CallRow.t) : Counter.t string :=
  if String.eqb (Call.outcome (CallRow.call row)) "no_loads_available"
  then Counter.incr String.eqb "No matching loads" reasons
  else reasons.

Definition carrier_objections_of (failed : list Call.t) (all_calls : list CallRow.t)
  : result (list CarrierObjection.t) :=
  let reasons := fold_left count_failed failed [] in
  let reasons := fold_left count_no_loads all_calls reasons in
  match reasons with
  | [] => Ok []
  | _ =>
      let total := Counter.total reasons in
      for_each (fun rc =>
                  pct <- percent (snd rc) total ;;
                  Ok (CarrierObjection.mk (fst rc) (snd rc) pct))
               (Counter.most_common reasons)
  end.

(** ** Top lanes *)

(** [defaultdict(list)] *)
Fixpoint append_rate (lane : string) (r : Q) (d : list (string * list Q))
  : list (string * list Q) :=
  match d with
  | [] => [(lane, [r])]
  | (k, rs) :: d' =>
      if String.eqb lane k then (k, rs ++ [r]) :: d' else (k, rs) :: append_rate lane r d'
  end.

Fixpoint get_rates (d : list (string * list Q)) (lane : string) : list Q :=
  match d with
  | [] => []
  | (k, rs) :: d' => if String.eqb lane k then rs else get_rates d' lane
  end.

Record lane_stats : Type := mk_lane_stats {
  lane_calls : Counter.t string;
  lane_bookings : Counter.t string;
  lane_rates : list (string * list Q)
}.

Definition count_lane (st : lane_stats) (row : CallRow.t) : lane_stats :=
  let c := CallRow.call row in
  let origin := Call.lane_origin c in
  let dest := Call.lane_destination c in
  if not_str origin || not_str dest then st
  else
    let lane := (fmt_str origin ++ " → " ++ fmt_str dest)%string in
    let calls' := Counter.incr String.eqb lane (lane_calls st) in
    if String.eqb (Call.outcome c) "booked" then
      let bookings' := Counter.incr String.eqb lane (lane_bookings st) in
      match num_or (CallRow.agreed_rate row) (Call.final_rate c) with
      | Some agreed =>
          mk_lane_stats calls' bookings'
                        (append_rate lane (PyFloat.b64 agreed) (lane_rates st))
      | None => mk_lane_stats calls' bookings' (lane_rates st)
      end
    else mk_lane_stats calls' (lane_bookings st) (lane_rates st).

(** [f"${sum(rates) / len(rates):,.0f}"], or ["$0"] without rates; the
    sum adds the floats from left to right. *)
Definition format_avg_rate (rates : list Q) : string :=
  match rates with
  | [] => "$0"
  | _ =>
      let avg := PyFloat.div (fold_left PyFloat.add rates 0%Q)
                             (PyFloat.of_int (Z.of_nat (List.length rates))) in
      "$" ++ format_comma_0f avg
  end.

Definition top_lanes_of (all_calls : list CallRow.t) : result (list TopLane.t) :=
  let st := fold_left count_lane all_calls (mk_lane_stats [] [] []) in
  match lane_calls st with
  | [] => Ok []
  | _ =>
      Ok (map (fun lc =>
                 TopLane.mk (fst lc) (snd lc)
                            (Counter.get String.eqb (lane_bookings st) (fst lc))
                            (format_avg_rate (get_rates (lane_rates st) (fst lc))))
              (Counter.most_common_n 5 (lane_calls st)))
  end.

(** ** Equipment demand / supply *)

Definition _EQUIP_LABELS : list (string * string) :=
  [ ("dry_van", "Dry Van"); ("reefer", "Reefer"); ("flatbed", "Flatbed");
    ("step_deck", "Step Deck"); ("power_only", "Power Only") ].

Definition _format_equip (raw : string) : string :=
  match find (fun kv => String.eqb (fst kv) raw) _EQUIP_LABELS with
  | Some kv => snd kv
  | None => title (replace_char "_"%char " "%char raw)
  end.

(** [n or 1] *)
Definition or_1 (n : nat) : nat := if (n =? 0)%nat then 1%nat else n.

Definition equipment_demand_supply_of (demand_raw supply_raw : Counter.t string)
  : result (list EquipmentDemandSupply.t) :=
  let all_types :=
    sorted_strs (nodup string_dec (Counter.keys demand_raw ++ Counter.keys supply_raw)) in
  match all_types with
  | [] => Ok []
  | _ =>
      let demand_total := or_1 (Counter.total demand_raw) in
      let supply_total := or_1 (Counter.total supply_raw) in
      rows <- for_each (fun eq =>
                  demand_pct <- percent (Counter.get String.eqb demand_raw eq) demand_total ;;
                  supply_pct <- percent (Counter.get String.eqb supply_raw eq) supply_total ;;
                  Ok (EquipmentDemandSupply.mk (_format_equip eq) demand_pct supply_pct))
               all_types ;;
      Ok (sorted_by_key EquipmentDemandSupply.demand true rows)
  end.

(** ** The functions as the service exposes them *)

Section Service.
Variable db : Db.
Variable now : Z.

Definition _negotiation_depth : result (list NegotiationDepthBucket.t) :=
  negotiation_depth_of (get_booked_calls_last_30_days db now).

Definition _carrier_objections : result (list CarrierObjection.t) :=
  carrier_objections_of (get_failed_calls_last_30_days db now)
                        (get_all_calls_last_30_days db now).

Definition _top_lanes : result (list TopLane.t) :=
  top_lanes_of (get_all_calls_last_30_days db now).

Definition _equipment_demand_supply : result (list EquipmentDemandSupply.t) :=
  equipment_demand_supply_of (get_available_loads_by_equipment db)
                             (get_recent_calls_by_equipment db now).

Definition get_analytics : result AnalyticsResponse.t :=
  nd <- _negotiation_depth ;;
  co <- _carrier_objections ;;
  tl <- _top_lanes ;;
  eq <- _equipment_demand_supply ;;
  Ok (AnalyticsResponse.mk nd co tl eq).
End Service.

(* ================================================================== *)
(** * Booking *)
(* ================================================================== *)

(** Modelled from the spec: [BookedLoadRequest] of [app/models/offer.py]
    is not among the sources; its fields are the input fields of section
    4.3, which are the keys [insert_booked_load] reads from its
    [booking] dict. *)
Module BookedLoadRequest.
Record t : Type := mk {
  load_id : string;
  mc_number : string;
  agreed_rate : Q;
  carrier_name : option string;
  agreed_pickup_datetime : option string;
  offer_id : option string;
  call_id : option string
}.
End BookedLoadRequest.

(** ** [booked_load_repo.py] *)

(** [INSERT INTO booked_loads ... VALUES (...)] *)
Definition insert_row (bl : BookedLoad.t) (db : Db) : Db :=
  mkDb (calls db) (loads db) (booked_loads db ++ [bl]).

(** [UPDATE loads SET status='booked', booked_at=? WHERE load_id=?] *)
Definition mark_booked (created_at : Z) (load_id : string) (db : Db) : Db :=
  mkDb (calls db)
       (map (fun l =>
               if String.eqb (Load.load_id l) load_id
               then Load.mk (Load.load_id l) (Load.equipment_type l) "booked"
                            (Load.origin l) (Load.destination l)
                            (Load.loadboard_rate l) (Some created_at)
               else l)
            (loads db))
       (booked_loads db).

(** [uuid.uuid4().hex[:8]] and [datetime.utcnow()] come from outside:
    [token] and [utcnow].  The two statements run on one connection. *)
Definition insert_booked_load (booking : BookedLoadRequest.t) (token : string) (utcnow : Z)
           (db : Db) : BookedLoad.t * Db :=
  let id := ("BK-" ++ token)%string in
  let created_at := utcnow in
  let row :=
    BookedLoad.mk id
                  (BookedLoadRequest.load_id booking)
                  (BookedLoadRequest.mc_number booking)
                  (BookedLoadRequest.carrier_name booking)
                  (BookedLoadRequest.agreed_rate booking)
                  (BookedLoadRequest.agreed_pickup_datetime booking)
                  (BookedLoadRequest.offer_id booking)
                  (BookedLoadRequest.call_id booking)
                  created_at in
  let db := insert_row row db in
  let db := mark_booked created_at (BookedLoadRequest.load_id booking) db in
  (row, db).

(** ** The booking service *)

(** Modelled from the spec: the lookup of one Load by id, of a
    repository module that is not among the sources ("fetch one Load by
    id"). *)
Definition get_load_by_id (db : Db) (load_id : string) : option Load.t :=
  find (fun l => String.eqb (Load.load_id l) load_id) (loads db).

(** Modelled from the spec: the two failures of a booking, as the error
    texts section 4.3 gives them. *)
Definition NotFound : string := "no such load".
Definition Conflict : string := "already booked".

(** Modelled from the spec: [book_load] of
    [app/services/booked_load_service.py], which is not among the
    sources.  Section 4.3: look the Load up, fail with [NotFound] when it
    is absent and with [Conflict] when its status is not [available],
    else insert the booking and flip the Load; the result is the pair
    [(booking, error)] the route unpacks. *)
Definition book_load (req : BookedLoadRequest.t) (token : string) (utcnow : Z) (db : Db)
  : (option BookedLoad.t * option string) * Db :=
  match get_load_by_id db (BookedLoadRequest.load_id req) with
  | None => ((None, Some NotFound), db)
  | Some load =>
      if negb (String.eqb (Load.status load) "available")
      then ((None, Some Conflict), db)
      else
        let '(booking, db') := insert_booked_load req token utcnow db in
        ((Some booking, None), db')
  end.

(** ** [routes/booked_loads.py] *)

Inductive response (A : Type) : Type :=
| Return (a : A)
| HTTPException (status : nat) (detail : string).
Arguments Return {A} a.
Arguments HTTPException {A} status detail.

Definition create_booking (req : BookedLoadRequest.t) (token : string) (utcnow : Z) (db : Db)
  : response (option BookedLoad.t) * Db :=
  let '((result, error), db') := book_load req token utcnow db in
  match error with
  | Some e =>
      if String.eqb e "" then (Return result, db')
      else
        let status := if contains "already booked" e then 409%nat else 404%nat in
        (HTTPException status e, db')
  | None => (Return result, db')
  end.

(** Rows of [booked_loads] for one load, and the store invariant of the
    data model: a Load that is still [available] has no booking. *)
Definition bookings_for (db : Db) (load_id : string) : list BookedLoad.t :=
  filter (fun bl => String.eqb (BookedLoad.load_id bl) load_id) (booked_loads db).

Definition consistent (db : Db) : Prop :=
  forall l, In l (loads db) -> Load.status l = "available" ->
            bookings_for db (Load.load_id l) = [].

(* ================================================================== *)
(** * Vocabulary of the specification *)
(* ================================================================== *)

(** Counting "occurrences per key, keys in the order first encountered",
    written independently of the [Counter] loop. *)
Section Tally.
Context {K : Type}.
Variable eqb : K -> K -> bool.

Definition occurrences (k : K) (s : list K) : nat :=
  List.length (filter (eqb k) s).

Fixpoint first_seen (s : list K) : list K :=
  match s with
  | [] => []
  | k :: s' => k :: filter (fun x => negb (eqb k x)) (first_seen s')
  end.

Definition tally (s : list K) : list (K * nat) :=
  map (fun k => (k, occurrences k s)) (first_seen s).
End Tally.

Definition sum_Z (l : list Z) : Z := fold_right Z.add 0%Z l.
Definition sum_nat (l : list nat) : nat := fold_right Nat.add 0%nat l.

(** "Percentages within one list sum to 100 with an error of at most
    (number of buckets - 1)". *)
Definition sums_to_100 (pcts : list Z) : Prop :=
  (Z.abs (sum_Z pcts - 100) <= Z.of_nat (List.length pcts) - 1)%Z.

(** The objection label of an outcome, and the labels met by the two
    loops of the carrier-objections aggregation, in the order met. *)
Definition failed_label (outcome : string) : list string :=
  if String.eqb outcome "negotiation_failed" then ["Rate too low"]
  else if String.eqb outcome "dropped_call" then ["Call dropped"]
  else [].

Definition no_loads_label (outcome : string) : list string :=
  if String.eqb outcome "no_loads_available" then ["No matching loads"] else [].

Definition objection_labels (failed : list Call.t) (all_calls : list CallRow.t) : list string :=
  flat_map (fun c => failed_label (Call.outcome c)) failed
  ++ flat_map (fun r => no_loads_label (Call.outcome (CallRow.call r))) all_calls.

(** "Count occurrences per label, then emit in descending count order,
    ties broken by first-encountered label, each with
    pct = round(count/total*100)". *)
Definition rank_objections (labels : list string) : list CarrierObjection.t :=
  map (fun kv => CarrierObjection.mk (fst kv) (snd kv) (pct_of (snd kv) (List.length labels)))
      (sorted_by_key (fun kv => Z.of_nat (snd kv)) true (tally String.eqb labels)).

(** The number of calls with a given outcome. *)
Definition calls_with (outcome : string) (cs : list Call.t) : nat :=
  List.length (filter (fun c => String.eqb (Call.outcome c) outcome) cs).
Definition rows_with (outcome : string) (rs : list CallRow.t) : nat :=
  calls_with outcome (map CallRow.call rs).

(** "Group by depth, count occurrences, compute each bucket's share of
    the total; emit buckets ordered by ascending depth, each labeled via
    the fixed mapping". *)
Definition depth_buckets (booked : list Call.t) : list NegotiationDepthBucket.t :=
  let depths := map depth_key booked in
  map (fun k => NegotiationDepthBucket.mk
                  (depth_label k)
                  (pct_of (occurrences Z.eqb k depths) (List.length booked)))
      (sorted_ints (first_seen Z.eqb depths)).

(** The order [sorted(.., key=key, reverse=reverse)] leaves between an
    earlier and a later element. *)
Definition in_order {A : Type} (key : A -> Z) (reverse : bool) (a b : A) : Prop :=
  if reverse then (key b <= key a)%Z else (key a <= key b)%Z.

(** Booking requests served one after the other. *)
Fixpoint serve_bookings (reqs : list (BookedLoadRequest.t * string * Z)) (db : Db)
  : list (response (option BookedLoad.t)) * Db :=
  match reqs with
  | [] => ([], db)
  | (req, token, utcnow) :: reqs' =>
      let '(r, db') := create_booking req token utcnow db in
      let '(rs, db'') := serve_bookings reqs' db' in
      (r :: rs, db'')
  end.

(** The lanes of the rows that pass the guard of the top-lanes loop, in
    row order. *)
Definition lanes_of (rows : list CallRow.t) : list string :=
  flat_map (fun row =>
              let c := CallRow.call row in
              if not_str (Call.lane_origin c) || not_str (Call.lane_destination c)
              then []
              else [(fmt_str (Call.lane_origin c) ++ " → "
                     ++ fmt_str (Call.lane_destination c))%string])
           rows.

(** The entry of one equipment type in the demand/supply balance. *)
Definition balance_entry (demand_raw supply_raw : Counter.t string) (eq : string)
  : EquipmentDemandSupply.t :=
  EquipmentDemandSupply.mk
    (_format_equip eq)
    (pct_of (Counter.get String.eqb demand_raw eq) (or_1 (Counter.total demand_raw)))
    (pct_of (Counter.get String.eqb supply_raw eq) (or_1 (Counter.total supply_raw))).

(* ================================================================== *)
(** * Sample rows *)
(* ================================================================== *)

Section Samples.
Local Open Scope Z_scope.

Definition booked_call (id : string) (rounds : option Z) : Call.t :=
  Call.mk id "booked" rounds None None None None 0.

Definition failed_call (id outcome : string) : Call.t :=
  Call.mk id outcome None None None None None 0.

Definition lane_row (outcome : string) (origin dest : option string)
           (agreed final : option Q) : CallRow.t :=
  CallRow.mk (Call.mk "c" outcome None None origin dest final 0) agreed.

Definition old_call : Call.t :=
  Call.mk "c-1" "booked" (Some 1) (Some "reefer") (Some "Dallas") (Some "Austin")
          (Some (inject_Z 900)) 0.

Definition reefer_call : Call.t :=
  Call.mk "c-9" "booked" (Some 0) (Some "reefer") None None None 100.

Definition booked_load : Load.t :=
  Load.mk "L-1" "reefer" "booked" "Dallas" "Austin" (inject_Z 1000) (Some 5).

Definition objections_db : Db :=
  mkDb [ failed_call "c-1" "negotiation_failed";
         failed_call "c-2" "no_loads_available";
         failed_call "c-3" "dropped_call";
         failed_call "c-4" "negotiation_failed" ] [] [].

Definition one_ended_row : CallRow.t :=
  lane_row "booked" (Some "Chicago") None (Some (inject_Z 1200)) None.

Definition two_ended_row : CallRow.t :=
  lane_row "booked" (Some "Chicago") (Some "Denver") (Some (inject_Z 1200)) None.

Definition dallas_load : Load.t :=
  Load.mk "L-100" "dry_van" "available" "Dallas" "Austin" (inject_Z 1500) None.

Definition dallas_request (id : string) : BookedLoadRequest.t :=
  BookedLoadRequest.mk id "MC-7" (inject_Z 1400) (Some "Acme") None None None.

Definition one_load_db : Db := mkDb [] [dallas_load] [].
End Samples.

(* ================================================================== *)
(** * Booking reads of [booked_load_repo.py] *)
(* ================================================================== *)

(** A row of [SELECT bl.*, l.origin AS lane_origin, l.destination AS
    lane_destination, l.equipment_type, l.loadboard_rate,
    c.negotiation_rounds, c.sentiment]: the booking and the columns the
    two left joins add, which are null without a matching row. *)
Module BookedLoadRow.
Record t : Type := mk {
  booking : BookedLoad.t;
  lane_origin : option string;
  lane_destination : option string;
  equipment_type : option string;
  loadboard_rate : option Q;
  negotiation_rounds : option Z;
  sentiment : option string
}.
End BookedLoadRow.

Section BookedLoadRepo.
(** The [sentiment] column of [calls], which no aggregation reads, and
    the database. *)
Variable sentiment : Call.t -> option string.
Variable db : Db.

(** [LEFT JOIN loads l ON bl.load_id = l.load_id] *)
Definition join_loads (bl : BookedLoad.t) : list (option Load.t) :=
  match filter (fun l => String.eqb (BookedLoad.load_id bl) (Load.load_id l)) (loads db) with
  | [] => [None]
  | ls => map Some ls
  end.

(** [LEFT JOIN calls c ON bl.call_id = c.call_id] *)
Definition join_calls (bl : BookedLoad.t) : list (option Call.t) :=
  match filter (fun c => match BookedLoad.call_id bl with
                         | Some i => String.eqb i (Call.call_id c)
                         | None => false
                         end) (calls db) with
  | [] => [None]
  | cs => map Some cs
  end.

Definition enriched (bl : BookedLoad.t) (l : option Load.t) (c : option Call.t)
  : BookedLoadRow.t :=
  BookedLoadRow.mk bl
    (option_map Load.origin l)
    (option_map Load.destination l)
    (option_map Load.equipment_type l)
    (option_map Load.loadboard_rate l)
    (match c with Some c' => Call.negotiation_rounds c' | None => None end)
    (match c with Some c' => sentiment c' | None => None end).

Definition joined_rows (bl : BookedLoad.t) : list BookedLoadRow.t :=
  flat_map (fun l => map (enriched bl l) (join_calls bl)) (join_loads bl).

(** [... WHERE bl.load_id = ?] with [fetchone()], and
    [dict(row) if row else None]. *)
Definition get_booked_load (load_id : string) : option BookedLoadRow.t :=
  match flat_map joined_rows
                 (filter (fun bl => String.eqb (BookedLoad.load_id bl) load_id)
                         (booked_loads db)) with
  | row :: _ => Some row
  | [] => None
  end.

(** [... ORDER BY bl.created_at DESC] with [fetchall()]. *)
Definition get_all_booked_loads : list BookedLoadRow.t :=
  sorted_by_key (fun r => BookedLoad.created_at (BookedLoadRow.booking r)) true
                (flat_map joined_rows (booked_loads db)).
End BookedLoadRepo.

(* ================================================================== *)
(** * More vocabulary *)
(* ================================================================== *)

(** A row passes the guard of the top-lanes loop; its lane. *)
Definition counted (row : CallRow.t) : bool :=
  negb (not_str (Call.lane_origin (CallRow.call row))
        || not_str (Call.lane_destination (CallRow.call row))).

Definition lane_of (row : CallRow.t) : string :=
  (fmt_str (Call.lane_origin (CallRow.call row)) ++ " → "
   ++ fmt_str (Call.lane_destination (CallRow.call row)))%string.

Definition is_booked (row : CallRow.t) : bool :=
  String.eqb (Call.outcome (CallRow.call row)) "booked".

(** The lanes of the counted rows that are booked, and the rate
    observations of one lane, in row order. *)
Definition booked_lanes_of (rows : list CallRow.t) : list string :=
  flat_map (fun row => if counted row && is_booked row then [lane_of row] else []) rows.

Definition rates_on (lane : string) (rows : list CallRow.t) : list Q :=
  flat_map (fun row =>
              if counted row && is_booked row && String.eqb lane (lane_of row)
              then match num_or (CallRow.agreed_rate row)
                                (Call.final_rate (CallRow.call row)) with
                   | Some agreed => [PyFloat.b64 agreed]
                   | None => []
                   end
              else [])
           rows.

(** The entry of one lane. *)
Definition lane_entry (rows : list CallRow.t) (lc : string * nat) : TopLane.t :=
  TopLane.mk (fst lc) (snd lc)
             (occurrences String.eqb (fst lc) (booked_lanes_of rows))
             (format_avg_rate (rates_on (fst lc) rows)).

(** The database restricted to what the analytics queries can see: the
    calls of the last 30 days and the available loads. *)
Definition visible (db : Db) (now : Z) : Db :=
  mkDb (filter (fun c => last_30_days now (Call.created_at c)) (calls db))
       (filter (fun l => String.eqb (Load.status l) "available") (loads db))
       (booked_loads db).

(** The number of bookings that reference a call. *)
Definition bookings_of_call (db : Db) (c : Call.t) : nat :=
  List.length (filter (fun bl => match BookedLoad.call_id bl with
                                 | Some i => String.eqb (Call.call_id c) i
                                 | None => false
                                 end) (booked_loads db)).

(** Text made of ASCII characters only. *)
Definition is_ascii (s : string) : Prop :=
  Forall (fun c => (nat_of_ascii c < 128)%nat) (list_ascii_of_string s).

(** A percentage. *)
Definition is_pct (p : Z) : Prop := (0 <= p <= 100)%Z.

(** A row with the rates blanked unless the call is booked. *)
Definition without_unbooked_rates (row : CallRow.t) : CallRow.t :=
  if is_booked row then row
  else
    let c := CallRow.call row in
    CallRow.mk (Call.mk (Call.call_id c) (Call.outcome c) (Call.negotiation_rounds c)
                        (Call.equipment_type c) (Call.lane_origin c)
                        (Call.lane_destination c) None (Call.created_at c))
               None.

(** The counted rows of one lane. *)
Definition rows_on (lane : string) (rows : list CallRow.t) : list CallRow.t :=
  filter (fun row => counted row && String.eqb lane (lane_of row)) rows.

(** The first load with a given id and the first call a booking
    references, in table order. *)
Definition first_load (db : Db) (load_id : string) : option Load.t :=
  find (fun l => String.eqb load_id (Load.load_id l)) (loads db).

Definition first_call (db : Db) (call_id : option string) : option Call.t :=
  find (fun c => match call_id with
                 | Some i => String.eqb i (Call.call_id c)
                 | None => false
                 end) (calls db).

(** The first row the joins give for one booking. *)
Definition first_joined (sentiment : Call.t -> option string) (db : Db) (bl : BookedLoad.t)
  : BookedLoadRow.t :=
  enriched sentiment bl (first_load db (BookedLoad.load_id bl))
           (first_call db (BookedLoad.call_id bl)).

(** The underscore is not among the characters of a text. *)
Definition no_underscore (s : string) : Prop :=
  ~ In "_"%char (list_ascii_of_string s).

Section MoreSamples.

Definition referencing_request : BookedLoadRequest.t :=
  BookedLoadRequest.mk "L-100" "MC-7" (inject_Z 1400) None None None (Some "c-1").

Definition old_call_db : Db := mkDb [old_call] [dallas_load] [].
End MoreSamples.

(* ================================================================== *)
(** * Lists, counters and sorting *)
(* ================================================================== *)

Lemma for_each_map {A B : Type} (f : A -> result B) (g : A -> B) (l : list A) :
  (forall x, In x l -> f x = Ok (g x)) -> for_each f l = Ok (map g l).
Proof.
  induction l as [| x l IH]; intros H; simpl.
  - reflexivity.
  - rewrite (H x (or_introl eq_refl)). simpl.
    rewrite IH by (intros y Hy; apply H; right; exact Hy).
    reflexivity.
Qed.

Lemma percent_ok (count total : nat) :
  (0 < total)%nat -> percent count total = Ok (pct_of count total).
Proof.
  intros H. unfold percent.
  destruct (Nat.eqb_spec total 0); [lia | reflexivity].
Qed.

Module CounterFacts.
Section Facts.
Context {K : Type}.
Variable eqb : K -> K -> bool.
Hypothesis eqb_spec : forall x y, reflect (x = y) (eqb x y).

Lemma eqb_refl (x : K) : eqb x x = true.
Proof. destruct (eqb_spec x x); congruence. Qed.

Lemma eqb_sym (x y : K) : eqb x y = eqb y x.
Proof. destruct (eqb_spec x y), (eqb_spec y x); congruence. Qed.

Lemma total_incr (k : K) (c : Counter.t K) :
  Counter.total ((Counter.incr eqb) k c) = S (Counter.total c).
Proof.
  unfold Counter.total, Counter.values.
  induction c as [| [k' n] c IH]; simpl.
  - reflexivity.
  - destruct (eqb k k'); simpl; [reflexivity | rewrite IH; lia].
Qed.

Lemma incr_not_nil (k : K) (c : Counter.t K) : (Counter.incr eqb) k c <> [].
Proof. destruct c as [| [k' n] c]; simpl; [| destruct (eqb k k')]; discriminate. Qed.

Lemma occurrences_app (k : K) (s1 s2 : list K) :
  occurrences eqb k (s1 ++ s2) = (occurrences eqb k s1 + occurrences eqb k s2)%nat.
Proof. unfold occurrences. rewrite filter_app, length_app. reflexivity. Qed.

Lemma occurrences_le (k : K) (s : list K) : (occurrences eqb k s <= List.length s)%nat.
Proof. apply filter_length_le. Qed.

Lemma occurrences_0 (k : K) (s : list K) : ~ In k s -> occurrences eqb k s = 0%nat.
Proof.
  unfold occurrences. induction s as [| a s IH]; intros H; simpl.
  - reflexivity.
  - destruct (eqb_spec k a) as [-> | _].
    + exfalso. apply H. left. reflexivity.
    + apply IH. intros Hin. apply H. right. exact Hin.
Qed.

Lemma occurrences_pos (k : K) (s : list K) : In k s -> (0 < occurrences eqb k s)%nat.
Proof.
  unfold occurrences. induction s as [| a s IH]; intros H; simpl.
  - destruct H.
  - destruct (eqb_spec k a) as [-> | Hne]; simpl; [lia |].
    destruct H as [-> | H]; [congruence | exact (IH H)].
Qed.

Lemma in_first_seen (k : K) (s : list K) : In k (first_seen eqb s) <-> In k s.
Proof.
  induction s as [| a s IH]; simpl.
  - tauto.
  - rewrite filter_In, IH.
    destruct (eqb_spec a k) as [-> | Hne]; simpl; intuition congruence.
Qed.

Lemma NoDup_first_seen (s : list K) : NoDup (first_seen eqb s).
Proof.
  induction s as [| a s IH]; simpl.
  - constructor.
  - constructor.
    + rewrite filter_In. intros [_ H]. rewrite eqb_refl in H. discriminate.
    + apply NoDup_filter. exact IH.
Qed.

Lemma first_seen_snoc (s : list K) (k : K) :
  first_seen eqb (s ++ [k]) =
  if existsb (eqb k) s then first_seen eqb s else first_seen eqb s ++ [k].
Proof.
  induction s as [| a s IH]; simpl.
  - reflexivity.
  - rewrite IH. rewrite (eqb_sym k a).
    destruct (eqb_spec a k) as [-> | Hne]; simpl.
    + destruct (existsb (eqb k) s); [reflexivity |].
      rewrite filter_app. simpl. rewrite eqb_refl. simpl.
      rewrite app_nil_r. reflexivity.
    + destruct (existsb (eqb k) s); [reflexivity |].
      rewrite filter_app. simpl.
      destruct (eqb_spec a k); [congruence |]. reflexivity.
Qed.

Lemma existsb_first_seen (k : K) (s : list K) :
  existsb (eqb k) (first_seen eqb s) = existsb (eqb k) s.
Proof.
  apply eq_true_iff_eq. rewrite !existsb_exists.
  split; intros [x [Hin Hx]]; exists x; split; try exact Hx.
  - apply in_first_seen. exact Hin.
  - apply in_first_seen. exact Hin.
Qed.

(** Incrementing a counter with distinct keys. *)
Lemma incr_map (k : K) (f : K -> nat) (ks : list K) :
  NoDup ks ->
  (Counter.incr eqb) k (map (fun x => (x, f x)) ks) =
  map (fun x => (x, (f x + if eqb x k then 1 else 0)%nat)) ks
  ++ (if existsb (eqb k) ks then [] else [(k, 1%nat)]).
Proof.
  induction ks as [| a ks IH]; intros Hnd; simpl.
  - reflexivity.
  - inversion Hnd as [| ? ? Hnotin Hnd']; subst.
    rewrite (eqb_sym a k).
    destruct (eqb_spec k a) as [-> | Hne]; simpl.
    + rewrite app_nil_r. f_equal; [f_equal; lia |].
      apply map_ext_in. intros x Hx.
      destruct (eqb_spec x a) as [-> | _]; [contradiction | f_equal; lia].
    + rewrite IH by exact Hnd'. f_equal. f_equal. lia.
Qed.

Lemma tally_snoc (s : list K) (k : K) :
  tally eqb (s ++ [k]) = (Counter.incr eqb) k (tally eqb s).
Proof.
  unfold tally. rewrite incr_map by apply NoDup_first_seen.
  rewrite first_seen_snoc, existsb_first_seen.
  assert (Hocc : forall x, occurrences eqb x (s ++ [k]) =
                           (occurrences eqb x s + if eqb x k then 1 else 0)%nat).
  { intros x. rewrite occurrences_app. unfold occurrences at 2. simpl.
    destruct (eqb x k); reflexivity. }
  destruct (existsb (eqb k) s) eqn:Hex.
  - rewrite app_nil_r. apply map_ext. intros x. rewrite Hocc. reflexivity.
  - rewrite map_app. simpl. f_equal.
    + apply map_ext. intros x. rewrite Hocc. reflexivity.
    + rewrite Hocc, eqb_refl. rewrite occurrences_0; [reflexivity |].
      intros Hin. assert (existsb (eqb k) s = true); [| congruence].
      apply existsb_exists. exists k. split; [exact Hin | apply eqb_refl].
Qed.

(** The counter a loop builds is the tally of the keys it met. *)
Lemma fold_incr_tally {A : Type} (key : A -> K) (l : list A) :
  fold_left (fun c x => (Counter.incr eqb) (key x) c) l [] = tally eqb (map key l).
Proof.
  induction l as [| x l IH] using rev_ind.
  - reflexivity.
  - rewrite fold_left_app, map_app. simpl. rewrite IH, tally_snoc. reflexivity.
Qed.

Lemma keys_tally (s : list K) : Counter.keys (tally eqb s) = first_seen eqb s.
Proof. unfold Counter.keys, tally. rewrite map_map. simpl. apply map_id. Qed.

Lemma total_tally (s : list K) : Counter.total (tally eqb s) = List.length s.
Proof.
  induction s as [| x s IH] using rev_ind.
  - reflexivity.
  - rewrite tally_snoc, total_incr, IH, length_app. simpl. lia.
Qed.

Lemma tally_nil_iff (s : list K) : tally eqb s = [] <-> s = [].
Proof.
  split; [| intros ->; reflexivity].
  destruct s as [| x s]; [reflexivity | discriminate].
Qed.

Lemma get_map (f : K -> nat) (ks : list K) (k : K) :
  In k ks -> (Counter.get eqb) (map (fun x => (x, f x)) ks) k = f k.
Proof.
  induction ks as [| a ks IH]; intros Hin; simpl.
  - destruct Hin.
  - destruct (eqb_spec k a) as [-> | Hne]; [reflexivity |].
    destruct Hin as [-> | Hin]; [congruence | exact (IH Hin)].
Qed.

Lemma get_not_in (c : Counter.t K) (k : K) :
  ~ In k (Counter.keys c) -> (Counter.get eqb) c k = 0%nat.
Proof.
  induction c as [| [a n] c IH]; intros Hin; simpl.
  - reflexivity.
  - destruct (eqb_spec k a) as [-> | Hne].
    + exfalso. apply Hin. left. reflexivity.
    + apply IH. intros H. apply Hin. right. exact H.
Qed.

Lemma get_tally (s : list K) (k : K) : (Counter.get eqb) (tally eqb s) k = occurrences eqb k s.
Proof.
  destruct (in_dec (fun x y => reflect_dec _ _ (eqb_spec x y)) k s) as [Hin | Hout].
  - unfold tally. apply get_map. apply in_first_seen. exact Hin.
  - rewrite occurrences_0 by exact Hout.
    apply get_not_in. rewrite keys_tally, in_first_seen. exact Hout.
Qed.

Lemma get_cons (a : K) (n : nat) (c : Counter.t K) (k : K) :
  (Counter.get eqb) ((a, n) :: c) k = if eqb k a then n else (Counter.get eqb) c k.
Proof. reflexivity. Qed.

Lemma sum_get_skip (a : K) (n : nat) (c : Counter.t K) (ks : list K) :
  ~ In a ks -> sum_nat (map ((Counter.get eqb) ((a, n) :: c)) ks) = sum_nat (map ((Counter.get eqb) c) ks).
Proof.
  induction ks as [| k ks IH]; intros Hout; [reflexivity |].
  cbn [map sum_nat fold_right]. rewrite get_cons.
  destruct (eqb_spec k a) as [-> | _].
  - exfalso. apply Hout. left. reflexivity.
  - f_equal. apply IH. intros H. apply Hout. right. exact H.
Qed.

Lemma sum_get_hit (a : K) (n : nat) (c : Counter.t K) (ks : list K) :
  NoDup ks -> In a ks -> (Counter.get eqb) c a = 0%nat ->
  sum_nat (map ((Counter.get eqb) ((a, n) :: c)) ks) = (n + sum_nat (map ((Counter.get eqb) c) ks))%nat.
Proof.
  intros Hnd Hin Hga.
  induction ks as [| k ks IH]; [destruct Hin |].
  inversion Hnd as [| ? ? Hk Hnd']; subst.
  cbn [map sum_nat fold_right]. rewrite get_cons.
  destruct (eqb_spec k a) as [-> | Hne].
  - rewrite Hga, sum_get_skip by exact Hk. reflexivity.
  - destruct Hin as [-> | Hin]; [congruence |].
    fold (sum_nat (map ((Counter.get eqb) ((a, n) :: c)) ks)).
    fold (sum_nat (map ((Counter.get eqb) c) ks)).
    rewrite (IH Hnd' Hin). lia.
Qed.

(** A dict read at each of a duplicate-free list of keys that covers
    its own keys: the values read add up to the sum of its values. *)
Lemma sum_get_cover (c : Counter.t K) (ks : list K) :
  NoDup (Counter.keys c) -> NoDup ks ->
  (forall k, In k (Counter.keys c) -> In k ks) ->
  sum_nat (map ((Counter.get eqb) c) ks) = Counter.total c.
Proof.
  induction c as [| [a n] c IH]; intros Hc Hks Hcov.
  - unfold Counter.total. simpl. clear Hks Hcov.
    induction ks as [| k ks IHk]; [reflexivity | exact IHk].
  - simpl in Hc. inversion Hc as [| ? ? Ha Hc']; subst.
    change (Counter.total ((a, n) :: c)) with (n + Counter.total c)%nat.
    rewrite <- (IH Hc' Hks) by (intros k Hk; apply Hcov; right; exact Hk).
    apply sum_get_hit.
    + exact Hks.
    + apply Hcov. left. reflexivity.
    + apply get_not_in. exact Ha.
Qed.
End Facts.
End CounterFacts.

Module SortFacts.
Section Generic.
Context {A : Type}.
Variable before : A -> A -> bool.

Lemma insert_sorted_perm (x : A) (l : list A) :
  Permutation (insert_sorted before x l) (x :: l).
Proof.
  induction l as [| y l IH]; simpl.
  - apply Permutation_refl.
  - destruct (before y x).
    + rewrite IH. apply perm_swap.
    + apply Permutation_refl.
Qed.

Lemma stable_sort_perm (l : list A) : Permutation (stable_sort before l) l.
Proof.
  induction l as [| x l IH]; simpl.
  - apply perm_nil.
  - rewrite insert_sorted_perm. apply perm_skip. exact IH.
Qed.
End Generic.

Section ByKey.
Context {A : Type}.
Variable key : A -> Z.
Variable reverse : bool.

Lemma insert_sorted_sorted (x : A) (l : list A) :
  StronglySorted (in_order key reverse) l ->
  StronglySorted (in_order key reverse)
    (insert_sorted (fun y x => if reverse then (key x <? key y)%Z else (key y <? key x)%Z) x l).
Proof.
  unfold in_order.
  induction l as [| y l IH]; intros Hs; simpl.
  - constructor; constructor.
  - inversion Hs as [| ? ? Hs' Hall]; subst.
    rewrite Forall_forall in Hall.
    destruct reverse.
    + destruct (Z.ltb_spec (key x) (key y)) as [Hlt | Hge].
      * constructor; [apply IH; exact Hs' |].
        rewrite Forall_forall. intros z Hz.
        apply (Permutation_in _ (insert_sorted_perm _ x l)) in Hz.
        destruct Hz as [<- | Hz]; [lia | apply Hall; exact Hz].
      * constructor; [exact Hs |].
        rewrite Forall_forall. intros z [<- | Hz]; [lia |].
        specialize (Hall z Hz). lia.
    + destruct (Z.ltb_spec (key y) (key x)) as [Hlt | Hge].
      * constructor; [apply IH; exact Hs' |].
        rewrite Forall_forall. intros z Hz.
        apply (Permutation_in _ (insert_sorted_perm _ x l)) in Hz.
        destruct Hz as [<- | Hz]; [lia | apply Hall; exact Hz].
      * constructor; [exact Hs |].
        rewrite Forall_forall. intros z [<- | Hz]; [lia |].
        specialize (Hall z Hz). lia.
Qed.

Lemma sorted_by_key_sorted (l : list A) :
  StronglySorted (in_order key reverse) (sorted_by_key key reverse l).
Proof.
  unfold sorted_by_key.
  induction l as [| x l IH]; simpl.
  - constructor.
  - apply insert_sorted_sorted. exact IH.
Qed.

Lemma sorted_by_key_perm (l : list A) : Permutation (sorted_by_key key reverse l) l.
Proof. apply stable_sort_perm. Qed.

Lemma insert_sorted_stable (v : Z) (x : A) (l : list A) :
  filter (fun a => (key a =? v)%Z)
         (insert_sorted (fun y x => if reverse then (key x <? key y)%Z else (key y <? key x)%Z) x l) =
  filter (fun a => (key a =? v)%Z) (x :: l).
Proof.
  induction l as [| y l IH]; [reflexivity |].
  cbn [insert_sorted].
  destruct (if reverse then (key x <? key y)%Z else (key y <? key x)%Z) eqn:Hb;
    [| reflexivity].
  assert (Hne : key x <> key y).
  { destruct reverse; apply Z.ltb_lt in Hb; lia. }
  cbn [filter] in *. rewrite IH.
  destruct (Z.eqb_spec (key x) v), (Z.eqb_spec (key y) v); try reflexivity.
  congruence.
Qed.

(** Stability: elements with the same key keep their input order. *)
Lemma sorted_by_key_stable (v : Z) (l : list A) :
  filter (fun a => (key a =? v)%Z) (sorted_by_key key reverse l) =
  filter (fun a => (key a =? v)%Z) l.
Proof.
  unfold sorted_by_key.
  induction l as [| x l IH]; [reflexivity |].
  cbn [stable_sort fold_right].
  change (fold_right (insert_sorted (fun y x0 => if reverse then (key x0 <? key y)%Z else (key y <? key x0)%Z)) [] l)
    with (stable_sort (fun y x0 => if reverse then (key x0 <? key y)%Z else (key y <? key x0)%Z) l).
  rewrite insert_sorted_stable. cbn [filter]. rewrite IH. reflexivity.
Qed.
End ByKey.
End SortFacts.

(* ================================================================== *)
(** * Rounding *)
(* ================================================================== *)

Module PyFloatFacts.
Import PyFloat.
Local Open Scope Q_scope.

Lemma round_half_even_error (q : Q) :
  - (1 # 2) <= inject_Z (round_half_even q) - q <= 1 # 2.
Proof.
  unfold round_half_even.
  pose proof (Qfloor_le q) as Hlo.
  pose proof (Qlt_floor q) as Hhi.
  rewrite inject_Z_plus in Hhi.
  change (inject_Z 1) with 1 in Hhi.
  destruct (Qcompare_spec (q - inject_Z (Qfloor q)) (1 # 2)) as [He | Hl | Hg].
  - destruct (Z.even (Qfloor q)).
    + lra.
    + rewrite inject_Z_plus. change (inject_Z 1) with 1. lra.
  - lra.
  - rewrite inject_Z_plus. change (inject_Z 1) with 1. lra.
Qed.

Lemma pow2_pos (e : Z) : 0 < 2 ^ e.
Proof. apply Qpower_0_lt. reflexivity. Qed.

Lemma pow2_inject (a : Z) : (0 <= a)%Z -> 2 ^ a == inject_Z (2 ^ a).
Proof. intros Ha. rewrite Zpower_Qpower by assumption. reflexivity. Qed.

Lemma ilog2_le (q : Q) : 0 < q -> 2 ^ ilog2 q <= q.
Proof.
  intros Hq. unfold ilog2.
  destruct (Qle_bool (2 ^ (Z.log2 (Qnum q) - Z.log2 (Z.pos (Qden q)))) q) eqn:Hb.
  - apply Qle_bool_imp_le. exact Hb.
  - clear Hb. destruct q as [n d]. simpl Qnum. simpl Qden.
    assert (Hn : (0 < n)%Z).
    { unfold Qlt in Hq. simpl in Hq. lia. }
    set (a := Z.log2 n). set (b := Z.log2 (Z.pos d)).
    assert (Ha : (0 <= a)%Z) by apply Z.log2_nonneg.
    assert (Hb : (0 <= b)%Z) by apply Z.log2_nonneg.
    destruct (Z.log2_spec n Hn) as [Hn1 _]. fold a in Hn1.
    destruct (Z.log2_spec (Z.pos d) (Pos2Z.is_pos d)) as [_ Hd2]. fold b in Hd2.
    replace (a - b - 1)%Z with (a - (b + 1))%Z by lia.
    rewrite Qpower_minus by (intro H; discriminate H).
    rewrite (pow2_inject a) by assumption.
    rewrite (pow2_inject (b + 1)) by lia.
    assert (Hpb : (0 < 2 ^ (b + 1))%Z) by (apply Z.pow_pos_nonneg; lia).
    apply Qle_shift_div_r.
    + change 0 with (inject_Z 0). rewrite <- Zlt_Qlt. exact Hpb.
    + replace (Z.succ b) with (b + 1)%Z in Hd2 by lia.
      unfold Qle, Qmult, inject_Z. simpl Qnum. simpl Qden.
      nia.
Qed.

Lemma pow2_m53 : 2 ^ (-53) == u53.
Proof. vm_compute. reflexivity. Qed.

Lemma pow2_emin_small : 2 ^ emin <= u53.
Proof.
  rewrite <- pow2_m53. unfold emin.
  apply Qpower_le_compat_l; [lia | lra].
Qed.

(** Rounding to binary64 moves a non-negative value by at most half a
    unit in the last place. *)
Lemma b64_error (q : Q) :
  0 <= q -> - (q * u53 + u53) <= b64 q - q <= q * u53 + u53.
Proof.
  intros Hq. unfold b64.
  destruct (Qeq_bool q 0) eqn:Hz.
  - apply Qeq_bool_eq in Hz. unfold u53. lra.
  - apply Qeq_bool_neq in Hz.
    assert (Hpos : 0 < q) by lra.
    set (e := ulp_exp q).
    pose proof (pow2_pos e) as HP.
    pose proof (round_half_even_error (q / 2 ^ e)) as [Hlo Hhi].
    set (m := inject_Z (round_half_even (q / 2 ^ e))) in *.
    assert (Hq' : q == q / 2 ^ e * 2 ^ e) by (field; lra).
    assert (Hulp : 2 ^ e <= q * (2 * u53) + 2 * u53).
    { unfold e, ulp_exp.
      destruct (Z.max_spec (ilog2 (Qabs q) - (prec - 1)) emin) as [[_ ->] | [_ ->]].
      - pose proof pow2_emin_small. pose proof (Qmult_le_0_compat q (2 * u53) Hq).
        unfold u53 in *. lra.
      - rewrite Qpower_minus by (intro H; discriminate H).
        assert (Hab : Qabs q == q) by (apply Qabs_pos; exact Hq).
        assert (Hl : 2 ^ ilog2 (Qabs q) <= q).
        { rewrite <- Hab at 2. apply ilog2_le. rewrite Hab. exact Hpos. }
        assert (Hc : 2 ^ (prec - 1) == 4503599627370496) by (vm_compute; reflexivity).
        rewrite Hc. unfold Qdiv.
        assert (Hi : / 4503599627370496 == 2 * u53) by (vm_compute; reflexivity).
        rewrite Hi.
        pose proof (Qmult_le_compat_r _ _ (2 * u53) Hl).
        unfold u53 in *. lra. }
    assert (H1 : (m - q / 2 ^ e) * 2 ^ e <= (1 # 2) * 2 ^ e).
    { apply Qmult_le_compat_r; lra. }
    assert (H2 : (- (1 # 2)) * 2 ^ e <= (m - q / 2 ^ e) * 2 ^ e).
    { apply Qmult_le_compat_r; lra. }
    assert (H3 : (m - q / 2 ^ e) * 2 ^ e == m * 2 ^ e - q) by (rewrite Hq' at 2; ring).
    rewrite H3 in H1, H2.
    split; lra.
Qed.

Lemma b64_nonneg (q : Q) : 0 <= q -> 0 <= b64 q.
Proof.
  intros Hq. unfold b64.
  destruct (Qeq_bool q 0); [lra|].
  apply Qmult_le_0_compat; [| apply Qlt_le_weak, pow2_pos].
  change 0 with (inject_Z 0). rewrite <- Zle_Qle.
  pose proof (round_half_even_error (q / 2 ^ ulp_exp q)) as [Hlo _].
  assert (Hd : 0 <= q / 2 ^ ulp_exp q).
  { apply Qle_shift_div_l; [apply pow2_pos | lra]. }
  assert (Hm : - 1 < inject_Z (round_half_even (q / 2 ^ ulp_exp q))) by lra.
  change (- 1) with (inject_Z (-1)) in Hm. rewrite <- Zlt_Qlt in Hm. lia.
Qed.
End PyFloatFacts.

Local Open Scope Z_scope.

(** The rounded percentage of [count] out of [total] is the floor or the
    ceiling of the exact percentage. *)
Lemma pct_of_bound (count total : nat) :
  (0 < total)%nat -> (count <= total)%nat ->
  Z.abs (pct_of count total * Z.of_nat total - 100 * Z.of_nat count) < Z.of_nat total.
Proof.
  intros Ht Hc. unfold pct_of, PyFloat.round, PyFloat.mul, PyFloat.int_truediv.
  set (C := Z.of_nat count). set (T := Z.of_nat total).
  assert (HT : 0 < T) by lia.
  assert (HC : 0 <= C <= T) by lia.
  set (q := (inject_Z C / inject_Z T)%Q).
  assert (HTq : (0 < inject_Z T)%Q).
  { change 0%Q with (inject_Z 0). rewrite <- Zlt_Qlt. exact HT. }
  assert (HCq : (0 <= inject_Z C <= inject_Z T)%Q).
  { split; [change 0%Q with (inject_Z 0) |]; rewrite <- Zle_Qle; lia. }
  assert (Hq0 : (0 <= q)%Q).
  { unfold q. apply Qle_shift_div_l; [exact HTq | lra]. }
  assert (Hq1 : (q <= 1)%Q).
  { unfold q. apply Qle_shift_div_r; [exact HTq | lra]. }
  pose proof (PyFloatFacts.b64_error q Hq0) as E1.
  pose proof (PyFloatFacts.b64_nonneg q Hq0) as N1.
  set (q1 := PyFloat.b64 q) in *.
  assert (Hz0 : (0 <= q1 * inject_Z 100)%Q).
  { change (inject_Z 100) with 100%Q. lra. }
  pose proof (PyFloatFacts.b64_error _ Hz0) as E2.
  set (y := PyFloat.b64 (q1 * inject_Z 100)) in *.
  pose proof (PyFloatFacts.round_half_even_error y) as E3.
  set (p := PyFloat.round_half_even y) in *.
  change (inject_Z 100) with 100%Q in *.
  unfold PyFloat.u53 in *.
  assert (Hd : (-1 < inject_Z p - 100 * q < 1)%Q) by (split; lra).
  assert (HqT : (q * inject_Z T == inject_Z C)%Q) by (unfold q; field; lra).
  assert (Hm1 : ((inject_Z p - 100 * q) * inject_Z T < 1 * inject_Z T)%Q).
  { apply Qmult_lt_compat_r; [exact HTq | lra]. }
  assert (Hm2 : ((-1) * inject_Z T < (inject_Z p - 100 * q) * inject_Z T)%Q).
  { apply Qmult_lt_compat_r; [exact HTq | lra]. }
  assert (Hr : ((inject_Z p - 100 * q) * inject_Z T ==
                inject_Z (p * T - 100 * C))%Q).
  { unfold Z.sub. rewrite inject_Z_plus, inject_Z_opp, !inject_Z_mult.
    change (inject_Z 100) with 100%Q. rewrite <- HqT. ring. }
  rewrite Hr in Hm1, Hm2.
  assert (H1 : (inject_Z (p * T - 100 * C) < inject_Z T)%Q) by lra.
  assert (H2 : (inject_Z (- T) < inject_Z (p * T - 100 * C))%Q).
  { rewrite inject_Z_opp. lra. }
  rewrite <- Zlt_Qlt in H1, H2. lia.
Qed.

(** Percentages on which binary64 and exact arithmetic disagree or tie. *)
Example pct_of_23_40 : pct_of 23 40 = 57.
Proof. vm_compute. reflexivity. Qed.

Example pct_of_1_8 : pct_of 1 8 = 12.
Proof. vm_compute. reflexivity. Qed.

Example pct_of_1_200 : pct_of 1 200 = 0.
Proof. vm_compute. reflexivity. Qed.

(* ================================================================== *)
(** * What the aggregations compute *)
(* ================================================================== *)

Import CounterFacts SortFacts.

Lemma sum_nat_perm (l1 l2 : list nat) : Permutation l1 l2 -> sum_nat l1 = sum_nat l2.
Proof.
  induction 1; simpl; try lia.
Qed.

Lemma sum_nat_in (c : nat) (l : list nat) : In c l -> (c <= sum_nat l)%nat.
Proof.
  induction l as [| x l IH]; simpl; intros H; [destruct H |].
  destruct H as [-> | H]; [lia | specialize (IH H); lia].
Qed.

(** Rounded shares of a whole: each is within one of the exact share, so
    [n] of them add up to within [n - 1] of 100. *)
Lemma pct_sum_bound (counts : list nat) (total : nat) :
  counts <> [] -> sum_nat counts = total -> (0 < total)%nat ->
  sums_to_100 (map (fun c => pct_of c total) counts).
Proof.
  intros Hne Hsum Hpos. unfold sums_to_100. rewrite length_map.
  assert (Hall : forall c, In c counts -> (c <= total)%nat).
  { intros c Hc. rewrite <- Hsum. apply sum_nat_in. exact Hc. }
  assert (Hacc : Z.abs (sum_Z (map (fun c => pct_of c total) counts) * Z.of_nat total
                        - 100 * Z.of_nat (sum_nat counts))
                 <= Z.of_nat (List.length counts) * (Z.of_nat total - 1)).
  { clear Hne Hsum. induction counts as [| c counts IH]; [simpl; lia |].
    cbn [map sum_Z sum_nat fold_right List.length].
    fold (sum_Z (map (fun c => pct_of c total) counts)). fold (sum_nat counts).
    pose proof (pct_of_bound c total Hpos (Hall c (or_introl eq_refl))) as Hc.
    assert (IH' := IH (fun x Hx => Hall x (or_intror Hx))).
    rewrite Nat2Z.inj_succ, Nat2Z.inj_add. lia. }
  rewrite Hsum in Hacc.
  destruct counts as [| c counts]; [congruence |].
  set (n := Z.of_nat (List.length (c :: counts))) in *.
  assert (Hn : 1 <= n) by (unfold n; simpl List.length; lia).
  set (S := sum_Z (map (fun c0 => pct_of c0 total) (c :: counts))) in *.
  nia.
Qed.

Lemma filter_map_swap {A B : Type} (p : B -> bool) (f : A -> B) (l : list A) :
  filter p (map f l) = map f (filter (fun x => p (f x)) l).
Proof.
  induction l as [| x l IH]; simpl; [reflexivity |].
  destruct (p (f x)); simpl; rewrite IH; reflexivity.
Qed.

Lemma StronglySorted_map_mono {A B : Type} (R : A -> A -> Prop) (R' : B -> B -> Prop)
      (f : A -> B) (l : list A) :
  (forall a b, R a b -> R' (f a) (f b)) ->
  StronglySorted R l -> StronglySorted R' (map f l).
Proof.
  intros Himp. induction 1 as [| x l Hs IH Hall]; simpl; constructor.
  - exact IH.
  - rewrite Forall_forall in *. intros y Hy.
    apply in_map_iff in Hy. destruct Hy as [z [<- Hz]]. apply Himp, Hall. exact Hz.
Qed.

Lemma firstn_In {A : Type} (n : nat) (l : list A) (x : A) :
  In x (firstn n l) -> In x l.
Proof.
  revert l. induction n as [| n IH]; intros [| y l]; simpl; try tauto.
  intros [-> | H]; [left; reflexivity | right; apply IH; exact H].
Qed.

Lemma StronglySorted_firstn {A : Type} (R : A -> A -> Prop) (n : nat) (l : list A) :
  StronglySorted R l -> StronglySorted R (firstn n l).
Proof.
  intros Hs. revert n. induction Hs as [| x l Hs IH Hx]; intros n.
  - rewrite firstn_nil. constructor.
  - destruct n; simpl; constructor; [apply IH |].
    rewrite Forall_forall in *. intros y Hy. apply Hx.
    eapply firstn_In. exact Hy.
Qed.

Lemma of_nat_eqb (a b : nat) : (Z.of_nat a =? Z.of_nat b) = (a =? b)%nat.
Proof.
  destruct (Z.eqb_spec (Z.of_nat a) (Z.of_nat b)), (Nat.eqb_spec a b); try reflexivity; lia.
Qed.

Lemma fold_incr_tally_id {K : Type} (eqb : K -> K -> bool)
      (eqb_spec : forall x y, reflect (x = y) (eqb x y)) (s : list K) :
  fold_left (fun c k => Counter.incr eqb k c) s [] = tally eqb s.
Proof.
  rewrite <- (map_id s) at 2.
  apply (fold_incr_tally eqb eqb_spec (fun k => k)).
Qed.

(** ** Negotiation depth computes the grouped shares *)
Lemma negotiation_depth_of_spec (booked : list Call.t) :
  negotiation_depth_of booked = Ok (depth_buckets booked).
Proof.
  destruct booked as [| c booked]; [reflexivity |].
  unfold negotiation_depth_of, depth_buckets.
  set (l := c :: booked).
  rewrite (fold_incr_tally Z.eqb Z.eqb_spec depth_key l).
  rewrite (total_tally Z.eqb Z.eqb_spec), (keys_tally Z.eqb), length_map.
  apply for_each_map. intros k _.
  rewrite (get_tally Z.eqb Z.eqb_spec).
  rewrite percent_ok by (unfold l; simpl; lia).
  reflexivity.
Qed.

(** ** Carrier objections rank the labels met *)
Lemma fold_count_failed (failed : list Call.t) (c : Counter.t string) :
  fold_left count_failed failed c =
  fold_left (fun c k => Counter.incr String.eqb k c)
            (flat_map (fun c => failed_label (Call.outcome c)) failed) c.
Proof.
  revert c. induction failed as [| x failed IH]; intros c; [reflexivity |].
  cbn [fold_left flat_map]. rewrite fold_left_app, IH. f_equal.
  unfold count_failed, failed_label.
  destruct (String.eqb (Call.outcome x) "negotiation_failed"); [reflexivity |].
  destruct (String.eqb (Call.outcome x) "dropped_call"); reflexivity.
Qed.

Lemma fold_count_no_loads (all_calls : list CallRow.t) (c : Counter.t string) :
  fold_left count_no_loads all_calls c =
  fold_left (fun c k => Counter.incr String.eqb k c)
            (flat_map (fun r => no_loads_label (Call.outcome (CallRow.call r))) all_calls) c.
Proof.
  revert c. induction all_calls as [| x all_calls IH]; intros c; [reflexivity |].
  cbn [fold_left flat_map]. rewrite fold_left_app, IH. f_equal.
  unfold count_no_loads, no_loads_label.
  destruct (String.eqb (Call.outcome (CallRow.call x)) "no_loads_available"); reflexivity.
Qed.

Lemma carrier_objections_of_spec (failed : list Call.t) (all_calls : list CallRow.t) :
  carrier_objections_of failed all_calls =
  Ok (rank_objections (objection_labels failed all_calls)).
Proof.
  unfold carrier_objections_of, rank_objections.
  rewrite fold_count_no_loads, fold_count_failed, <- fold_left_app.
  fold (objection_labels failed all_calls).
  set (labels := objection_labels failed all_calls).
  rewrite (fold_incr_tally_id String.eqb String.eqb_spec).
  destruct (tally String.eqb labels) as [| kv t] eqn:Ht; [reflexivity |].
  rewrite <- Ht.
  assert (Hne : labels <> []).
  { intros H. apply (tally_nil_iff String.eqb) in H. congruence. }
  rewrite (total_tally String.eqb String.eqb_spec).
  apply for_each_map. intros rc _.
  rewrite percent_ok; [reflexivity |].
  destruct labels; [congruence | simpl; lia].
Qed.

(** ** Equipment demand / supply never divides by zero *)
Lemma or_1_pos (n : nat) : (0 < or_1 n)%nat.
Proof. unfold or_1. destruct (Nat.eqb_spec n 0); lia. Qed.

Lemma equipment_demand_supply_of_spec (demand_raw supply_raw : Counter.t string) :
  equipment_demand_supply_of demand_raw supply_raw =
  Ok (sorted_by_key EquipmentDemandSupply.demand true
        (map (fun eq =>
                EquipmentDemandSupply.mk
                  (_format_equip eq)
                  (pct_of (Counter.get String.eqb demand_raw eq)
                          (or_1 (Counter.total demand_raw)))
                  (pct_of (Counter.get String.eqb supply_raw eq)
                          (or_1 (Counter.total supply_raw))))
             (sorted_strs (nodup string_dec
                                 (Counter.keys demand_raw ++ Counter.keys supply_raw))))).
Proof.
  unfold equipment_demand_supply_of.
  set (all_types := sorted_strs _).
  destruct all_types as [| t ts] eqn:Ha; [reflexivity |].
  rewrite <- Ha.
  erewrite for_each_map; [reflexivity |].
  intros eq _. cbv beta.
  rewrite !percent_ok by apply or_1_pos.
  reflexivity.
Qed.

(* ================================================================== *)
(** * Empty inputs *)
(* ================================================================== *)

Lemma filter_none {A : Type} (f : A -> bool) (l : list A) :
  Forall (fun x => f x = false) l -> filter f l = [].
Proof.
  induction 1 as [| x l Hx _ IH]; simpl; [reflexivity |].
  rewrite Hx. exact IH.
Qed.

Lemma flat_map_none {A B : Type} (f : A -> list B) (l : list A) :
  Forall (fun x => f x = []) l -> flat_map f l = [].
Proof.
  induction 1 as [| x l Hx _ IH]; simpl; [reflexivity |].
  rewrite Hx, IH. reflexivity.
Qed.

Section EmptyWindow.
Variable db : Db.
Variable now : Z.
Hypothesis no_recent_call :
  Forall (fun c => last_30_days now (Call.created_at c) = false) (calls db).
Hypothesis no_available_load :
  Forall (fun l => Load.status l <> "available") (loads db).

Lemma no_booked_calls : get_booked_calls_last_30_days db now = [].
Proof.
  apply filter_none. eapply Forall_impl; [| exact no_recent_call].
  intros c Hc. cbv beta. rewrite Hc. apply andb_false_r.
Qed.

Lemma no_failed_calls : get_failed_calls_last_30_days db now = [].
Proof.
  apply filter_none. eapply Forall_impl; [| exact no_recent_call].
  intros c Hc. cbv beta. rewrite Hc. apply andb_false_r.
Qed.

Lemma no_calls : get_all_calls_last_30_days db now = [].
Proof.
  unfold get_all_calls_last_30_days.
  rewrite filter_none by exact no_recent_call. reflexivity.
Qed.

Lemma no_demand : get_available_loads_by_equipment db = [].
Proof.
  unfold get_available_loads_by_equipment.
  rewrite filter_none; [reflexivity |].
  eapply Forall_impl; [| exact no_available_load].
  intros l Hl. cbv beta. destruct (String.eqb_spec (Load.status l) "available"); congruence.
Qed.

Lemma no_supply : get_recent_calls_by_equipment db now = [].
Proof.
  unfold get_recent_calls_by_equipment.
  rewrite flat_map_none; [reflexivity |].
  eapply Forall_impl; [| exact no_recent_call].
  intros c Hc. cbv beta. rewrite Hc.
  destruct (Call.equipment_type c); reflexivity.
Qed.
End EmptyWindow.

(** C3: on an empty row set each of the four aggregations returns the
    empty list without raising, and with no call in the 30-day window
    and no available load [get_analytics] returns the snapshot of four
    empty lists. *)
Theorem C3_empty_input_empty_lists (db : Db) (now : Z)
  (no_recent_call :
     Forall (fun c => last_30_days now (Call.created_at c) = false) (calls db))
  (no_available_load :
     Forall (fun l => Load.status l <> "available") (loads db)) :
  negotiation_depth_of [] = Ok [] /\
  carrier_objections_of [] [] = Ok [] /\
  top_lanes_of [] = Ok [] /\
  equipment_demand_supply_of [] [] = Ok [] /\
  get_analytics db now = Ok (AnalyticsResponse.mk [] [] [] []).
Proof.
  repeat split; try reflexivity.
  unfold get_analytics, _negotiation_depth, _carrier_objections, _top_lanes,
    _equipment_demand_supply.
  rewrite no_booked_calls, no_failed_calls, no_calls, no_demand, no_supply
    by assumption.
  reflexivity.
Qed.

Lemma C3_witness :
  get_analytics (mkDb [old_call] [booked_load] []) 5000000
  = Ok (AnalyticsResponse.mk [] [] [] []).
Proof.
  apply (C3_empty_input_empty_lists (mkDb [old_call] [booked_load] []) 5000000).
  - repeat constructor.
  - repeat constructor. simpl. discriminate.
Defined.

(* ================================================================== *)
(** * Sums of percentages *)
(* ================================================================== *)

Lemma sum_Z_perm (l1 l2 : list Z) : Permutation l1 l2 -> sum_Z l1 = sum_Z l2.
Proof. induction 1; simpl; lia. Qed.

Lemma sums_to_100_perm (l1 l2 : list Z) :
  Permutation l1 l2 -> sums_to_100 l1 -> sums_to_100 l2.
Proof.
  intros Hp. unfold sums_to_100.
  rewrite (sum_Z_perm _ _ Hp), (Permutation_length Hp). tauto.
Qed.

Lemma values_tally {K : Type} (eqb : K -> K -> bool) (s : list K) :
  Counter.values (tally eqb s) = map (fun k => occurrences eqb k s) (first_seen eqb s).
Proof. unfold Counter.values, tally. rewrite map_map. reflexivity. Qed.

Lemma negotiation_depth_sums (booked : list Call.t) :
  booked <> [] ->
  sums_to_100 (map NegotiationDepthBucket.pct (depth_buckets booked)).
Proof.
  intros Hne. unfold depth_buckets. rewrite map_map. cbn [NegotiationDepthBucket.pct].
  set (depths := map depth_key booked).
  rewrite <- (map_map (fun k => occurrences Z.eqb k depths)
                      (fun c => pct_of c (List.length booked))).
  apply pct_sum_bound.
  - intros H. apply map_eq_nil in H.
    assert (Hp := sorted_by_key_perm (fun z : Z => z) false (first_seen Z.eqb depths)).
    unfold sorted_ints in H. rewrite H in Hp. apply Permutation_nil in Hp.
    destruct booked as [| c booked]; [congruence | discriminate Hp].
  - rewrite (sum_nat_perm _ (map (fun k => occurrences Z.eqb k depths)
                                 (first_seen Z.eqb depths))).
    + rewrite <- values_tally.
      change (sum_nat (Counter.values (tally Z.eqb depths)))
        with (Counter.total (tally Z.eqb depths)).
      rewrite (total_tally Z.eqb Z.eqb_spec). apply length_map.
    + apply Permutation_map. apply sorted_by_key_perm.
  - destruct booked; [congruence | simpl; lia].
Qed.

Lemma carrier_objections_sums (labels : list string) :
  labels <> [] ->
  sums_to_100 (map CarrierObjection.pct (rank_objections labels)).
Proof.
  intros Hne. unfold rank_objections. rewrite map_map. cbn [CarrierObjection.pct].
  rewrite <- (map_map snd (fun c => pct_of c (List.length labels))).
  apply pct_sum_bound.
  - intros H. apply map_eq_nil in H.
    assert (Hp := sorted_by_key_perm (fun kv : string * nat => Z.of_nat (snd kv)) true
                                     (tally String.eqb labels)).
    rewrite H in Hp. apply Permutation_nil in Hp.
    apply (tally_nil_iff String.eqb) in Hp. congruence.
  - rewrite (sum_nat_perm _ (map snd (tally String.eqb labels))).
    + apply (total_tally String.eqb String.eqb_spec).
    + apply Permutation_map. apply sorted_by_key_perm.
  - destruct labels; [congruence | simpl; lia].
Qed.

Lemma or_1_id (n : nat) : (0 < n)%nat -> or_1 n = n.
Proof. intros H. unfold or_1. destruct (Nat.eqb_spec n 0); [lia | reflexivity]. Qed.

(** One percentage column of the equipment balance, read from a dict
    whose total is not zero, over any duplicate-free list of types that
    covers the dict's keys. *)
Lemma equipment_column_sums (raw : Counter.t string) (types : list string) :
  NoDup (Counter.keys raw) -> NoDup types ->
  (forall k, In k (Counter.keys raw) -> In k types) ->
  (0 < Counter.total raw)%nat ->
  sums_to_100 (map (fun eq => pct_of (Counter.get String.eqb raw eq)
                                     (or_1 (Counter.total raw))) types).
Proof.
  intros Hraw Htypes Hcov Hpos. rewrite or_1_id by exact Hpos.
  rewrite <- (map_map (Counter.get String.eqb raw)
                      (fun c => pct_of c (Counter.total raw))).
  assert (Hsum := sum_get_cover String.eqb String.eqb_spec raw types Hraw Htypes Hcov).
  apply pct_sum_bound; [| exact Hsum | exact Hpos].
  intros H. rewrite H in Hsum. simpl in Hsum. lia.
Qed.

Lemma all_types_NoDup (d s : Counter.t string) :
  NoDup (sorted_strs (nodup string_dec (Counter.keys d ++ Counter.keys s))).
Proof.
  eapply Permutation_NoDup.
  - apply Permutation_sym. apply stable_sort_perm.
  - apply NoDup_nodup.
Qed.

Lemma all_types_In (d s : Counter.t string) (k : string) :
  In k (sorted_strs (nodup string_dec (Counter.keys d ++ Counter.keys s)))
  <-> In k (Counter.keys d) \/ In k (Counter.keys s).
Proof.
  rewrite <- in_app_iff, <- (nodup_In string_dec (Counter.keys d ++ Counter.keys s)).
  unfold sorted_strs.
  split; apply Permutation_in.
  - apply stable_sort_perm.
  - apply Permutation_sym, stable_sort_perm.
Qed.

(** The dicts the repository returns have no duplicate key. *)
Lemma count_by_keys_NoDup (types : list string) : NoDup (Counter.keys (count_by types)).
Proof.
  unfold count_by. rewrite (fold_incr_tally_id String.eqb String.eqb_spec).
  rewrite (keys_tally String.eqb). apply NoDup_first_seen. exact String.eqb_spec.
Qed.

(** C4, as amended: the percentages of the negotiation-depth list for a
    non-empty input, of the carrier-objections list once a call with a
    recognised outcome exists, and of each column of the equipment list
    (built from two dicts) whose own total is not zero, sum to 100
    within (number of entries - 1).  Each list and each column carries
    its own condition only: a column is bounded whatever the total of
    the other column is. *)
Theorem C4_percentages_sum_to_100
  (booked : list Call.t) (failed : list Call.t) (all_calls : list CallRow.t)
  (demand_raw supply_raw : Counter.t string) :
  let depth_rows := depth_buckets booked in
  let objection_rows := rank_objections (objection_labels failed all_calls) in
  let balance_rows :=
    sorted_by_key EquipmentDemandSupply.demand true
      (map (balance_entry demand_raw supply_raw)
           (sorted_strs (nodup string_dec
                               (Counter.keys demand_raw ++ Counter.keys supply_raw)))) in
  (negotiation_depth_of booked = Ok depth_rows /\
   (booked <> [] ->
    sums_to_100 (map NegotiationDepthBucket.pct depth_rows))) /\
  (carrier_objections_of failed all_calls = Ok objection_rows /\
   (objection_labels failed all_calls <> [] ->
    sums_to_100 (map CarrierObjection.pct objection_rows))) /\
  (equipment_demand_supply_of demand_raw supply_raw = Ok balance_rows /\
   (NoDup (Counter.keys demand_raw) -> (0 < Counter.total demand_raw)%nat ->
    sums_to_100 (map EquipmentDemandSupply.demand balance_rows)) /\
   (NoDup (Counter.keys supply_raw) -> (0 < Counter.total supply_raw)%nat ->
    sums_to_100 (map EquipmentDemandSupply.supply balance_rows))).
Proof.
  intros depth_rows objection_rows balance_rows.
  split; [| split].
  - split; [apply negotiation_depth_of_spec |].
    intros some_booked. apply negotiation_depth_sums. exact some_booked.
  - split; [apply carrier_objections_of_spec |].
    intros some_objection. apply carrier_objections_sums. exact some_objection.
  - split; [apply equipment_demand_supply_of_spec |].
    unfold balance_rows.
    set (types := sorted_strs _).
    split.
    + intros demand_keys some_demand. eapply sums_to_100_perm.
      * apply Permutation_map, Permutation_sym, sorted_by_key_perm.
      * rewrite map_map. cbn [balance_entry EquipmentDemandSupply.demand].
        apply equipment_column_sums; try assumption.
        -- apply all_types_NoDup.
        -- intros k Hk. apply all_types_In. left. exact Hk.
    + intros supply_keys some_supply. eapply sums_to_100_perm.
      * apply Permutation_map, Permutation_sym, sorted_by_key_perm.
      * rewrite map_map. cbn [balance_entry EquipmentDemandSupply.supply].
        apply equipment_column_sums; try assumption.
        -- apply all_types_NoDup.
        -- intros k Hk. apply all_types_In. right. exact Hk.
Qed.

(** The four conditions met on concrete inputs; the last input is the
    database of the counterexample below, where the demand total is zero
    and the supply column is bounded all the same. *)
Lemma C4_witness :
  (negotiation_depth_of [booked_call "c-1" (Some 1); booked_call "c-2" None;
                         booked_call "c-3" (Some 1)]
   = Ok [ NegotiationDepthBucket.mk "1st offer" 33; NegotiationDepthBucket.mk "1 round" 67 ] /\
   sums_to_100 [33; 67]) /\
  (carrier_objections_of [failed_call "c-4" "dropped_call"] []
   = Ok [ CarrierObjection.mk "Call dropped" 1 100 ] /\
   sums_to_100 [100]) /\
  (equipment_demand_supply_of [("reefer", 1%nat); ("flatbed", 2%nat)] [("reefer", 5%nat)]
   = Ok [ EquipmentDemandSupply.mk "Flatbed" 67 0; EquipmentDemandSupply.mk "Reefer" 33 100 ] /\
   sums_to_100 [67; 33] /\
   sums_to_100 [0; 100]) /\
  (_equipment_demand_supply (mkDb [reefer_call] [] []) 100
   = Ok [ EquipmentDemandSupply.mk "Reefer" 0 100 ] /\
   sums_to_100 [100]).
Proof.
  destruct (C4_percentages_sum_to_100
              [booked_call "c-1" (Some 1); booked_call "c-2" None; booked_call "c-3" (Some 1)]
              [failed_call "c-4" "dropped_call"] []
              [("reefer", 1%nat); ("flatbed", 2%nat)] [("reefer", 5%nat)])
    as [[Hdepth Hdepth_sum] [[Hobj Hobj_sum] [Hbal [Hdemand Hsupply]]]].
  destruct (C4_percentages_sum_to_100
              [] [] []
              (get_available_loads_by_equipment (mkDb [reefer_call] [] []))
              (get_recent_calls_by_equipment (mkDb [reefer_call] [] []) 100))
    as [_ [_ [Hzero [_ Hzero_supply]]]].
  split; [| split; [| split]].
  - split; [exact Hdepth |]. apply Hdepth_sum. discriminate.
  - split; [exact Hobj |]. apply Hobj_sum. vm_compute. discriminate.
  - split; [exact Hbal |]. split.
    + apply Hdemand; [| vm_compute; lia].
      simpl. repeat constructor; simpl; intuition discriminate.
    + apply Hsupply; [| vm_compute; lia].
      simpl. repeat constructor; simpl; intuition discriminate.
  - split; [exact Hzero |]. apply Hzero_supply; [| vm_compute; lia].
    vm_compute. repeat constructor. simpl. tauto.
Defined.

(** The claim as stated fails for the equipment balance: with calls for
    reefers in the window and no available load the list is not empty
    and its demand percentages sum to 0. *)
Lemma C4_counterexample :
  exists rows,
    _equipment_demand_supply (mkDb [reefer_call] [] []) 100 = Ok rows /\
    rows <> [] /\
    ~ sums_to_100 (map EquipmentDemandSupply.demand rows).
Proof.
  exists [EquipmentDemandSupply.mk "Reefer" 0 100].
  split; [vm_compute; reflexivity |].
  split; [discriminate |].
  unfold sums_to_100. simpl. lia.
Qed.

(* ================================================================== *)
(** * Carrier objections *)
(* ================================================================== *)

Section RankObjections.
Variable labels : list string.

Lemma rank_objections_counts :
  Permutation (map (fun r => (CarrierObjection.reason r, CarrierObjection.count r))
                   (rank_objections labels))
              (tally String.eqb labels).
Proof.
  unfold rank_objections. rewrite map_map. cbn [CarrierObjection.reason CarrierObjection.count].
  rewrite (map_ext _ (fun kv => kv)) by (intros [k n]; reflexivity).
  rewrite map_id. apply sorted_by_key_perm.
Qed.

Lemma rank_objections_descending :
  StronglySorted (fun a b => (CarrierObjection.count b <= CarrierObjection.count a)%nat)
                 (rank_objections labels).
Proof.
  unfold rank_objections.
  eapply StronglySorted_map_mono;
    [| apply (sorted_by_key_sorted (fun kv : string * nat => Z.of_nat (snd kv)) true)].
  intros a b H. unfold in_order in H. cbn [CarrierObjection.count]. lia.
Qed.

Lemma rank_objections_ties (n : nat) :
  map CarrierObjection.reason
      (filter (fun r => (CarrierObjection.count r =? n)%nat) (rank_objections labels))
  = filter (fun l => (occurrences String.eqb l labels =? n)%nat)
           (first_seen String.eqb labels).
Proof.
  unfold rank_objections.
  rewrite filter_map_swap, map_map. cbn [CarrierObjection.reason CarrierObjection.count].
  rewrite (filter_ext _ (fun kv : string * nat => Z.of_nat (snd kv) =? Z.of_nat n))
    by (intros kv; symmetry; apply of_nat_eqb).
  rewrite (sorted_by_key_stable (fun kv : string * nat => Z.of_nat (snd kv)) true).
  unfold tally. rewrite filter_map_swap, map_map. cbn [fst snd].
  rewrite map_id. apply filter_ext. intros l. apply of_nat_eqb.
Qed.

Lemma rank_objections_pct :
  Forall (fun r => CarrierObjection.pct r
                   = pct_of (CarrierObjection.count r) (List.length labels))
         (rank_objections labels).
Proof.
  unfold rank_objections. rewrite Forall_forall. intros r Hr.
  apply in_map_iff in Hr. destruct Hr as [kv [<- _]]. reflexivity.
Qed.

Lemma rank_objections_total :
  sum_nat (map CarrierObjection.count (rank_objections labels)) = List.length labels.
Proof.
  unfold rank_objections. rewrite map_map. cbn [CarrierObjection.count].
  rewrite (sum_nat_perm _ (map snd (tally String.eqb labels))).
  - apply (total_tally String.eqb String.eqb_spec).
  - apply Permutation_map. apply sorted_by_key_perm.
Qed.
End RankObjections.

Lemma flat_map_filter {A B : Type} (f : A -> list B) (p : A -> bool) (l : list A) :
  (forall x, p x = false -> f x = []) -> flat_map f l = flat_map f (filter p l).
Proof.
  intros H. induction l as [| x l IH]; [reflexivity |].
  cbn [flat_map filter]. destruct (p x) eqn:Hp.
  - cbn [flat_map]. rewrite IH. reflexivity.
  - rewrite (H x Hp). exact IH.
Qed.

Section ObjectionCounts.
Variable failed : list Call.t.
Variable all_calls : list CallRow.t.

Lemma failed_labels_occurrences (l : string) :
  occurrences String.eqb l (flat_map (fun c => failed_label (Call.outcome c)) failed)
  = if String.eqb l "Rate too low" then calls_with "negotiation_failed" failed
    else if String.eqb l "Call dropped" then calls_with "dropped_call" failed
    else 0%nat.
Proof.
  unfold calls_with.
  induction failed as [| c cs IH].
  - simpl. destruct (String.eqb l "Rate too low"), (String.eqb l "Call dropped"); reflexivity.
  - cbn [flat_map filter]. rewrite (occurrences_app String.eqb), IH.
    unfold failed_label, occurrences.
    destruct (String.eqb_spec (Call.outcome c) "negotiation_failed") as [He | _].
    + rewrite He. simpl.
      destruct (String.eqb_spec l "Rate too low") as [-> | _]; simpl; [reflexivity |].
      destruct (String.eqb l "Call dropped"); reflexivity.
    + destruct (String.eqb (Call.outcome c) "dropped_call").
      * simpl. destruct (String.eqb_spec l "Rate too low") as [-> | _]; [reflexivity |].
        destruct (String.eqb_spec l "Call dropped") as [-> | _]; reflexivity.
      * simpl. reflexivity.
Qed.

Lemma no_loads_labels_occurrences (l : string) :
  occurrences String.eqb l
              (flat_map (fun r => no_loads_label (Call.outcome (CallRow.call r))) all_calls)
  = if String.eqb l "No matching loads" then rows_with "no_loads_available" all_calls
    else 0%nat.
Proof.
  unfold rows_with, calls_with.
  induction all_calls as [| r rs IH].
  - simpl. destruct (String.eqb l "No matching loads"); reflexivity.
  - cbn [flat_map filter map]. rewrite (occurrences_app String.eqb), IH.
    unfold no_loads_label, occurrences.
    destruct (String.eqb (Call.outcome (CallRow.call r)) "no_loads_available").
    + simpl. destruct (String.eqb_spec l "No matching loads") as [-> | _]; reflexivity.
    + simpl. reflexivity.
Qed.

Lemma objection_labels_occurrences (l : string) :
  occurrences String.eqb l (objection_labels failed all_calls)
  = if String.eqb l "Rate too low" then calls_with "negotiation_failed" failed
    else if String.eqb l "Call dropped" then calls_with "dropped_call" failed
    else if String.eqb l "No matching loads" then rows_with "no_loads_available" all_calls
    else 0%nat.
Proof.
  unfold objection_labels.
  rewrite (occurrences_app String.eqb), failed_labels_occurrences,
    no_loads_labels_occurrences.
  destruct (String.eqb_spec l "Rate too low") as [-> | _]; [simpl; lia |].
  destruct (String.eqb_spec l "Call dropped") as [-> | _]; [simpl; lia |].
  reflexivity.
Qed.

Lemma objection_labels_length :
  List.length (objection_labels failed all_calls)
  = (calls_with "negotiation_failed" failed + calls_with "dropped_call" failed
     + rows_with "no_loads_available" all_calls)%nat.
Proof.
  unfold objection_labels, rows_with, calls_with. rewrite length_app.
  assert (H1 : List.length (flat_map (fun c => failed_label (Call.outcome c)) failed)
               = (List.length (filter (fun c => String.eqb (Call.outcome c) "negotiation_failed") failed)
                  + List.length (filter (fun c => String.eqb (Call.outcome c) "dropped_call") failed))%nat).
  { induction failed as [| c cs IH]; [reflexivity |].
    cbn [flat_map filter]. rewrite length_app, IH. unfold failed_label.
    destruct (String.eqb_spec (Call.outcome c) "negotiation_failed") as [Hnf | Hnf];
      [rewrite Hnf; simpl; lia |].
    destruct (String.eqb (Call.outcome c) "dropped_call"); simpl; lia. }
  assert (H2 : List.length (flat_map (fun r => no_loads_label (Call.outcome (CallRow.call r))) all_calls)
               = List.length (filter (fun c => String.eqb (Call.outcome c) "no_loads_available")
                                     (map CallRow.call all_calls))).
  { induction all_calls as [| r rs IH]; [reflexivity |].
    cbn [flat_map filter map]. rewrite length_app, IH. unfold no_loads_label.
    destruct (String.eqb (Call.outcome (CallRow.call r)) "no_loads_available");
      simpl; lia. }
  rewrite H1, H2. reflexivity.
Qed.

Lemma objection_labels_filter :
  objection_labels failed all_calls
  = objection_labels
      (filter (fun c => String.eqb (Call.outcome c) "negotiation_failed"
                        || String.eqb (Call.outcome c) "dropped_call") failed)
      (filter (fun r => String.eqb (Call.outcome (CallRow.call r)) "no_loads_available")
              all_calls).
Proof.
  unfold objection_labels. f_equal; apply flat_map_filter.
  - intros c Hc. apply orb_false_elim in Hc. destruct Hc as [Hnf Hdc].
    unfold failed_label. rewrite Hnf, Hdc. reflexivity.
  - intros r Hr. unfold no_loads_label. rewrite Hr. reflexivity.
Qed.
End ObjectionCounts.

(** The labels of two failed negotiations, one dropped call and one
    call without matching loads, whatever the order of the calls. *)
Lemma failed_labels_known (failed : list Call.t) :
  Forall (fun l => l = "Rate too low" \/ l = "Call dropped")
         (flat_map (fun c => failed_label (Call.outcome c)) failed).
Proof.
  induction failed as [| c cs IH]; [constructor |].
  cbn [flat_map]. apply Forall_app. split; [| exact IH].
  unfold failed_label.
  destruct (String.eqb (Call.outcome c) "negotiation_failed");
    [constructor; [left; reflexivity | constructor] |].
  destruct (String.eqb (Call.outcome c) "dropped_call");
    [constructor; [right; reflexivity | constructor] | constructor].
Qed.

Lemma no_loads_labels_known (all_calls : list CallRow.t) :
  flat_map (fun r => no_loads_label (Call.outcome (CallRow.call r))) all_calls
  = repeat "No matching loads" (rows_with "no_loads_available" all_calls).
Proof.
  unfold rows_with, calls_with.
  induction all_calls as [| r rs IH]; [reflexivity |].
  cbn [flat_map map filter]. rewrite IH. unfold no_loads_label.
  destruct (String.eqb (Call.outcome (CallRow.call r)) "no_loads_available"); reflexivity.
Qed.

Lemma objections_two_one_one (failed : list Call.t) (all_calls : list CallRow.t) :
  calls_with "negotiation_failed" failed = 2%nat ->
  calls_with "dropped_call" failed = 1%nat ->
  rows_with "no_loads_available" all_calls = 1%nat ->
  rank_objections (objection_labels failed all_calls)
  = [ CarrierObjection.mk "Rate too low" 2 50;
      CarrierObjection.mk "Call dropped" 1 25;
      CarrierObjection.mk "No matching loads" 1 25 ].
Proof.
  intros Hnf Hdc Hnl. unfold objection_labels.
  rewrite no_loads_labels_known, Hnl.
  pose proof (failed_labels_known failed) as Hknown.
  pose proof (failed_labels_occurrences failed "Rate too low") as H1.
  pose proof (failed_labels_occurrences failed "Call dropped") as H2.
  cbn [String.eqb Ascii.eqb Bool.eqb] in H1, H2. rewrite Hnf in H1. rewrite Hdc in H2.
  set (ls := flat_map (fun c => failed_label (Call.outcome c)) failed) in *.
  clearbody ls. unfold occurrences in H1, H2.
  destruct ls as [| a [| b [| c [| d ls]]]];
    repeat match goal with
           | H : Forall _ (_ :: _) |- _ => inversion H; clear H; subst
           | H : _ \/ _ |- _ => destruct H; subst
           end;
    try discriminate;
    try (vm_compute; reflexivity).
  all: exfalso; cbn [filter String.eqb Ascii.eqb Bool.eqb List.length] in H1, H2.
  all: simpl in H1, H2; lia.
Qed.

(** C5: the carrier-objections aggregation maps the three outcomes to
    their labels, counts the occurrences per label, and emits the labels
    by descending count, equal counts in the order the labels were first
    met, each with its rounded share of the total; two failed
    negotiations, one dropped call and one call without matching loads
    give the three expected entries. *)
Theorem C5_carrier_objections_ranking
  (failed : list Call.t) (all_calls : list CallRow.t)
  (failed' : list Call.t) (all_calls' : list CallRow.t)
  (two_failed_negotiations : calls_with "negotiation_failed" failed' = 2%nat)
  (one_dropped_call : calls_with "dropped_call" failed' = 1%nat)
  (one_without_loads : rows_with "no_loads_available" all_calls' = 1%nat) :
  let labels := objection_labels failed all_calls in
  let rows := rank_objections labels in
  carrier_objections_of failed all_calls = Ok rows /\
  failed_label "negotiation_failed" = ["Rate too low"] /\
  failed_label "dropped_call" = ["Call dropped"] /\
  no_loads_label "no_loads_available" = ["No matching loads"] /\
  Permutation (map (fun r => (CarrierObjection.reason r, CarrierObjection.count r)) rows)
              (tally String.eqb labels) /\
  StronglySorted (fun a b => (CarrierObjection.count b <= CarrierObjection.count a)%nat) rows /\
  (forall n,
      map CarrierObjection.reason
          (filter (fun r => (CarrierObjection.count r =? n)%nat) rows)
      = filter (fun l => (occurrences String.eqb l labels =? n)%nat)
               (first_seen String.eqb labels)) /\
  sum_nat (map CarrierObjection.count rows) = List.length labels /\
  Forall (fun r => CarrierObjection.pct r
                   = pct_of (CarrierObjection.count r) (List.length labels)) rows /\
  carrier_objections_of failed' all_calls'
  = Ok [ CarrierObjection.mk "Rate too low" 2 50;
         CarrierObjection.mk "Call dropped" 1 25;
         CarrierObjection.mk "No matching loads" 1 25 ].
Proof.
  intros labels rows.
  split; [apply carrier_objections_of_spec |].
  do 3 (split; [reflexivity |]).
  split; [apply rank_objections_counts |].
  split; [apply rank_objections_descending |].
  split; [apply rank_objections_ties |].
  split; [apply rank_objections_total |].
  split; [apply rank_objections_pct |].
  rewrite carrier_objections_of_spec. f_equal.
  apply objections_two_one_one; assumption.
Qed.

Lemma C5_witness :
  _carrier_objections objections_db 0
  = Ok [ CarrierObjection.mk "Rate too low" 2 50;
         CarrierObjection.mk "Call dropped" 1 25;
         CarrierObjection.mk "No matching loads" 1 25 ].
Proof.
  unfold _carrier_objections.
  apply (C5_carrier_objections_ranking
           [] [] (get_failed_calls_last_30_days objections_db 0)
           (get_all_calls_last_30_days objections_db 0));
    vm_compute; reflexivity.
Defined.

(** C10: in the carrier-objections aggregation a call of the
    failed/dropped input with any other outcome, and a call of the
    all-calls input other than [no_loads_available], contributes
    nothing: the output is that of the inputs filtered to the recognised
    outcomes, each count is the number of calls with the outcome of its
    label in its own input, and the denominator of every percentage is
    the sum of these three numbers. *)
Theorem C10_only_recognised_outcomes_count (failed : list Call.t) (all_calls : list CallRow.t) :
  let labels := objection_labels failed all_calls in
  let rate_too_low := calls_with "negotiation_failed" failed in
  let call_dropped := calls_with "dropped_call" failed in
  let no_matching_loads := rows_with "no_loads_available" all_calls in
  let total := (rate_too_low + call_dropped + no_matching_loads)%nat in
  carrier_objections_of failed all_calls
  = carrier_objections_of
      (filter (fun c => String.eqb (Call.outcome c) "negotiation_failed"
                        || String.eqb (Call.outcome c) "dropped_call") failed)
      (filter (fun r => String.eqb (Call.outcome (CallRow.call r)) "no_loads_available")
              all_calls) /\
  exists rows,
    carrier_objections_of failed all_calls = Ok rows /\
    sum_nat (map CarrierObjection.count rows) = total /\
    Forall (fun r =>
              (0 < CarrierObjection.count r)%nat /\
              (r = CarrierObjection.mk "Rate too low" rate_too_low (pct_of rate_too_low total) \/
               r = CarrierObjection.mk "Call dropped" call_dropped (pct_of call_dropped total) \/
               r = CarrierObjection.mk "No matching loads" no_matching_loads
                                       (pct_of no_matching_loads total)))
           rows.
Proof.
  intros labels rate_too_low call_dropped no_matching_loads total.
  split.
  - rewrite !carrier_objections_of_spec, <- objection_labels_filter. reflexivity.
  - exists (rank_objections labels).
    assert (Hlen : List.length labels = total) by apply objection_labels_length.
    split; [apply carrier_objections_of_spec |].
    split; [rewrite rank_objections_total; exact Hlen |].
    rewrite Forall_forall. intros r Hr.
    pose proof (rank_objections_pct labels) as Hpct.
    rewrite Forall_forall in Hpct. specialize (Hpct r Hr).
    assert (Hin : In (CarrierObjection.reason r, CarrierObjection.count r)
                     (tally String.eqb labels)).
    { apply (Permutation_in _ (rank_objections_counts labels)).
      apply (in_map (fun r => (CarrierObjection.reason r, CarrierObjection.count r))).
      exact Hr. }
    unfold tally in Hin. apply in_map_iff in Hin.
    destruct Hin as [l [Hl Hfs]].
    apply (proj1 (in_first_seen String.eqb String.eqb_spec l labels)) in Hfs.
    pose proof (occurrences_pos String.eqb String.eqb_spec l labels Hfs) as Hpos.
    injection Hl as Hreason Hcount.
    split; [rewrite <- Hcount; exact Hpos |].
    unfold labels in Hcount, Hpos. rewrite objection_labels_occurrences in Hcount, Hpos.
    rewrite Hlen in Hpct.
    destruct r as [reason count pct]. cbn in Hreason, Hcount, Hpct. subst reason.
    fold rate_too_low call_dropped no_matching_loads in Hcount, Hpos.
    destruct (String.eqb_spec l "Rate too low") as [-> | _];
      [left; rewrite Hpct, <- Hcount; reflexivity |].
    destruct (String.eqb_spec l "Call dropped") as [-> | _];
      [right; left; rewrite Hpct, <- Hcount; reflexivity |].
    destruct (String.eqb_spec l "No matching loads") as [-> | _];
      [right; right; rewrite Hpct, <- Hcount; reflexivity |].
    lia.
Qed.

(* ================================================================== *)
(** * Negotiation depth *)
(* ================================================================== *)

Lemma StronglySorted_strict (l : list Z) :
  StronglySorted Z.le l -> NoDup l -> StronglySorted Z.lt l.
Proof.
  induction 1 as [| x l Hs IH Hall]; intros Hnd; constructor.
  - apply IH. inversion Hnd; assumption.
  - inversion Hnd as [| ? ? Hx _]; subst.
    rewrite Forall_forall in *. intros y Hy.
    specialize (Hall y Hy).
    assert (x <> y) by (intros ->; contradiction).
    lia.
Qed.

Section DepthKeys.
Variable booked : list Call.t.

Lemma depth_keys_ascending :
  StronglySorted Z.lt (sorted_ints (first_seen Z.eqb (map depth_key booked))).
Proof.
  apply StronglySorted_strict.
  - apply (sorted_by_key_sorted (fun z : Z => z) false).
  - eapply Permutation_NoDup.
    + apply Permutation_sym. apply sorted_by_key_perm.
    + apply NoDup_first_seen. exact Z.eqb_spec.
Qed.

Lemma depth_keys_In (k : Z) :
  In k (sorted_ints (first_seen Z.eqb (map depth_key booked)))
  <-> exists c, In c booked /\ depth_key c = k.
Proof.
  transitivity (In k (map depth_key booked)).
  - transitivity (In k (first_seen Z.eqb (map depth_key booked)));
      [| apply (in_first_seen Z.eqb Z.eqb_spec)].
    unfold sorted_ints. split; apply Permutation_in.
    + apply sorted_by_key_perm.
    + apply Permutation_sym, sorted_by_key_perm.
  - rewrite in_map_iff. split; intros [c Hc]; exists c; tauto.
Qed.

Lemma depth_key_le_3 (c : Call.t) : depth_key c <= 3.
Proof. unfold depth_key. lia. Qed.

Lemma depth_label_fixed (k : Z) :
  0 <= k <= 3 -> In (k, depth_label k) _DEPTH_LABELS.
Proof.
  intros Hk.
  assert (k = 0 \/ k = 1 \/ k = 2 \/ k = 3) as [-> | [-> | [-> | ->]]] by lia;
    simpl; tauto.
Qed.
End DepthKeys.

Lemma depth_buckets_ext (l1 l2 : list Call.t) :
  map depth_key l1 = map depth_key l2 -> depth_buckets l1 = depth_buckets l2.
Proof.
  intros H. unfold depth_buckets. rewrite H.
  assert (Hlen : List.length l1 = List.length l2).
  { rewrite <- (length_map depth_key l1), H. apply length_map. }
  rewrite Hlen. reflexivity.
Qed.

(** C6: the negotiation-depth aggregation buckets each booked call by
    [min(negotiation_rounds, 3)], a missing value counting as 0; a call
    with three or more rounds (5, say) falls into the "3 rounds (max)"
    bucket and can replace a call with exactly 3 rounds without changing
    the output; the buckets come by strictly ascending depth, one per
    depth that occurs, labeled by the fixed table. *)
Theorem C6_negotiation_depth_buckets
  (booked before after : list Call.t) (many three : Call.t) (r : Z)
  (many_rounds : Call.negotiation_rounds many = Some r)
  (at_least_three : 3 <= r)
  (three_rounds : Call.negotiation_rounds three = Some 3)
  (rounds_non_negative :
     Forall (fun c => match Call.negotiation_rounds c with
                      | Some n => 0 <= n
                      | None => True
                      end) booked) :
  let keys := sorted_ints (first_seen Z.eqb (map depth_key booked)) in
  (forall c, depth_key c = Z.min (match Call.negotiation_rounds c with
                                  | Some n => n
                                  | None => 0
                                  end) 3) /\
  negotiation_depth_of booked
  = Ok (map (fun k => NegotiationDepthBucket.mk
                        (depth_label k)
                        (pct_of (occurrences Z.eqb k (map depth_key booked))
                                (List.length booked)))
            keys) /\
  StronglySorted Z.lt keys /\
  (forall k, In k keys <-> exists c, In c booked /\ depth_key c = k) /\
  Forall (fun k => In (k, depth_label k) _DEPTH_LABELS) keys /\
  _DEPTH_LABELS = [ (0, "1st offer"); (1, "1 round"); (2, "2 rounds"); (3, "3 rounds (max)") ] /\
  depth_key many = 3 /\
  depth_key three = 3 /\
  depth_label (depth_key many) = "3 rounds (max)" /\
  negotiation_depth_of (before ++ many :: after)
  = negotiation_depth_of (before ++ three :: after).
Proof.
  intros keys.
  assert (Hmany : depth_key many = 3) by (unfold depth_key; rewrite many_rounds; lia).
  assert (Hthree : depth_key three = 3) by (unfold depth_key; rewrite three_rounds; lia).
  split; [reflexivity |].
  split; [apply negotiation_depth_of_spec |].
  split; [apply depth_keys_ascending |].
  split; [apply depth_keys_In |].
  split.
  { rewrite Forall_forall. intros k Hk.
    apply depth_label_fixed.
    apply depth_keys_In in Hk. destruct Hk as [c [Hc <-]].
    split; [| apply depth_key_le_3].
    rewrite Forall_forall in rounds_non_negative.
    specialize (rounds_non_negative c Hc).
    unfold depth_key. destruct (Call.negotiation_rounds c); lia. }
  split; [reflexivity |].
  split; [exact Hmany |].
  split; [exact Hthree |].
  split; [rewrite Hmany; reflexivity |].
  rewrite !negotiation_depth_of_spec. f_equal.
  apply depth_buckets_ext.
  rewrite !map_app. cbn [map]. rewrite Hmany, Hthree. reflexivity.
Qed.

Lemma C6_witness :
  negotiation_depth_of [booked_call "c-1" (Some 1); booked_call "c-2" (Some 5)]
  = negotiation_depth_of [booked_call "c-1" (Some 1); booked_call "c-3" (Some 3)]
  /\ negotiation_depth_of [booked_call "c-1" (Some 1); booked_call "c-2" (Some 5);
                           booked_call "c-4" None; booked_call "c-3" (Some 3)]
     = Ok [ NegotiationDepthBucket.mk "1st offer" 25;
            NegotiationDepthBucket.mk "1 round" 25;
            NegotiationDepthBucket.mk "3 rounds (max)" 50 ].
Proof.
  pose proof (C6_negotiation_depth_buckets
                [booked_call "c-1" (Some 1); booked_call "c-2" (Some 5);
                 booked_call "c-4" None; booked_call "c-3" (Some 3)]
                [booked_call "c-1" (Some 1)] []
                (booked_call "c-2" (Some 5)) (booked_call "c-3" (Some 3)) 5
                eq_refl ltac:(lia) eq_refl
                ltac:(repeat constructor; simpl; lia)) as H.
  cbv zeta in H.
  destruct H as (_ & Hspec & _ & _ & _ & _ & _ & _ & _ & Hsame).
  split; [exact Hsame |].
  rewrite Hspec. vm_compute. reflexivity.
Defined.

(* ================================================================== *)
(** * Top lanes *)
(* ================================================================== *)

Lemma not_str_true (s : option string) :
  not_str s = true <-> s = None \/ s = Some "".
Proof.
  destruct s as [v |]; simpl.
  - destruct (String.eqb_spec v ""); split; intros H.
    + right. congruence.
    + reflexivity.
    + discriminate.
    + destruct H as [H | H]; congruence.
  - tauto.
Qed.

Lemma lane_calls_step (st : lane_stats) (row : CallRow.t) :
  lane_calls (count_lane st row)
  = fold_left (fun c k => Counter.incr String.eqb k c) (lanes_of [row]) (lane_calls st).
Proof.
  unfold count_lane, lanes_of. cbn [flat_map]. rewrite app_nil_r.
  destruct (not_str (Call.lane_origin (CallRow.call row))
            || not_str (Call.lane_destination (CallRow.call row))); [reflexivity |].
  destruct (String.eqb (Call.outcome (CallRow.call row)) "booked"); [| reflexivity].
  destruct (num_or (CallRow.agreed_rate row) (Call.final_rate (CallRow.call row)));
    reflexivity.
Qed.

Lemma lane_calls_fold (rows : list CallRow.t) (st : lane_stats) :
  lane_calls (fold_left count_lane rows st)
  = fold_left (fun c k => Counter.incr String.eqb k c) (lanes_of rows) (lane_calls st).
Proof.
  revert st. induction rows as [| row rows IH]; intros st; [reflexivity |].
  cbn [fold_left]. rewrite IH, lane_calls_step.
  unfold lanes_of. cbn [flat_map]. rewrite app_nil_r, fold_left_app. reflexivity.
Qed.

Lemma count_lane_skip (st : lane_stats) (row : CallRow.t) :
  not_str (Call.lane_origin (CallRow.call row))
  || not_str (Call.lane_destination (CallRow.call row)) = true ->
  count_lane st row = st.
Proof. intros H. unfold count_lane. rewrite H. reflexivity. Qed.

Lemma fold_count_lane_filter (rows : list CallRow.t) (st : lane_stats) :
  fold_left count_lane rows st
  = fold_left count_lane
      (filter (fun row => negb (not_str (Call.lane_origin (CallRow.call row))
                                || not_str (Call.lane_destination (CallRow.call row))))
              rows) st.
Proof.
  revert st. induction rows as [| row rows IH]; intros st; [reflexivity |].
  cbn [fold_left filter].
  destruct (not_str (Call.lane_origin (CallRow.call row))
            || not_str (Call.lane_destination (CallRow.call row))) eqn:Hs; cbn [negb].
  - rewrite count_lane_skip by exact Hs. apply IH.
  - cbn [fold_left]. apply IH.
Qed.

(** The ranking of the lanes: at most five entries, by descending call
    count, each lane with the number of counted calls on it. *)
Lemma top_lanes_of_ranking (rows : list CallRow.t) :
  exists lanes,
    top_lanes_of rows = Ok lanes /\
    (List.length lanes <= 5)%nat /\
    StronglySorted (fun a b => (TopLane.calls b <= TopLane.calls a)%nat) lanes /\
    map (fun l => (TopLane.lane l, TopLane.calls l)) lanes
    = firstn 5 (sorted_by_key (fun kv => Z.of_nat (snd kv)) true
                              (tally String.eqb (lanes_of rows))).
Proof.
  unfold top_lanes_of. rewrite lane_calls_fold. cbn [lane_calls].
  rewrite (fold_incr_tally_id String.eqb String.eqb_spec).
  set (st := fold_left count_lane rows _).
  set (ranked := sorted_by_key (fun kv : string * nat => Z.of_nat (snd kv)) true
                               (tally String.eqb (lanes_of rows))).
  assert (Hsorted : StronglySorted (fun a b : string * nat => (snd b <= snd a)%nat)
                                   (firstn 5 ranked)).
  { assert (Hall : StronglySorted (fun a b : string * nat => (snd b <= snd a)%nat) ranked).
    { rewrite <- (map_id ranked).
      eapply (StronglySorted_map_mono _ _ (fun kv => kv));
        [| apply (sorted_by_key_sorted (fun kv : string * nat => Z.of_nat (snd kv)) true)].
      intros a b H. unfold in_order in H. lia. }
    apply StronglySorted_firstn. exact Hall. }
  assert (Hgoal : forall r,
             r = Ok (map (fun lc : string * nat =>
                            TopLane.mk (fst lc) (snd lc)
                                       (Counter.get String.eqb (lane_bookings st) (fst lc))
                                       (format_avg_rate (get_rates (lane_rates st) (fst lc))))
                         (firstn 5 ranked)) ->
             exists lanes, r = Ok lanes /\ (List.length lanes <= 5)%nat /\
               StronglySorted (fun a b => (TopLane.calls b <= TopLane.calls a)%nat) lanes /\
               map (fun l => (TopLane.lane l, TopLane.calls l)) lanes = firstn 5 ranked).
  { intros r ->. eexists. split; [reflexivity |].
    split; [rewrite length_map; apply firstn_le_length |].
    split.
    - eapply StronglySorted_map_mono; [| exact Hsorted].
      intros a b H. exact H.
    - rewrite map_map. cbn [TopLane.lane TopLane.calls].
      rewrite (map_ext _ (fun kv => kv)) by (intros [k n]; reflexivity).
      apply map_id. }
  apply Hgoal. unfold Counter.most_common_n, Counter.most_common, ranked.
  destruct (tally String.eqb (lanes_of rows)) as [| kv t]; reflexivity.
Qed.

(** The three calls of the specification's example. *)
Lemma top_lanes_of_example :
  top_lanes_of [ lane_row "booked" (Some "A") (Some "B") (Some (inject_Z 1000)) None;
                 lane_row "no_agreement" (Some "A") (Some "B") None None;
                 lane_row "booked" (Some "C") (Some "D") (Some (inject_Z 500)) None ]
  = Ok [ TopLane.mk "A → B" 2 1 "$1,000"; TopLane.mk "C → D" 1 1 "$500" ].
Proof. vm_compute. reflexivity. Qed.

(** C7: the average rate of a lane must use [agreed_rate] whenever the
    booking join supplied one; on a booked call whose joined
    [agreed_rate] is 0 and whose [final_rate] is 500 the code falls back
    to [final_rate] and reports "$500", where the average of the agreed
    rate prints as "$0". *)
Theorem C7_zero_agreed_rate_falls_back :
  num_or (Some (inject_Z 0)) (Some (inject_Z 500)) = Some (inject_Z 500) /\
  top_lanes_of [ lane_row "booked" (Some "A") (Some "B")
                          (Some (inject_Z 0)) (Some (inject_Z 500)) ]
  = Ok [ TopLane.mk "A → B" 1 1 "$500" ] /\
  format_avg_rate [PyFloat.b64 (inject_Z 0)] = "$0".
Proof. repeat split; vm_compute; reflexivity. Qed.

Lemma incr_changes (k : string) (c : Counter.t string) : Counter.incr String.eqb k c <> c.
Proof.
  intros H. pose proof (total_incr String.eqb k c) as Ht.
  rewrite H in Ht. lia.
Qed.

(** C8, as amended: a call is left out of the lane counts exactly when
    its origin or its destination is absent or empty; a call with both
    counts once, under the lane "origin → destination". *)
Theorem C8_lane_guard (st : lane_stats) (row : CallRow.t) (rows : list CallRow.t) :
  let origin := Call.lane_origin (CallRow.call row) in
  let dest := Call.lane_destination (CallRow.call row) in
  (count_lane st row = st
   <-> (origin = None \/ origin = Some "") \/ (dest = None \/ dest = Some "")) /\
  lane_calls (count_lane st row)
  = (if not_str origin || not_str dest then lane_calls st
     else Counter.incr String.eqb (fmt_str origin ++ " → " ++ fmt_str dest)%string
                       (lane_calls st)) /\
  top_lanes_of rows
  = top_lanes_of
      (filter (fun r => negb (not_str (Call.lane_origin (CallRow.call r))
                              || not_str (Call.lane_destination (CallRow.call r))))
              rows).
Proof.
  intros origin dest.
  assert (Hcalls :
            lane_calls (count_lane st row)
            = (if not_str origin || not_str dest then lane_calls st
               else Counter.incr String.eqb (fmt_str origin ++ " → " ++ fmt_str dest)%string
                                 (lane_calls st))).
  { rewrite lane_calls_step. unfold lanes_of. cbn [flat_map]. rewrite app_nil_r.
    fold origin dest. destruct (not_str origin || not_str dest); reflexivity. }
  split; [| split].
  - rewrite <- !not_str_true, <- orb_true_iff. split.
    + intros H. rewrite H in Hcalls.
      destruct (not_str origin || not_str dest); [reflexivity |].
      symmetry in Hcalls. apply incr_changes in Hcalls. destruct Hcalls.
    + apply count_lane_skip.
  - exact Hcalls.
  - unfold top_lanes_of. rewrite fold_count_lane_filter. reflexivity.
Qed.

Lemma C8_witness :
  count_lane (mk_lane_stats [] [] []) one_ended_row = mk_lane_stats [] [] [] /\
  lane_calls (count_lane (mk_lane_stats [] [] []) two_ended_row)
  = [("Chicago → Denver", 1%nat)].
Proof.
  split.
  - apply (C8_lane_guard (mk_lane_stats [] [] []) one_ended_row []).
    right. left. reflexivity.
  - apply (C8_lane_guard (mk_lane_stats [] [] []) two_ended_row []).
Defined.

(** The claim as stated fails: a call with an origin and no destination
    has one endpoint present and is still left out. *)
Lemma C8_counterexample :
  Call.lane_origin (CallRow.call one_ended_row) = Some "Chicago" /\
  Call.lane_destination (CallRow.call one_ended_row) = None /\
  count_lane (mk_lane_stats [] [] []) one_ended_row = mk_lane_stats [] [] [] /\
  top_lanes_of [one_ended_row] = Ok [] /\
  top_lanes_of [two_ended_row] = Ok [TopLane.mk "Chicago → Denver" 1 1 "$1,200"].
Proof. repeat split; vm_compute; reflexivity. Qed.

(* ================================================================== *)
(** * Equipment demand and supply *)
(* ================================================================== *)

Lemma pct_of_zero (total : nat) : (0 < total)%nat -> pct_of 0 total = 0.
Proof.
  intros Ht. pose proof (pct_of_bound 0 total Ht (Nat.le_0_l _)) as H.
  simpl Z.of_nat in H. nia.
Qed.

Lemma get_le_total (c : Counter.t string) (k : string) :
  (Counter.get String.eqb c k <= Counter.total c)%nat.
Proof.
  unfold Counter.total, Counter.values.
  induction c as [| [a n] c IH]; simpl; [lia |].
  destruct (String.eqb k a); lia.
Qed.

Lemma zero_total_column (raw : Counter.t string) (eq : string) :
  Counter.total raw = 0%nat ->
  pct_of (Counter.get String.eqb raw eq) (or_1 (Counter.total raw)) = 0.
Proof.
  intros Hz. pose proof (get_le_total raw eq) as Hle.
  rewrite Hz in *. replace (Counter.get String.eqb raw eq) with 0%nat by lia.
  apply pct_of_zero. apply or_1_pos.
Qed.

(** C9, as amended: the equipment balance has one entry per type seen in
    either source, its demand and supply percentages each
    [round(count/total*100)] against the own total of the column (or
    against 1 when that total is zero, which makes the whole column
    zero); a type without available loads has demand 0; the list is
    ordered by descending demand percentage.  The supply percentage of a
    type with calls is its rounded share and may itself round to 0. *)
Theorem C9_equipment_balance (demand_raw supply_raw : Counter.t string) :
  let types := sorted_strs (nodup string_dec
                                  (Counter.keys demand_raw ++ Counter.keys supply_raw)) in
  exists rows,
    equipment_demand_supply_of demand_raw supply_raw = Ok rows /\
    Permutation rows (map (balance_entry demand_raw supply_raw) types) /\
    NoDup types /\
    (forall eq, In eq types <->
                In eq (Counter.keys demand_raw) \/ In eq (Counter.keys supply_raw)) /\
    StronglySorted (fun a b => EquipmentDemandSupply.demand b <= EquipmentDemandSupply.demand a)
                   rows /\
    (Counter.total demand_raw = 0%nat ->
     Forall (fun r => EquipmentDemandSupply.demand r = 0) rows) /\
    (Counter.total supply_raw = 0%nat ->
     Forall (fun r => EquipmentDemandSupply.supply r = 0) rows) /\
    (forall eq, Counter.get String.eqb demand_raw eq = 0%nat ->
                EquipmentDemandSupply.demand (balance_entry demand_raw supply_raw eq) = 0).
Proof.
  intros types.
  exists (sorted_by_key EquipmentDemandSupply.demand true
                        (map (balance_entry demand_raw supply_raw) types)).
  assert (Hperm := sorted_by_key_perm EquipmentDemandSupply.demand true
                                      (map (balance_entry demand_raw supply_raw) types)).
  split; [apply equipment_demand_supply_of_spec |].
  split; [exact Hperm |].
  split; [apply all_types_NoDup |].
  split; [apply all_types_In |].
  split; [apply (sorted_by_key_sorted EquipmentDemandSupply.demand true) |].
  split; [| split].
  - intros Hz. rewrite Forall_forall. intros r Hr.
    apply (Permutation_in _ Hperm) in Hr.
    apply in_map_iff in Hr. destruct Hr as [eq [<- _]].
    apply zero_total_column. exact Hz.
  - intros Hz. rewrite Forall_forall. intros r Hr.
    apply (Permutation_in _ Hperm) in Hr.
    apply in_map_iff in Hr. destruct Hr as [eq [<- _]].
    apply zero_total_column. exact Hz.
  - intros eq Hz. cbn [balance_entry EquipmentDemandSupply.demand].
    rewrite Hz. apply pct_of_zero. apply or_1_pos.
Qed.

Lemma C9_witness :
  exists rows,
    equipment_demand_supply_of [] [("reefer", 3%nat); ("flatbed", 1%nat)] = Ok rows /\
    Forall (fun r => EquipmentDemandSupply.demand r = 0) rows /\
    map EquipmentDemandSupply.supply rows = [25; 75].
Proof.
  destruct (C9_equipment_balance [] [("reefer", 3%nat); ("flatbed", 1%nat)])
    as (rows & Heq & _ & _ & _ & _ & Hzero & _ & _).
  exists rows. split; [exact Heq |]. split; [apply Hzero; reflexivity |].
  vm_compute in Heq. injection Heq as <-. reflexivity.
Defined.

(** The claim as stated fails: one reefer call among 201 calls and no
    available reefer load gives the reefer entry a supply of 0. *)
Lemma C9_counterexample :
  Counter.get String.eqb [("dry_van", 1%nat)] "reefer" = 0%nat /\
  Counter.get String.eqb [("dry_van", 200%nat); ("reefer", 1%nat)] "reefer" = 1%nat /\
  equipment_demand_supply_of [("dry_van", 1%nat)] [("dry_van", 200%nat); ("reefer", 1%nat)]
  = Ok [ EquipmentDemandSupply.mk "Dry Van" 100 100;
         EquipmentDemandSupply.mk "Reefer" 0 0 ].
Proof. repeat split; vm_compute; reflexivity. Qed.

(* ================================================================== *)
(** * Booking *)
(* ================================================================== *)

Lemma find_map_same_key (f : Load.t -> Load.t) (id : string) (ls : list Load.t) :
  (forall l, Load.load_id (f l) = Load.load_id l) ->
  find (fun l => String.eqb (Load.load_id l) id) (map f ls)
  = option_map f (find (fun l => String.eqb (Load.load_id l) id) ls).
Proof.
  intros Hf. induction ls as [| l ls IH]; [reflexivity |].
  cbn [map find]. rewrite Hf.
  destruct (String.eqb (Load.load_id l) id); [reflexivity | exact IH].
Qed.

Section Booking.
Variable req : BookedLoadRequest.t.
Variable token : string.
Variable utcnow : Z.
Variable db : Db.

Lemma get_load_after_insert (id : string) :
  get_load_by_id (snd (insert_booked_load req token utcnow db)) id
  = option_map (fun l =>
                  if String.eqb (Load.load_id l) (BookedLoadRequest.load_id req)
                  then Load.mk (Load.load_id l) (Load.equipment_type l) "booked"
                               (Load.origin l) (Load.destination l)
                               (Load.loadboard_rate l) (Some utcnow)
                  else l)
               (get_load_by_id db id).
Proof.
  unfold get_load_by_id, insert_booked_load, mark_booked, insert_row. cbn [snd loads].
  apply find_map_same_key.
  intros l. destruct (String.eqb (Load.load_id l) (BookedLoadRequest.load_id req));
    reflexivity.
Qed.

Lemma bookings_after_insert (id : string) :
  bookings_for (snd (insert_booked_load req token utcnow db)) id
  = bookings_for db id
    ++ (if String.eqb (BookedLoadRequest.load_id req) id
        then [fst (insert_booked_load req token utcnow db)] else []).
Proof.
  unfold bookings_for, insert_booked_load, mark_booked, insert_row.
  cbn [snd fst booked_loads]. rewrite filter_app. cbn [filter BookedLoad.load_id].
  reflexivity.
Qed.

Lemma loads_after_insert (l' : Load.t) :
  In l' (loads (snd (insert_booked_load req token utcnow db))) ->
  exists l, In l (loads db) /\ Load.load_id l' = Load.load_id l /\
            (Load.status l' = "available" ->
             Load.status l = "available" /\
             Load.load_id l <> BookedLoadRequest.load_id req).
Proof.
  unfold insert_booked_load, mark_booked, insert_row. cbn [snd loads].
  intros Hin. apply in_map_iff in Hin. destruct Hin as [l [<- Hl]].
  exists l. split; [exact Hl |].
  destruct (String.eqb_spec (Load.load_id l) (BookedLoadRequest.load_id req)) as [He | Hne].
  - split; [reflexivity |]. cbn [Load.status]. discriminate.
  - split; [reflexivity |]. intros Hs. split; assumption.
Qed.

(** What [book_load] does in each of its three cases. *)
Lemma book_load_not_found :
  get_load_by_id db (BookedLoadRequest.load_id req) = None ->
  book_load req token utcnow db = ((None, Some NotFound), db).
Proof. intros H. unfold book_load. rewrite H. reflexivity. Qed.

Lemma book_load_conflict (l : Load.t) :
  get_load_by_id db (BookedLoadRequest.load_id req) = Some l ->
  Load.status l <> "available" ->
  book_load req token utcnow db = ((None, Some Conflict), db).
Proof.
  intros H Hs. unfold book_load. rewrite H.
  destruct (String.eqb_spec (Load.status l) "available"); [contradiction | reflexivity].
Qed.

Lemma book_load_success (l : Load.t) :
  get_load_by_id db (BookedLoadRequest.load_id req) = Some l ->
  Load.status l = "available" ->
  book_load req token utcnow db
  = ((Some (fst (insert_booked_load req token utcnow db)), None),
     snd (insert_booked_load req token utcnow db)).
Proof.
  intros H Hs. unfold book_load. rewrite H, Hs. reflexivity.
Qed.

(** A booking leaves the status of a load that is not available as it
    is, and never makes a load available. *)
Lemma create_booking_keeps_unavailable (id : string) (l : Load.t) :
  get_load_by_id db id = Some l -> Load.status l <> "available" ->
  exists l', get_load_by_id (snd (create_booking req token utcnow db)) id = Some l' /\
             Load.status l' <> "available".
Proof.
  intros Hget Hs. unfold create_booking, book_load.
  destruct (get_load_by_id db (BookedLoadRequest.load_id req)) as [l0 |] eqn:H0;
    [| exists l; split; assumption].
  destruct (String.eqb (Load.status l0) "available") eqn:Ha;
    [| exists l; split; assumption].
  cbn [negb]. destruct (insert_booked_load req token utcnow db) as [b db'] eqn:Hi.
  cbn [snd].
  assert (Hdb' : db' = snd (insert_booked_load req token utcnow db)) by (rewrite Hi; reflexivity).
  rewrite Hdb', get_load_after_insert, Hget. cbn [option_map].
  eexists. split; [reflexivity |].
  destruct (String.eqb (Load.load_id l) (BookedLoadRequest.load_id req));
    [cbn [Load.status]; discriminate | exact Hs].
Qed.

Lemma create_booking_keeps_unknown (id : string) :
  get_load_by_id db id = None ->
  get_load_by_id (snd (create_booking req token utcnow db)) id = None.
Proof.
  intros Hget. unfold create_booking, book_load.
  destruct (get_load_by_id db (BookedLoadRequest.load_id req)) as [l0 |] eqn:H0;
    [| exact Hget].
  destruct (String.eqb (Load.status l0) "available") eqn:Ha; [| exact Hget].
  cbn [negb]. destruct (insert_booked_load req token utcnow db) as [b db'] eqn:Hi.
  cbn [snd].
  assert (Hdb' : db' = snd (insert_booked_load req token utcnow db)) by (rewrite Hi; reflexivity).
  rewrite Hdb', get_load_after_insert, Hget. reflexivity.
Qed.

Lemma create_booking_keeps_bookings (id : string) (l : Load.t) :
  get_load_by_id db id = Some l -> Load.status l <> "available" ->
  bookings_for (snd (create_booking req token utcnow db)) id = bookings_for db id.
Proof.
  intros Hget Hs. unfold create_booking, book_load.
  destruct (get_load_by_id db (BookedLoadRequest.load_id req)) as [l0 |] eqn:H0;
    [| reflexivity].
  destruct (String.eqb_spec (Load.status l0) "available") as [Ha | Ha]; [| reflexivity].
  cbn [negb]. destruct (insert_booked_load req token utcnow db) as [b db'] eqn:Hi.
  cbn [snd].
  assert (Hdb' : db' = snd (insert_booked_load req token utcnow db)) by (rewrite Hi; reflexivity).
  rewrite Hdb', bookings_after_insert.
  destruct (String.eqb_spec (BookedLoadRequest.load_id req) id) as [He | Hne];
    [| apply app_nil_r].
  exfalso. rewrite He in H0. congruence.
Qed.

(** The store invariant survives every booking request. *)
Lemma create_booking_consistent :
  consistent db -> consistent (snd (create_booking req token utcnow db)).
Proof.
  intros Hc. unfold create_booking, book_load.
  destruct (get_load_by_id db (BookedLoadRequest.load_id req)) as [l0 |] eqn:H0;
    [| exact Hc].
  destruct (String.eqb_spec (Load.status l0) "available") as [Ha | Ha]; [| exact Hc].
  cbn [negb]. destruct (insert_booked_load req token utcnow db) as [b db'] eqn:Hi.
  cbn [snd].
  assert (Hdb' : db' = snd (insert_booked_load req token utcnow db)) by (rewrite Hi; reflexivity).
  rewrite Hdb'. intros l' Hin Hs.
  destruct (loads_after_insert l' Hin) as [l [Hl [Hid Hav]]].
  destruct (Hav Hs) as [Hls Hne].
  rewrite bookings_after_insert, Hid.
  destruct (String.eqb_spec (BookedLoadRequest.load_id req) (Load.load_id l));
    [congruence |].
  rewrite app_nil_r. apply Hc; assumption.
Qed.
End Booking.

Section Route.
Variable req : BookedLoadRequest.t.
Variable token : string.
Variable utcnow : Z.
Variable db : Db.

Lemma create_booking_not_found :
  get_load_by_id db (BookedLoadRequest.load_id req) = None ->
  create_booking req token utcnow db = (HTTPException 404 NotFound, db).
Proof.
  intros H. unfold create_booking. rewrite book_load_not_found by exact H.
  reflexivity.
Qed.

Lemma create_booking_conflict (l : Load.t) :
  get_load_by_id db (BookedLoadRequest.load_id req) = Some l ->
  Load.status l <> "available" ->
  create_booking req token utcnow db = (HTTPException 409 Conflict, db).
Proof.
  intros H Hs. unfold create_booking. rewrite (book_load_conflict _ _ _ _ l H Hs).
  reflexivity.
Qed.

Lemma create_booking_success (l : Load.t) :
  get_load_by_id db (BookedLoadRequest.load_id req) = Some l ->
  Load.status l = "available" ->
  create_booking req token utcnow db
  = (Return (Some (fst (insert_booked_load req token utcnow db))),
     snd (insert_booked_load req token utcnow db)).
Proof.
  intros H Hs. unfold create_booking. rewrite (book_load_success _ _ _ _ l H Hs).
  reflexivity.
Qed.
End Route.

Lemma serve_bookings_cons (req : BookedLoadRequest.t) (token : string) (utcnow : Z)
      (reqs : list (BookedLoadRequest.t * string * Z)) (db : Db) :
  snd (serve_bookings ((req, token, utcnow) :: reqs) db)
  = snd (serve_bookings reqs (snd (create_booking req token utcnow db))).
Proof.
  cbn [serve_bookings].
  destruct (create_booking req token utcnow db) as [r db']. cbn [snd].
  destruct (serve_bookings reqs db') as [rs db'']. reflexivity.
Qed.

(** Once a load is not available, no later booking request changes its
    bookings or makes it available again. *)
Lemma serve_bookings_keeps_unavailable (reqs : list (BookedLoadRequest.t * string * Z))
      (db : Db) (id : string) (l : Load.t) :
  get_load_by_id db id = Some l -> Load.status l <> "available" ->
  (exists l', get_load_by_id (snd (serve_bookings reqs db)) id = Some l' /\
              Load.status l' <> "available") /\
  bookings_for (snd (serve_bookings reqs db)) id = bookings_for db id.
Proof.
  revert db l. induction reqs as [| [[req token] utcnow] reqs IH]; intros db l Hget Hs.
  - split; [exists l; split; assumption | reflexivity].
  - rewrite serve_bookings_cons.
    destruct (create_booking_keeps_unavailable req token utcnow db id l Hget Hs)
      as [l1 [Hget1 Hs1]].
    destruct (IH _ l1 Hget1 Hs1) as [Hex Hb].
    split; [exact Hex |].
    rewrite Hb. apply (create_booking_keeps_bookings req token utcnow db id l Hget Hs).
Qed.

Lemma serve_bookings_keeps_unknown (reqs : list (BookedLoadRequest.t * string * Z))
      (db : Db) (id : string) :
  get_load_by_id db id = None ->
  get_load_by_id (snd (serve_bookings reqs db)) id = None.
Proof.
  revert db. induction reqs as [| [[req token] utcnow] reqs IH]; intros db Hget.
  - exact Hget.
  - rewrite serve_bookings_cons. apply IH.
    apply create_booking_keeps_unknown. exact Hget.
Qed.

Lemma serve_bookings_consistent (reqs : list (BookedLoadRequest.t * string * Z)) (db : Db) :
  consistent db -> consistent (snd (serve_bookings reqs db)).
Proof.
  revert db. induction reqs as [| [[req token] utcnow] reqs IH]; intros db Hc.
  - exact Hc.
  - rewrite serve_bookings_cons. apply IH.
    apply create_booking_consistent. exact Hc.
Qed.

(** C1: booking a load that is available succeeds: the load then reads
    [booked], stamped with the time of the booking, and has exactly one
    booking row; whatever requests follow,
    a further request for the same load fails with Conflict (409) and
    the load keeps its one booking; a request for a load id that matches
    no load fails with NotFound (404); the two failures differ. *)
Theorem C1_booking_succeeds_exactly_once
  (db : Db) (req : BookedLoadRequest.t) (token : string) (utcnow : Z) (load : Load.t)
  (later : list (BookedLoadRequest.t * string * Z))
  (again unknown : BookedLoadRequest.t) (token' : string) (utcnow' : Z)
  (store_consistent : consistent db)
  (load_found : get_load_by_id db (BookedLoadRequest.load_id req) = Some load)
  (load_available : Load.status load = "available")
  (same_load : BookedLoadRequest.load_id again = BookedLoadRequest.load_id req)
  (no_such_load : get_load_by_id db (BookedLoadRequest.load_id unknown) = None) :
  exists booking db1,
    create_booking req token utcnow db = (Return (Some booking), db1) /\
    BookedLoad.load_id booking = BookedLoadRequest.load_id req /\
    BookedLoad.id booking = ("BK-" ++ token)%string /\
    BookedLoad.created_at booking = utcnow /\
    (exists load', get_load_by_id db1 (BookedLoadRequest.load_id req) = Some load' /\
                   Load.status load' = "booked" /\
                   Load.booked_at load' = Some utcnow) /\
    bookings_for db1 (BookedLoadRequest.load_id req) = [booking] /\
    consistent db1 /\
    let db2 := snd (serve_bookings later db1) in
    create_booking again token' utcnow' db2 = (HTTPException 409 Conflict, db2) /\
    fst (book_load again token' utcnow' db2) = (None, Some Conflict) /\
    bookings_for db2 (BookedLoadRequest.load_id req) = [booking] /\
    create_booking unknown token' utcnow' db = (HTTPException 404 NotFound, db) /\
    create_booking unknown token' utcnow' db2 = (HTTPException 404 NotFound, db2) /\
    fst (book_load unknown token' utcnow' db) = (None, Some NotFound) /\
    Conflict <> NotFound.
Proof.
  set (id := BookedLoadRequest.load_id req) in *.
  exists (fst (insert_booked_load req token utcnow db)),
         (snd (insert_booked_load req token utcnow db)).
  set (db1 := snd (insert_booked_load req token utcnow db)).
  assert (Hin : In load (loads db) /\ Load.load_id load = id).
  { unfold get_load_by_id in load_found. apply find_some in load_found.
    destruct load_found as [Hin He]. split; [exact Hin |].
    apply String.eqb_eq. exact He. }
  destruct Hin as [Hin Hid].
  assert (Hget1 : exists load', get_load_by_id db1 id = Some load' /\
                                Load.status load' = "booked" /\
                                Load.booked_at load' = Some utcnow).
  { unfold db1. rewrite get_load_after_insert. fold id. rewrite load_found.
    cbn [option_map]. eexists. split; [reflexivity |].
    rewrite Hid, String.eqb_refl. split; reflexivity. }
  assert (Hb1 : bookings_for db1 id = [fst (insert_booked_load req token utcnow db)]).
  { unfold db1. rewrite bookings_after_insert. fold id. rewrite String.eqb_refl.
    rewrite <- Hid at 1. rewrite (store_consistent load Hin load_available).
    reflexivity. }
  split; [apply (create_booking_success req token utcnow db load); assumption |].
  do 3 (split; [reflexivity |]).
  split; [exact Hget1 |].
  split; [exact Hb1 |].
  assert (Hc1 : consistent db1).
  { pose proof (create_booking_consistent req token utcnow db store_consistent) as H.
    rewrite (create_booking_success req token utcnow db load) in H by assumption.
    exact H. }
  split; [exact Hc1 |].
  intros db2.
  destruct Hget1 as [load1 [Hl1 [Hs1 _]]].
  assert (Hs1' : Load.status load1 <> "available") by (rewrite Hs1; discriminate).
  destruct (serve_bookings_keeps_unavailable later db1 id load1 Hl1 Hs1')
    as [[load2 [Hl2 Hs2]] Hb2].
  fold db2 in Hl2, Hb2.
  assert (Hu1 : get_load_by_id db1 (BookedLoadRequest.load_id unknown) = None).
  { unfold db1. rewrite get_load_after_insert, no_such_load. reflexivity. }
  assert (Hu2 : get_load_by_id db2 (BookedLoadRequest.load_id unknown) = None).
  { apply serve_bookings_keeps_unknown. exact Hu1. }
  rewrite <- same_load in Hl2.
  split; [apply (create_booking_conflict again token' utcnow' db2 load2); assumption |].
  split; [rewrite (book_load_conflict again token' utcnow' db2 load2); [reflexivity | |];
          assumption |].
  split; [rewrite Hb2; exact Hb1 |].
  split; [apply create_booking_not_found; exact no_such_load |].
  split; [apply create_booking_not_found; exact Hu2 |].
  split; [rewrite book_load_not_found; [reflexivity | exact no_such_load] |].
  discriminate.
Qed.

Lemma C1_witness :
  exists booking db1,
    create_booking (dallas_request "L-100") "0a1b2c3d" 50 one_load_db
    = (Return (Some booking), db1) /\
    bookings_for db1 "L-100" = [booking] /\
    create_booking (dallas_request "L-100") "4e5f6a7b" 60 db1
    = (HTTPException 409 "already booked", db1) /\
    create_booking (dallas_request "L-404") "4e5f6a7b" 60 db1
    = (HTTPException 404 "no such load", db1).
Proof.
  destruct (C1_booking_succeeds_exactly_once
              one_load_db (dallas_request "L-100") "0a1b2c3d" 50 dallas_load []
              (dallas_request "L-100") (dallas_request "L-404") "4e5f6a7b" 60)
    as (booking & db1 & H1 & _ & _ & _ & _ & H2 & _ & H3 & _ & _ & _ & H4 & _).
  - intros l [<- | []] _. reflexivity.
  - reflexivity.
  - reflexivity.
  - reflexivity.
  - reflexivity.
  - exists booking, db1. repeat split; assumption.
Defined.

(** Requests for one load served one after the other: when the load is
    not available each of them is refused with Conflict and the store is
    left as it is; when it is available the first is accepted and the
    others are refused. *)
Lemma serve_bookings_all_conflict (reqs : list (BookedLoadRequest.t * string * Z))
      (db : Db) (id : string) (l : Load.t) :
  get_load_by_id db id = Some l -> Load.status l <> "available" ->
  Forall (fun r => BookedLoadRequest.load_id (fst (fst r)) = id) reqs ->
  serve_bookings reqs db
  = (repeat (HTTPException 409 Conflict) (List.length reqs), db).
Proof.
  intros Hget Hs Hall. induction Hall as [| [[req token] utcnow] reqs Hr _ IH];
    [reflexivity |].
  cbn [fst] in Hr. cbn [serve_bookings].
  rewrite (create_booking_conflict req token utcnow db l) by (rewrite ?Hr; assumption).
  rewrite IH. reflexivity.
Qed.

Lemma serve_bookings_one_success (req : BookedLoadRequest.t) (token : string) (utcnow : Z)
      (reqs : list (BookedLoadRequest.t * string * Z)) (db : Db) (l : Load.t) :
  get_load_by_id db (BookedLoadRequest.load_id req) = Some l ->
  Load.status l = "available" ->
  Forall (fun r => BookedLoadRequest.load_id (fst (fst r)) = BookedLoadRequest.load_id req)
         reqs ->
  fst (serve_bookings ((req, token, utcnow) :: reqs) db)
  = Return (Some (fst (insert_booked_load req token utcnow db)))
    :: repeat (HTTPException 409 Conflict) (List.length reqs).
Proof.
  intros Hget Hs Hall. cbn [serve_bookings].
  rewrite (create_booking_success req token utcnow db l Hget Hs).
  assert (Hget1 : exists l', get_load_by_id (snd (insert_booked_load req token utcnow db))
                                            (BookedLoadRequest.load_id req) = Some l' /\
                             Load.status l' <> "available").
  { rewrite get_load_after_insert, Hget. cbn [option_map]. eexists. split; [reflexivity |].
    destruct (String.eqb_spec (Load.load_id l) (BookedLoadRequest.load_id req)) as [_ | Hne].
    - cbn [Load.status]. discriminate.
    - exfalso. apply Hne. unfold get_load_by_id in Hget. apply find_some in Hget.
      apply String.eqb_eq. tauto. }
  destruct Hget1 as [l' [Hl' Hs']].
  rewrite (serve_bookings_all_conflict reqs _ _ l' Hl' Hs' Hall). reflexivity.
Qed.

(* ================================================================== *)
(** * Top lanes: counts and rates *)
(* ================================================================== *)

Lemma lanes_of_counted (rows : list CallRow.t) :
  lanes_of rows = flat_map (fun row => if counted row then [lane_of row] else []) rows.
Proof.
  unfold lanes_of, counted, lane_of. apply flat_map_ext. intros row.
  destruct (not_str (Call.lane_origin (CallRow.call row))
            || not_str (Call.lane_destination (CallRow.call row))); reflexivity.
Qed.

Lemma lane_bookings_step (st : lane_stats) (row : CallRow.t) :
  lane_bookings (count_lane st row)
  = fold_left (fun c k => Counter.incr String.eqb k c) (booked_lanes_of [row])
              (lane_bookings st).
Proof.
  unfold count_lane, booked_lanes_of, counted, is_booked, lane_of.
  cbn [flat_map]. rewrite app_nil_r.
  destruct (not_str (Call.lane_origin (CallRow.call row))
            || not_str (Call.lane_destination (CallRow.call row))); [reflexivity |].
  cbn [negb andb].
  destruct (String.eqb (Call.outcome (CallRow.call row)) "booked"); [| reflexivity].
  destruct (num_or (CallRow.agreed_rate row) (Call.final_rate (CallRow.call row)));
    reflexivity.
Qed.

Lemma lane_bookings_fold (rows : list CallRow.t) (st : lane_stats) :
  lane_bookings (fold_left count_lane rows st)
  = fold_left (fun c k => Counter.incr String.eqb k c) (booked_lanes_of rows)
              (lane_bookings st).
Proof.
  revert st. induction rows as [| row rows IH]; intros st; [reflexivity |].
  cbn [fold_left]. rewrite IH, lane_bookings_step.
  unfold booked_lanes_of. cbn [flat_map]. rewrite app_nil_r, fold_left_app. reflexivity.
Qed.

Lemma get_rates_append (lane l : string) (r : Q) (d : list (string * list Q)) :
  get_rates (append_rate l r d) lane
  = get_rates d lane ++ (if String.eqb lane l then [r] else []).
Proof.
  induction d as [| [k rs] d IH]; cbn [append_rate get_rates].
  - destruct (String.eqb lane l); reflexivity.
  - destruct (String.eqb_spec l k) as [-> | Hne]; cbn [get_rates].
    + destruct (String.eqb lane k); [reflexivity | rewrite app_nil_r; reflexivity].
    + destruct (String.eqb_spec lane k) as [-> | Hnk].
      * destruct (String.eqb_spec k l); [congruence | rewrite app_nil_r; reflexivity].
      * exact IH.
Qed.

Lemma lane_rates_step (lane : string) (st : lane_stats) (row : CallRow.t) :
  get_rates (lane_rates (count_lane st row)) lane
  = get_rates (lane_rates st) lane ++ rates_on lane [row].
Proof.
  unfold count_lane, rates_on, counted, is_booked, lane_of.
  cbn [flat_map]. rewrite app_nil_r.
  destruct (not_str (Call.lane_origin (CallRow.call row))
            || not_str (Call.lane_destination (CallRow.call row)));
    [cbn; rewrite app_nil_r; reflexivity |].
  cbn [negb andb].
  destruct (String.eqb (Call.outcome (CallRow.call row)) "booked");
    [| cbn; rewrite app_nil_r; reflexivity].
  cbn [andb].
  destruct (num_or (CallRow.agreed_rate row) (Call.final_rate (CallRow.call row)))
    as [agreed |]; cbn [lane_rates].
  - rewrite get_rates_append.
    destruct (String.eqb lane _); reflexivity.
  - destruct (String.eqb lane _); rewrite app_nil_r; reflexivity.
Qed.

Lemma lane_rates_fold (lane : string) (rows : list CallRow.t) (st : lane_stats) :
  get_rates (lane_rates (fold_left count_lane rows st)) lane
  = get_rates (lane_rates st) lane ++ rates_on lane rows.
Proof.
  revert st. induction rows as [| row rows IH]; intros st.
  - cbn. rewrite app_nil_r. reflexivity.
  - cbn [fold_left]. rewrite IH, lane_rates_step, <- app_assoc. f_equal.
    unfold rates_on. cbn [flat_map]. rewrite app_nil_r. reflexivity.
Qed.

(** The top-lanes loop, row by row, builds the tallies of the counted
    and of the booked lanes and the rate observations per lane. *)
Lemma top_lanes_of_spec (rows : list CallRow.t) :
  top_lanes_of rows
  = Ok (map (lane_entry rows)
            (firstn 5 (sorted_by_key (fun kv => Z.of_nat (snd kv)) true
                                     (tally String.eqb (lanes_of rows))))).
Proof.
  unfold top_lanes_of.
  rewrite lane_calls_fold. cbn [lane_calls].
  rewrite (fold_incr_tally_id String.eqb String.eqb_spec).
  assert (Hmap : forall l : list (string * nat),
             map (fun lc =>
                    TopLane.mk (fst lc) (snd lc)
                      (Counter.get String.eqb
                         (lane_bookings (fold_left count_lane rows (mk_lane_stats [] [] [])))
                         (fst lc))
                      (format_avg_rate
                         (get_rates
                            (lane_rates (fold_left count_lane rows (mk_lane_stats [] [] [])))
                            (fst lc)))) l
             = map (lane_entry rows) l).
  { intros l. apply map_ext. intros lc. unfold lane_entry.
    rewrite lane_bookings_fold, lane_rates_fold. cbn [lane_bookings lane_rates get_rates app].
    rewrite (fold_incr_tally_id String.eqb String.eqb_spec).
    rewrite (get_tally String.eqb String.eqb_spec). reflexivity. }
  destruct (tally String.eqb (lanes_of rows)) as [| kv t] eqn:Ht.
  - reflexivity.
  - unfold Counter.most_common_n, Counter.most_common. rewrite Hmap. reflexivity.
Qed.

Lemma NoDup_firstn {A : Type} (n : nat) (l : list A) : NoDup l -> NoDup (firstn n l).
Proof.
  intros H. rewrite <- (firstn_skipn n l) in H.
  apply NoDup_app_remove_r in H. exact H.
Qed.

Lemma occurrences_lanes (lane : string) (rows : list CallRow.t) :
  occurrences String.eqb lane (lanes_of rows) = List.length (rows_on lane rows).
Proof.
  rewrite lanes_of_counted. unfold occurrences, rows_on.
  induction rows as [| row rows IH]; [reflexivity |].
  cbn [flat_map filter]. rewrite filter_app, length_app, IH.
  destruct (counted row); cbn [andb filter List.length];
    [destruct (String.eqb lane (lane_of row)) |]; reflexivity.
Qed.

Lemma occurrences_booked_lanes (lane : string) (rows : list CallRow.t) :
  occurrences String.eqb lane (booked_lanes_of rows)
  = List.length (filter is_booked (rows_on lane rows)).
Proof.
  unfold occurrences, booked_lanes_of, rows_on.
  induction rows as [| row rows IH]; [reflexivity |].
  cbn [flat_map filter]. rewrite filter_app, length_app, IH.
  destruct (counted row); cbn [andb]; [| reflexivity].
  destruct (is_booked row) eqn:Hb; cbn [filter].
  - destruct (String.eqb lane (lane_of row)); cbn [filter List.length]; rewrite ?Hb;
      reflexivity.
  - destruct (String.eqb lane (lane_of row)); cbn [filter List.length]; rewrite ?Hb;
      reflexivity.
Qed.

Section Ranking.
Variable rows : list CallRow.t.

Lemma ranked_lanes_perm :
  Permutation (sorted_by_key (fun kv : string * nat => Z.of_nat (snd kv)) true
                             (tally String.eqb (lanes_of rows)))
              (tally String.eqb (lanes_of rows)).
Proof. apply sorted_by_key_perm. Qed.

Lemma ranked_lanes_NoDup :
  NoDup (map fst (sorted_by_key (fun kv : string * nat => Z.of_nat (snd kv)) true
                                (tally String.eqb (lanes_of rows)))).
Proof.
  eapply Permutation_NoDup.
  - apply Permutation_map, Permutation_sym, ranked_lanes_perm.
  - change (map fst (tally String.eqb (lanes_of rows)))
      with (Counter.keys (tally String.eqb (lanes_of rows))).
    rewrite (keys_tally String.eqb). apply NoDup_first_seen. exact String.eqb_spec.
Qed.

Lemma ranked_lane_entry (kv : string * nat) :
  In kv (firstn 5 (sorted_by_key (fun kv : string * nat => Z.of_nat (snd kv)) true
                                 (tally String.eqb (lanes_of rows)))) ->
  snd kv = List.length (rows_on (fst kv) rows) /\ (1 <= snd kv)%nat.
Proof.
  intros Hin. apply firstn_In in Hin.
  apply (Permutation_in _ ranked_lanes_perm) in Hin.
  unfold tally in Hin. apply in_map_iff in Hin. destruct Hin as [lane [<- Hl]].
  cbn [fst snd]. split; [apply occurrences_lanes |].
  apply (occurrences_pos String.eqb String.eqb_spec).
  apply (in_first_seen String.eqb String.eqb_spec). exact Hl.
Qed.
End Ranking.

Lemma sum_occurrences_first_seen (s : list string) :
  sum_nat (map (fun k => occurrences String.eqb k s) (first_seen String.eqb s))
  = List.length s.
Proof.
  rewrite <- (values_tally String.eqb).
  apply (total_tally String.eqb String.eqb_spec).
Qed.

Lemma length_lanes_of (rows : list CallRow.t) :
  List.length (lanes_of rows) = List.length (filter counted rows).
Proof.
  rewrite lanes_of_counted.
  induction rows as [| row rows IH]; [reflexivity |].
  cbn [flat_map filter]. rewrite length_app, IH.
  destruct (counted row); reflexivity.
Qed.

Lemma sum_nat_firstn_le (n : nat) (l : list nat) : (sum_nat (firstn n l) <= sum_nat l)%nat.
Proof.
  revert n. induction l as [| x l IH]; intros [| n]; cbn [firstn sum_nat fold_right];
    try lia.
  specialize (IH n). unfold sum_nat in IH. lia.
Qed.

(** X1: the top-lanes list has [min(5, number of lanes)] entries with
    pairwise different lanes, by descending call count; each entry
    reports the number of counted calls of its lane, which is at least
    1, and the number of those that are booked, which is not larger. *)
Theorem top_lanes_counts (rows : list CallRow.t) :
  exists lanes,
    top_lanes_of rows = Ok lanes /\
    List.length lanes
    = Nat.min 5 (List.length (first_seen String.eqb (lanes_of rows))) /\
    NoDup (map TopLane.lane lanes) /\
    StronglySorted (fun a b => (TopLane.calls b <= TopLane.calls a)%nat) lanes /\
    (sum_nat (map TopLane.calls lanes) <= List.length (filter counted rows))%nat /\
    Forall (fun l =>
              TopLane.calls l = List.length (rows_on (TopLane.lane l) rows) /\
              (1 <= TopLane.calls l)%nat /\
              TopLane.bookings l
              = List.length (filter is_booked (rows_on (TopLane.lane l) rows)) /\
              (TopLane.bookings l <= TopLane.calls l)%nat)
           lanes.
Proof.
  eexists. split; [apply top_lanes_of_spec |].
  set (ranked := sorted_by_key (fun kv : string * nat => Z.of_nat (snd kv)) true
                               (tally String.eqb (lanes_of rows))).
  split; [| split; [| split; [| split]]].
  - rewrite length_map, length_firstn. f_equal.
    unfold ranked. rewrite (Permutation_length (ranked_lanes_perm rows)).
    unfold tally. apply length_map.
  - rewrite map_map. cbn [lane_entry TopLane.lane].
    rewrite <- firstn_map. apply NoDup_firstn. apply ranked_lanes_NoDup.
  - eapply StronglySorted_map_mono with (R := fun a b : string * nat => (snd b <= snd a)%nat).
    + intros a b H. exact H.
    + apply StronglySorted_firstn.
      rewrite <- (map_id ranked).
      eapply (StronglySorted_map_mono _ _ (fun kv => kv));
        [| apply (sorted_by_key_sorted (fun kv : string * nat => Z.of_nat (snd kv)) true)].
      intros a b H. unfold in_order in H. lia.
  - rewrite map_map. cbn [lane_entry TopLane.calls].
    rewrite <- firstn_map, <- length_lanes_of.
    rewrite <- (total_tally String.eqb String.eqb_spec (lanes_of rows)).
    change (Counter.total (tally String.eqb (lanes_of rows)))
      with (sum_nat (map snd (tally String.eqb (lanes_of rows)))).
    rewrite <- (sum_nat_perm _ _ (Permutation_map snd (ranked_lanes_perm rows))).
    apply sum_nat_firstn_le.
  - rewrite Forall_forall. intros l Hl.
    apply in_map_iff in Hl. destruct Hl as [kv [<- Hkv]].
    destruct (ranked_lane_entry rows kv Hkv) as [Hcalls Hpos].
    cbn [lane_entry TopLane.lane TopLane.calls TopLane.bookings].
    rewrite occurrences_booked_lanes.
    split; [exact Hcalls |]. split; [exact Hpos |]. split; [reflexivity |].
    rewrite Hcalls. apply filter_length_le.
Qed.

(** X2: with at most five lanes the call counts of the top-lanes list add
    up to the number of counted calls: no counted call is lost. *)
Theorem top_lanes_calls_total (rows : list CallRow.t)
  (few_lanes : (List.length (first_seen String.eqb (lanes_of rows)) <= 5)%nat) :
  exists lanes,
    top_lanes_of rows = Ok lanes /\
    sum_nat (map TopLane.calls lanes) = List.length (filter counted rows).
Proof.
  eexists. split; [apply top_lanes_of_spec |].
  rewrite map_map. cbn [lane_entry TopLane.calls].
  rewrite firstn_all2.
  - rewrite (sum_nat_perm _ (map snd (tally String.eqb (lanes_of rows)))).
    + change (sum_nat (map snd (tally String.eqb (lanes_of rows))))
        with (Counter.total (tally String.eqb (lanes_of rows))).
      rewrite (total_tally String.eqb String.eqb_spec). apply length_lanes_of.
    + apply Permutation_map. apply ranked_lanes_perm.
  - rewrite (Permutation_length (ranked_lanes_perm rows)).
    unfold tally. rewrite length_map. exact few_lanes.
Qed.

Lemma top_lanes_calls_total_witness :
  exists lanes,
    top_lanes_of [two_ended_row; one_ended_row; two_ended_row] = Ok lanes /\
    sum_nat (map TopLane.calls lanes) = 2%nat.
Proof.
  apply (top_lanes_calls_total [two_ended_row; one_ended_row; two_ended_row]).
  vm_compute. lia.
Defined.

Lemma rates_on_unbooked (lane : string) (rows : list CallRow.t) :
  filter is_booked (rows_on lane rows) = [] -> rates_on lane rows = [].
Proof.
  unfold rows_on, rates_on.
  induction rows as [| row rows IH]; [reflexivity |].
  cbn [filter flat_map].
  destruct (counted row); cbn [andb]; [| exact IH].
  destruct (String.eqb lane (lane_of row)); cbn [filter].
  - destruct (is_booked row); cbn [andb]; [discriminate | exact IH].
  - rewrite andb_false_r. exact IH.
Qed.

Section UnbookedRates.
Variable rows : list CallRow.t.

Lemma counted_without (row : CallRow.t) :
  counted (without_unbooked_rates row) = counted row
  /\ lane_of (without_unbooked_rates row) = lane_of row
  /\ is_booked (without_unbooked_rates row) = is_booked row.
Proof.
  unfold without_unbooked_rates.
  destruct (is_booked row) eqn:Hb; [repeat split; exact Hb |].
  repeat split. exact Hb.
Qed.

Lemma lanes_of_without : lanes_of (map without_unbooked_rates rows) = lanes_of rows.
Proof.
  rewrite !lanes_of_counted, flat_map_concat_map, map_map, <- flat_map_concat_map.
  apply flat_map_ext. intros row.
  destruct (counted_without row) as [-> [-> _]]. reflexivity.
Qed.

Lemma booked_lanes_of_without :
  booked_lanes_of (map without_unbooked_rates rows) = booked_lanes_of rows.
Proof.
  unfold booked_lanes_of.
  rewrite flat_map_concat_map, map_map, <- flat_map_concat_map.
  apply flat_map_ext. intros row.
  destruct (counted_without row) as [-> [-> ->]]. reflexivity.
Qed.

Lemma rates_on_without (lane : string) :
  rates_on lane (map without_unbooked_rates rows) = rates_on lane rows.
Proof.
  unfold rates_on.
  rewrite flat_map_concat_map, map_map, <- flat_map_concat_map.
  apply flat_map_ext. intros row.
  destruct (counted_without row) as [-> [-> ->]].
  unfold without_unbooked_rates.
  destruct (is_booked row); [reflexivity |].
  rewrite andb_false_r. reflexivity.
Qed.
End UnbookedRates.

(** X3: the average rate of a lane is formed from the rates of its booked
    calls only: the top-lanes list does not change when the rates of the
    calls that are not booked are blanked, and a lane without booked
    call reports "$0". *)
Theorem top_lanes_rates_of_booked_calls (rows : list CallRow.t) :
  top_lanes_of (map without_unbooked_rates rows) = top_lanes_of rows /\
  exists lanes,
    top_lanes_of rows = Ok lanes /\
    Forall (fun l =>
              TopLane.avg_rate l = format_avg_rate (rates_on (TopLane.lane l) rows) /\
              (TopLane.bookings l = 0%nat -> TopLane.avg_rate l = "$0"))
           lanes.
Proof.
  split.
  - rewrite !top_lanes_of_spec, lanes_of_without. f_equal.
    apply map_ext. intros lc. unfold lane_entry.
    rewrite booked_lanes_of_without, rates_on_without. reflexivity.
  - eexists. split; [apply top_lanes_of_spec |].
    rewrite Forall_forall. intros l Hl.
    apply in_map_iff in Hl. destruct Hl as [kv [<- _]].
    cbn [lane_entry TopLane.lane TopLane.avg_rate TopLane.bookings].
    split; [reflexivity |].
    rewrite occurrences_booked_lanes. intros Hz.
    apply length_zero_iff_nil in Hz.
    rewrite (rates_on_unbooked _ _ Hz). reflexivity.
Qed.

(* ================================================================== *)
(** * Percentages: range and order *)
(* ================================================================== *)

Module PyFloatOrder.
Import PyFloat PyFloatFacts.
Local Open Scope Q_scope.

Lemma round_half_even_floor (q : Q) :
  (Qfloor q <= round_half_even q <= Qfloor q + 1)%Z.
Proof.
  unfold round_half_even.
  destruct (Qcompare (q - inject_Z (Qfloor q)) (1 # 2)); [destruct (Z.even (Qfloor q)) | |];
    lia.
Qed.

Lemma round_half_even_mono (x y : Q) :
  x <= y -> (round_half_even x <= round_half_even y)%Z.
Proof.
  intros Hxy.
  pose proof (Qfloor_resp_le x y Hxy) as Hf.
  destruct (Z.eq_dec (Qfloor x) (Qfloor y)) as [He | Hne].
  - unfold round_half_even. rewrite <- He.
    destruct (Qcompare_spec (x - inject_Z (Qfloor x)) (1 # 2)) as [H1 | H1 | H1];
      destruct (Qcompare_spec (y - inject_Z (Qfloor x)) (1 # 2)) as [H2 | H2 | H2];
      try destruct (Z.even (Qfloor x)); try lia; exfalso; lra.
  - pose proof (round_half_even_floor x). pose proof (round_half_even_floor y). lia.
Qed.

Lemma round_half_even_int (z : Z) : round_half_even (inject_Z z) = z.
Proof.
  unfold round_half_even. rewrite Qfloor_Z.
  destruct (Qcompare_spec (inject_Z z - inject_Z z) (1 # 2)) as [H | H | H];
    [exfalso; lra | reflexivity | exfalso; lra].
Qed.

Lemma pow2_mono (a b : Z) : (a <= b)%Z -> 2 ^ a <= 2 ^ b.
Proof. intros H. apply Qpower_le_compat_l; [exact H | lra]. Qed.

Lemma pow2_add (a b : Z) : 2 ^ (a + b) == 2 ^ a * 2 ^ b.
Proof. apply Qpower_plus. intro H. discriminate H. Qed.

Lemma ilog2_lt (q : Q) : 0 < q -> q < 2 ^ (ilog2 q + 1).
Proof.
  intros Hq. unfold ilog2.
  destruct (Qle_bool (2 ^ (Z.log2 (Qnum q) - Z.log2 (Z.pos (Qden q)))) q) eqn:Hb.
  - clear Hb. destruct q as [n d]. simpl Qnum. simpl Qden.
    assert (Hn : (0 < n)%Z).
    { unfold Qlt in Hq. simpl in Hq. lia. }
    set (a := Z.log2 n). set (b := Z.log2 (Z.pos d)).
    assert (Ha : (0 <= a)%Z) by apply Z.log2_nonneg.
    assert (Hb : (0 <= b)%Z) by apply Z.log2_nonneg.
    destruct (Z.log2_spec n Hn) as [_ Hn2]. fold a in Hn2.
    destruct (Z.log2_spec (Z.pos d) (Pos2Z.is_pos d)) as [Hd1 _]. fold b in Hd1.
    replace (a - b + 1)%Z with ((a + 1) - b)%Z by lia.
    rewrite Qpower_minus by (intro H; discriminate H).
    rewrite (pow2_inject (a + 1)) by lia.
    rewrite (pow2_inject b) by assumption.
    assert (Hpb : (0 < 2 ^ b)%Z) by (apply Z.pow_pos_nonneg; lia).
    apply Qlt_shift_div_l.
    + change 0 with (inject_Z 0). rewrite <- Zlt_Qlt. exact Hpb.
    + replace (Z.succ a) with (a + 1)%Z in Hn2 by lia.
      unfold Qlt, Qmult, inject_Z. simpl Qnum. simpl Qden.
      nia.
  - replace (Z.log2 (Qnum q) - Z.log2 (Z.pos (Qden q)) - 1 + 1)%Z
      with (Z.log2 (Qnum q) - Z.log2 (Z.pos (Qden q)))%Z by lia.
    apply Qnot_le_lt. intros H. apply Qle_bool_iff in H. congruence.
Qed.

Section Positive.
Variable q : Q.
Hypothesis positive : 0 < q.

Lemma ilog2_abs_le : 2 ^ ilog2 (Qabs q) <= q.
Proof.
  assert (Hab : Qabs q == q) by (apply Qabs_pos; lra).
  rewrite <- Hab at 2. apply ilog2_le. rewrite Hab. exact positive.
Qed.

Lemma ilog2_abs_lt : q < 2 ^ (ilog2 (Qabs q) + 1).
Proof.
  assert (Hab : Qabs q == q) by (apply Qabs_pos; lra).
  rewrite <- Hab at 1. apply ilog2_lt. rewrite Hab. exact positive.
Qed.

Lemma b64_positive_eq :
  b64 q = inject_Z (round_half_even (q / 2 ^ ulp_exp q)) * 2 ^ ulp_exp q.
Proof.
  unfold b64. destruct (Qeq_bool q 0) eqn:Hz; [| reflexivity].
  apply Qeq_bool_eq in Hz. lra.
Qed.
End Positive.

Lemma ilog2_abs_mono (q1 q2 : Q) :
  0 < q1 -> q1 <= q2 -> (ilog2 (Qabs q1) <= ilog2 (Qabs q2))%Z.
Proof.
  intros H1 H12.
  assert (H2 : 0 < q2) by lra.
  destruct (Z_le_gt_dec (ilog2 (Qabs q1)) (ilog2 (Qabs q2))) as [Hle | Hgt];
    [exact Hle | exfalso].
  pose proof (ilog2_abs_le q1 H1) as Hl.
  pose proof (ilog2_abs_lt q2 H2) as Hu.
  pose proof (pow2_mono (ilog2 (Qabs q2) + 1) (ilog2 (Qabs q1)) ltac:(lia)).
  lra.
Qed.

Lemma div_pow2_mono (x y : Q) (e : Z) : x <= y -> x / 2 ^ e <= y / 2 ^ e.
Proof.
  intros H. unfold Qdiv. apply Qmult_le_compat_r; [exact H |].
  apply Qinv_le_0_compat. apply Qlt_le_weak, pow2_pos.
Qed.

Lemma pow2_div (a b : Z) : 2 ^ a / 2 ^ b == 2 ^ (a - b).
Proof. rewrite Qpower_minus by (intro H; discriminate H). reflexivity. Qed.

(** Rounding to binary64 keeps the order of non-negative values. *)
Lemma b64_mono (q1 q2 : Q) : 0 <= q1 -> q1 <= q2 -> b64 q1 <= b64 q2.
Proof.
  intros H0 H12.
  destruct (Qeq_bool q1 0) eqn:Hz.
  - unfold b64 at 1. rewrite Hz. apply b64_nonneg. lra.
  - apply Qeq_bool_neq in Hz.
    assert (H1 : 0 < q1) by lra.
    assert (H2 : 0 < q2) by lra.
    rewrite (b64_positive_eq q1 H1), (b64_positive_eq q2 H2).
    pose proof (ilog2_abs_mono q1 q2 H1 H12) as Hk.
    set (k1 := ilog2 (Qabs q1)) in *. set (k2 := ilog2 (Qabs q2)) in *.
    assert (He1 : ulp_exp q1 = Z.max (k1 - 52) emin) by reflexivity.
    assert (He2 : ulp_exp q2 = Z.max (k2 - 52) emin) by reflexivity.
    set (e1 := ulp_exp q1) in *. set (e2 := ulp_exp q2) in *.
    destruct (Z.eq_dec e1 e2) as [Heq | Hne].
    + rewrite <- Heq. apply Qmult_le_compat_r; [| apply Qlt_le_weak, pow2_pos].
      rewrite <- Zle_Qle. apply round_half_even_mono. apply div_pow2_mono. exact H12.
    + assert (Hlt : (e1 < e2)%Z) by lia.
      assert (Hk2 : e2 = (k2 - 52)%Z) by lia.
      assert (Hke : (0 <= k2 - e1)%Z) by lia.
      assert (Hk12 : (k1 + 1 <= k2)%Z) by lia.
      apply Qle_trans with (2 ^ k2).
      * pose proof (ilog2_abs_lt q1 H1) as Hu. fold k1 in Hu.
        pose proof (pow2_mono (k1 + 1) k2 Hk12) as Hp.
        assert (Hq1 : q1 / 2 ^ e1 <= inject_Z (2 ^ (k2 - e1))).
        { rewrite <- (pow2_inject (k2 - e1)) by exact Hke.
          rewrite <- pow2_div. apply div_pow2_mono. lra. }
        apply round_half_even_mono in Hq1. rewrite round_half_even_int in Hq1.
        rewrite Zle_Qle in Hq1.
        rewrite <- (pow2_inject (k2 - e1)) in Hq1 by exact Hke.
        apply (Qmult_le_compat_r _ _ (2 ^ e1)) in Hq1;
          [| apply Qlt_le_weak, pow2_pos].
        rewrite <- pow2_add in Hq1.
        replace (k2 - e1 + e1)%Z with k2 in Hq1 by lia. exact Hq1.
      * pose proof (ilog2_abs_le q2 H2) as Hl. fold k2 in Hl.
        assert (Hq2 : inject_Z (2 ^ 52) <= q2 / 2 ^ e2).
        { rewrite <- (pow2_inject 52) by lia.
          replace 52%Z with (k2 - e2)%Z at 1 by lia.
          rewrite <- pow2_div. apply div_pow2_mono. exact Hl. }
        apply round_half_even_mono in Hq2. rewrite round_half_even_int in Hq2.
        rewrite Zle_Qle in Hq2.
        rewrite <- (pow2_inject 52) in Hq2 by lia.
        apply (Qmult_le_compat_r _ _ (2 ^ e2)) in Hq2;
          [| apply Qlt_le_weak, pow2_pos].
        rewrite <- pow2_add in Hq2.
        replace (52 + e2)%Z with k2 in Hq2 by lia. exact Hq2.
Qed.
End PyFloatOrder.

Local Open Scope Z_scope.

(** A larger count never gets a smaller percentage. *)
Lemma pct_of_mono (c1 c2 total : nat) :
  (0 < total)%nat -> (c1 <= c2)%nat -> pct_of c1 total <= pct_of c2 total.
Proof.
  intros Ht Hc. unfold pct_of, PyFloat.round, PyFloat.mul, PyFloat.int_truediv.
  assert (HT : (0 < inject_Z (Z.of_nat total))%Q).
  { change 0%Q with (inject_Z 0). rewrite <- Zlt_Qlt. lia. }
  assert (H1 : (0 <= inject_Z (Z.of_nat c1))%Q).
  { change 0%Q with (inject_Z 0). rewrite <- Zle_Qle. lia. }
  assert (H12 : (inject_Z (Z.of_nat c1) <= inject_Z (Z.of_nat c2))%Q).
  { rewrite <- Zle_Qle. lia. }
  assert (Hq1 : (0 <= inject_Z (Z.of_nat c1) / inject_Z (Z.of_nat total))%Q).
  { apply Qle_shift_div_l; [exact HT | lra]. }
  assert (Hq12 : (inject_Z (Z.of_nat c1) / inject_Z (Z.of_nat total)
                  <= inject_Z (Z.of_nat c2) / inject_Z (Z.of_nat total))%Q).
  { unfold Qdiv. apply Qmult_le_compat_r; [exact H12 |].
    apply Qinv_le_0_compat. lra. }
  pose proof (PyFloatOrder.b64_mono _ _ Hq1 Hq12) as Hb.
  pose proof (PyFloatFacts.b64_nonneg _ Hq1) as Hn.
  apply PyFloatOrder.round_half_even_mono.
  apply PyFloatOrder.b64_mono.
  - change (inject_Z 100) with 100%Q. lra.
  - change (inject_Z 100) with 100%Q. lra.
Qed.

Lemma pct_of_range (count total : nat) :
  (0 < total)%nat -> (count <= total)%nat -> is_pct (pct_of count total).
Proof.
  intros Ht Hc. pose proof (pct_of_bound count total Ht Hc) as H.
  unfold is_pct. nia.
Qed.

Lemma pct_of_all (total : nat) : (0 < total)%nat -> pct_of total total = 100.
Proof.
  intros Ht. pose proof (pct_of_bound total total Ht (Nat.le_refl _)) as H. nia.
Qed.

(** X4: every percentage of the analytics lies between 0 and 100. *)
Theorem percentages_between_0_and_100
  (booked failed : list Call.t) (all_calls : list CallRow.t)
  (demand_raw supply_raw : Counter.t string) :
  (exists rows, negotiation_depth_of booked = Ok rows /\
                Forall (fun r => is_pct (NegotiationDepthBucket.pct r)) rows) /\
  (exists rows, carrier_objections_of failed all_calls = Ok rows /\
                Forall (fun r => is_pct (CarrierObjection.pct r)) rows) /\
  (exists rows, equipment_demand_supply_of demand_raw supply_raw = Ok rows /\
                Forall (fun r => is_pct (EquipmentDemandSupply.demand r) /\
                                 is_pct (EquipmentDemandSupply.supply r)) rows).
Proof.
  split; [| split].
  - eexists. split; [apply negotiation_depth_of_spec |].
    unfold depth_buckets. rewrite Forall_forall. intros r Hr.
    apply in_map_iff in Hr. destruct Hr as [k [<- Hk]].
    cbn [NegotiationDepthBucket.pct].
    pose proof (occurrences_le Z.eqb k (map depth_key booked)) as Hle.
    rewrite length_map in Hle.
    apply pct_of_range; [| exact Hle].
    destruct booked; [destruct Hk | simpl; lia].
  - eexists. split; [apply carrier_objections_of_spec |].
    set (labels := objection_labels failed all_calls).
    unfold rank_objections. rewrite Forall_forall. intros r Hr.
    apply in_map_iff in Hr. destruct Hr as [kv [<- Hkv]].
    cbn [CarrierObjection.pct].
    apply (Permutation_in _ (sorted_by_key_perm _ _ _)) in Hkv.
    unfold tally in Hkv. apply in_map_iff in Hkv. destruct Hkv as [l [<- Hl]].
    cbn [snd].
    pose proof (occurrences_le String.eqb l labels) as Hle.
    apply pct_of_range; [| exact Hle].
    apply (in_first_seen String.eqb String.eqb_spec) in Hl.
    destruct labels; [destruct Hl | simpl; lia].
  - eexists. split; [apply equipment_demand_supply_of_spec |].
    rewrite Forall_forall. intros r Hr.
    apply (Permutation_in _ (sorted_by_key_perm _ _ _)) in Hr.
    apply in_map_iff in Hr. destruct Hr as [eq [<- _]].
    cbn [EquipmentDemandSupply.demand EquipmentDemandSupply.supply].
    split; (apply pct_of_range; [apply or_1_pos |]).
    + pose proof (get_le_total demand_raw eq). pose proof (or_1_pos (Counter.total demand_raw)).
      unfold or_1 in *. destruct (Counter.total demand_raw =? 0)%nat eqn:E; [| lia].
      apply Nat.eqb_eq in E. lia.
    + pose proof (get_le_total supply_raw eq).
      unfold or_1 in *. destruct (Counter.total supply_raw =? 0)%nat eqn:E; [| lia].
      apply Nat.eqb_eq in E. lia.
Qed.

(** X5: down the carrier-objections list the percentage never goes up. *)
Theorem carrier_objections_pct_descending (failed : list Call.t) (all_calls : list CallRow.t) :
  exists rows,
    carrier_objections_of failed all_calls = Ok rows /\
    StronglySorted (fun a b => CarrierObjection.pct b <= CarrierObjection.pct a) rows.
Proof.
  eexists. split; [apply carrier_objections_of_spec |].
  set (labels := objection_labels failed all_calls).
  assert (Hpos : labels = [] \/ (0 < List.length labels)%nat).
  { destruct labels; [left; reflexivity | right; simpl; lia]. }
  destruct Hpos as [-> | Hpos]; [constructor |].
  unfold rank_objections.
  eapply StronglySorted_map_mono;
    [| apply (sorted_by_key_sorted (fun kv : string * nat => Z.of_nat (snd kv)) true)].
  intros a b Hab. unfold in_order in Hab. cbn [CarrierObjection.pct].
  apply pct_of_mono; [exact Hpos | lia].
Qed.

(* ================================================================== *)
(** * Negotiation depth: order, size and the single bucket *)
(* ================================================================== *)

Lemma occurrences_perm (k : Z) (s s' : list Z) :
  Permutation s s' -> occurrences Z.eqb k s = occurrences Z.eqb k s'.
Proof.
  unfold occurrences. induction 1 as [| x l l' _ IH | x y l | l l' l'' _ IH1 _ IH2].
  - reflexivity.
  - cbn [filter]. destruct (Z.eqb k x); cbn [List.length]; rewrite IH; reflexivity.
  - cbn [filter]. destruct (Z.eqb k x), (Z.eqb k y); reflexivity.
  - rewrite IH1. exact IH2.
Qed.

(** Two strictly ascending lists with the same elements are equal. *)
Lemma ascending_unique (l1 l2 : list Z) :
  StronglySorted Z.lt l1 -> StronglySorted Z.lt l2 ->
  (forall x, In x l1 <-> In x l2) -> l1 = l2.
Proof.
  intros H1. revert l2. induction H1 as [| h1 t1 Hs1 IH Hall1]; intros l2 H2 Hsame.
  - destruct l2 as [| h2 t2]; [reflexivity |].
    exfalso. apply (proj2 (Hsame h2)). left. reflexivity.
  - destruct H2 as [| h2 t2 Hs2 Hall2].
    + exfalso. apply (proj1 (Hsame h1)). left. reflexivity.
    + rewrite Forall_forall in Hall1, Hall2.
      assert (Hh : h1 = h2).
      { destruct (proj1 (Hsame h1) (or_introl eq_refl)) as [He | Hin1];
          [symmetry; exact He |].
        destruct (proj2 (Hsame h2) (or_introl eq_refl)) as [He | Hin2]; [exact He |].
        specialize (Hall1 h2 Hin2). specialize (Hall2 h1 Hin1). lia. }
      subst h2. f_equal. apply IH; [exact Hs2 |].
      intros x. split; intros Hx.
      * destruct (proj1 (Hsame x) (or_intror Hx)) as [He | Hin]; [| exact Hin].
        specialize (Hall1 x Hx). lia.
      * destruct (proj2 (Hsame x) (or_intror Hx)) as [He | Hin]; [| exact Hin].
        specialize (Hall2 x Hx). lia.
Qed.

(** X6: the negotiation-depth list does not depend on the order in which
    the booked calls are returned. *)
Theorem negotiation_depth_order_independent (booked booked' : list Call.t)
  (same_calls : Permutation booked booked') :
  negotiation_depth_of booked = negotiation_depth_of booked'.
Proof.
  rewrite !negotiation_depth_of_spec. f_equal. unfold depth_buckets.
  assert (Hp : Permutation (map depth_key booked) (map depth_key booked'))
    by (apply Permutation_map; exact same_calls).
  rewrite (Permutation_length same_calls).
  replace (sorted_ints (first_seen Z.eqb (map depth_key booked')))
    with (sorted_ints (first_seen Z.eqb (map depth_key booked))).
  - apply map_ext. intros k. rewrite (occurrences_perm k _ _ Hp). reflexivity.
  - apply ascending_unique; try apply depth_keys_ascending.
    intros k. rewrite !depth_keys_In. split; intros [c [Hc Hk]]; exists c; split;
      try exact Hk.
    + apply (Permutation_in _ same_calls). exact Hc.
    + apply (Permutation_in _ (Permutation_sym same_calls)). exact Hc.
Qed.

Lemma negotiation_depth_order_independent_witness :
  negotiation_depth_of [booked_call "c-1" (Some 1); booked_call "c-2" None]
  = negotiation_depth_of [booked_call "c-2" None; booked_call "c-1" (Some 1)].
Proof.
  apply negotiation_depth_order_independent. apply perm_swap.
Defined.

(** X7: with non-negative rounds the negotiation-depth list has at most
    four buckets, and never more buckets than booked calls. *)
Theorem negotiation_depth_at_most_four (booked : list Call.t)
  (rounds_non_negative :
     Forall (fun c => match Call.negotiation_rounds c with
                      | Some n => 0 <= n
                      | None => True
                      end) booked) :
  exists rows,
    negotiation_depth_of booked = Ok rows /\
    (List.length rows <= 4)%nat /\
    (List.length rows <= List.length booked)%nat.
Proof.
  eexists. split; [apply negotiation_depth_of_spec |].
  unfold depth_buckets. rewrite length_map.
  set (keys := sorted_ints (first_seen Z.eqb (map depth_key booked))).
  assert (Hnd : NoDup keys).
  { eapply Permutation_NoDup.
    - apply Permutation_sym. apply sorted_by_key_perm.
    - apply NoDup_first_seen. exact Z.eqb_spec. }
  split.
  - change 4%nat with (List.length [0; 1; 2; 3]).
    apply NoDup_incl_length; [exact Hnd |].
    intros k Hk. apply depth_keys_In in Hk. destruct Hk as [c [Hc <-]].
    rewrite Forall_forall in rounds_non_negative.
    specialize (rounds_non_negative c Hc).
    pose proof (depth_key_le_3 c) as Hle.
    assert (H0 : 0 <= depth_key c).
    { unfold depth_key. destruct (Call.negotiation_rounds c); lia. }
    assert (depth_key c = 0 \/ depth_key c = 1 \/ depth_key c = 2 \/ depth_key c = 3)
      as [-> | [-> | [-> | ->]]] by lia; simpl; tauto.
  - unfold keys, sorted_ints.
    rewrite (Permutation_length (sorted_by_key_perm _ _ _)).
    rewrite <- (length_map depth_key booked).
    apply NoDup_incl_length; [apply NoDup_first_seen; exact Z.eqb_spec |].
    intros k Hk. apply (in_first_seen Z.eqb Z.eqb_spec). exact Hk.
Qed.

Lemma negotiation_depth_at_most_four_witness :
  exists rows,
    negotiation_depth_of [booked_call "c-1" (Some 7); booked_call "c-2" None] = Ok rows /\
    (List.length rows <= 4)%nat /\ (List.length rows <= 2)%nat.
Proof.
  apply (negotiation_depth_at_most_four [booked_call "c-1" (Some 7); booked_call "c-2" None]).
  repeat constructor; simpl; lia.
Defined.

Lemma first_seen_constant (k : Z) (s : list Z) :
  s <> [] -> Forall (fun x => x = k) s -> first_seen Z.eqb s = [k].
Proof.
  intros Hne Hall. induction Hall as [| x s Hx Hall IH]; [congruence |].
  subst x. cbn [first_seen]. f_equal.
  destruct s as [| y s]; [reflexivity |].
  rewrite IH by discriminate. cbn [filter]. rewrite Z.eqb_refl. reflexivity.
Qed.

Lemma occurrences_constant (k : Z) (s : list Z) :
  Forall (fun x => x = k) s -> occurrences Z.eqb k s = List.length s.
Proof.
  unfold occurrences. induction 1 as [| x s Hx _ IH]; [reflexivity |].
  subst x. cbn [filter]. rewrite Z.eqb_refl. cbn [List.length]. rewrite IH. reflexivity.
Qed.

(** X8: when all booked calls have the same depth the list is the single
    bucket of that depth, with 100 percent. *)
Theorem negotiation_depth_single_bucket (booked : list Call.t) (k : Z)
  (some_booked : booked <> [])
  (same_depth : Forall (fun c => depth_key c = k) booked) :
  negotiation_depth_of booked = Ok [NegotiationDepthBucket.mk (depth_label k) 100].
Proof.
  rewrite negotiation_depth_of_spec. f_equal. unfold depth_buckets.
  assert (Hall : Forall (fun x => x = k) (map depth_key booked)).
  { rewrite Forall_forall in *. intros x Hx. apply in_map_iff in Hx.
    destruct Hx as [c [<- Hc]]. apply same_depth. exact Hc. }
  rewrite first_seen_constant with (k := k);
    [| intros H; apply map_eq_nil in H; contradiction | exact Hall].
  cbn [sorted_ints sorted_by_key stable_sort fold_right insert_sorted map].
  rewrite (occurrences_constant k _ Hall), length_map.
  rewrite pct_of_all; [reflexivity |].
  destruct booked; [congruence | simpl; lia].
Qed.

Lemma negotiation_depth_single_bucket_witness :
  negotiation_depth_of [booked_call "c-1" (Some 4); booked_call "c-2" (Some 3)]
  = Ok [NegotiationDepthBucket.mk "3 rounds (max)" 100].
Proof.
  apply (negotiation_depth_single_bucket
           [booked_call "c-1" (Some 4); booked_call "c-2" (Some 3)] 3).
  - discriminate.
  - repeat constructor.
Defined.

(* ================================================================== *)
(** * Equipment labels *)
(* ================================================================== *)

Lemma cased_char_settles (b : bool) (c : ascii) :
  is_lower c || is_upper c = true ->
  let c' := if b then to_lower c else to_upper c in
  is_lower c' || is_upper c' = true
  /\ (if b then to_lower c' else to_upper c') = c'
  /\ c' <> "_"%char.
Proof.
  destruct c as [[] [] [] [] [] [] [] []]; destruct b; cbv; intros H;
    try discriminate H; repeat split; discriminate.
Qed.

Lemma title_from_idempotent (b : bool) (s : string) :
  title_from b (title_from b s) = title_from b s.
Proof.
  revert b. induction s as [| c s IH]; intros b; [reflexivity |].
  cbn [title_from].
  destruct (is_lower c || is_upper c) eqn:Hc.
  - destruct (cased_char_settles b c Hc) as [Hc' [Hfix _]].
    cbn [title_from]. rewrite Hc', Hfix, IH. reflexivity.
  - cbn [title_from]. rewrite Hc, IH. reflexivity.
Qed.

Lemma title_from_length (b : bool) (s : string) :
  String.length (title_from b s) = String.length s.
Proof.
  revert b. induction s as [| c s IH]; intros b; [reflexivity |].
  cbn [title_from]. destruct (is_lower c || is_upper c); cbn [String.length];
    rewrite IH; reflexivity.
Qed.

Lemma title_from_no_underscore (b : bool) (s : string) :
  no_underscore s -> no_underscore (title_from b s).
Proof.
  unfold no_underscore. revert b. induction s as [| c s IH]; intros b H; [exact H |].
  cbn [title_from]. cbn [list_ascii_of_string] in H.
  destruct (is_lower c || is_upper c) eqn:Hc; cbn [list_ascii_of_string].
  - destruct (cased_char_settles b c Hc) as [_ [_ Hne]].
    intros [He | Hin]; [apply Hne; exact He |].
    apply (IH true); [| exact Hin]. intros Hs. apply H. right. exact Hs.
  - intros [He | Hin]; [apply H; left; exact He |].
    apply (IH false); [| exact Hin]. intros Hs. apply H. right. exact Hs.
Qed.

Lemma replace_char_length (old new : ascii) (s : string) :
  String.length (replace_char old new s) = String.length s.
Proof.
  induction s as [| c s IH]; [reflexivity |]. cbn [replace_char String.length].
  rewrite IH. reflexivity.
Qed.

Lemma replace_underscore_gone (s : string) :
  no_underscore (replace_char "_"%char " "%char s).
Proof.
  unfold no_underscore. induction s as [| c s IH]; [intros [] |].
  cbn [replace_char list_ascii_of_string].
  intros [He | Hin]; [| exact (IH Hin)].
  destruct (Ascii.eqb_spec c "_"%char) as [-> | Hne]; [discriminate He | congruence].
Qed.

Lemma replace_without_underscore (s : string) :
  no_underscore s -> replace_char "_"%char " "%char s = s.
Proof.
  unfold no_underscore. induction s as [| c s IH]; intros H; [reflexivity |].
  cbn [replace_char]. cbn [list_ascii_of_string] in H.
  destruct (Ascii.eqb_spec c "_"%char) as [-> | Hne].
  - exfalso. apply H. left. reflexivity.
  - rewrite IH; [reflexivity |]. intros Hs. apply H. right. exact Hs.
Qed.

Lemma format_equip_is_title (raw : string) :
  _format_equip raw = title (replace_char "_"%char " "%char raw).
Proof.
  unfold _format_equip.
  destruct (find (fun kv => String.eqb (fst kv) raw) _EQUIP_LABELS) as [kv |] eqn:Hf;
    [| reflexivity].
  apply find_some in Hf. destruct Hf as [Hin He].
  apply String.eqb_eq in He. subst raw.
  cbn [_EQUIP_LABELS In] in Hin.
  repeat (destruct Hin as [<- | Hin]; [reflexivity |]). destruct Hin.
Qed.

(** X9: the display label of an equipment type is the type with its
    underscores turned into spaces and each word capitalised, for the
    five listed types as for any other; it is as long as the type,
    contains no underscore, and labelling a label changes nothing. *)
Theorem format_equip_label (raw : string) (ascii_only : is_ascii raw) :
  _format_equip raw = title (replace_char "_"%char " "%char raw) /\
  String.length (_format_equip raw) = String.length raw /\
  no_underscore (_format_equip raw) /\
  _format_equip (_format_equip raw) = _format_equip raw.
Proof.
  pose proof (format_equip_is_title raw) as Heq.
  assert (Hno : no_underscore (_format_equip raw)).
  { rewrite Heq. apply title_from_no_underscore. apply replace_underscore_gone. }
  split; [exact Heq |].
  split; [rewrite Heq; unfold title; rewrite title_from_length; apply replace_char_length |].
  split; [exact Hno |].
  rewrite (format_equip_is_title (_format_equip raw)).
  rewrite (replace_without_underscore _ Hno).
  rewrite Heq at 1 2. unfold title. apply title_from_idempotent.
Qed.

Lemma format_equip_label_witness :
  _format_equip "low_boy_XL" = "Low Boy Xl" /\
  _format_equip (_format_equip "low_boy_XL") = _format_equip "low_boy_XL".
Proof.
  destruct (format_equip_label "low_boy_XL") as (H1 & _ & _ & H4).
  - unfold is_ascii. cbn [list_ascii_of_string].
    repeat constructor; vm_compute; lia.
  - split; [rewrite H1; reflexivity | exact H4].
Defined.

(* ================================================================== *)
(** * The queries and the snapshot *)
(* ================================================================== *)

(** X10: [get_analytics] never raises: whatever the tables hold,
    it returns the four lists its aggregations compute from the five
    queries. *)
Theorem get_analytics_never_raises (db : Db) (now : Z) :
  let booked := get_booked_calls_last_30_days db now in
  let failed := get_failed_calls_last_30_days db now in
  let all_calls := get_all_calls_last_30_days db now in
  let demand_raw := get_available_loads_by_equipment db in
  let supply_raw := get_recent_calls_by_equipment db now in
  get_analytics db now
  = Ok (AnalyticsResponse.mk
          (depth_buckets booked)
          (rank_objections (objection_labels failed all_calls))
          (map (lane_entry all_calls)
               (firstn 5 (sorted_by_key (fun kv => Z.of_nat (snd kv)) true
                                        (tally String.eqb (lanes_of all_calls)))))
          (sorted_by_key EquipmentDemandSupply.demand true
             (map (balance_entry demand_raw supply_raw)
                  (sorted_strs (nodup string_dec (Counter.keys demand_raw
                                                  ++ Counter.keys supply_raw)))))).
Proof.
  intros booked failed all_calls demand_raw supply_raw.
  unfold get_analytics, _negotiation_depth, _carrier_objections, _top_lanes,
    _equipment_demand_supply.
  rewrite negotiation_depth_of_spec, carrier_objections_of_spec, top_lanes_of_spec,
    equipment_demand_supply_of_spec.
  reflexivity.
Qed.

Lemma filter_filter_implied {A : Type} (p q : A -> bool) (l : list A) :
  (forall x, p x = true -> q x = true) -> filter p (filter q l) = filter p l.
Proof.
  intros H. induction l as [| x l IH]; [reflexivity |].
  cbn [filter]. destruct (q x) eqn:Hq; cbn [filter].
  - rewrite IH. reflexivity.
  - destruct (p x) eqn:Hp; [| exact IH].
    rewrite (H x Hp) in Hq. discriminate.
Qed.

Section Visible.
Variable db : Db.
Variable now : Z.

Lemma booked_calls_visible :
  get_booked_calls_last_30_days (visible db now) now = get_booked_calls_last_30_days db now.
Proof.
  unfold get_booked_calls_last_30_days, visible. cbn [calls].
  apply filter_filter_implied. intros c Hc. apply andb_true_iff in Hc. tauto.
Qed.

Lemma failed_calls_visible :
  get_failed_calls_last_30_days (visible db now) now = get_failed_calls_last_30_days db now.
Proof.
  unfold get_failed_calls_last_30_days, visible. cbn [calls].
  apply filter_filter_implied. intros c Hc. apply andb_true_iff in Hc. tauto.
Qed.

Lemma all_calls_visible :
  get_all_calls_last_30_days (visible db now) now = get_all_calls_last_30_days db now.
Proof.
  unfold get_all_calls_last_30_days, visible. cbn [calls].
  rewrite filter_filter_implied by (intros c Hc; exact Hc).
  reflexivity.
Qed.

Lemma available_loads_visible :
  get_available_loads_by_equipment (visible db now) = get_available_loads_by_equipment db.
Proof.
  unfold get_available_loads_by_equipment, visible. cbn [loads].
  rewrite filter_filter_implied by (intros l Hl; exact Hl).
  reflexivity.
Qed.

Lemma recent_calls_visible :
  get_recent_calls_by_equipment (visible db now) now = get_recent_calls_by_equipment db now.
Proof.
  unfold get_recent_calls_by_equipment, visible. cbn [calls]. f_equal.
  symmetry. apply flat_map_filter. intros c Hc. rewrite Hc.
  destruct (Call.equipment_type c); reflexivity.
Qed.
End Visible.

(** X11: the analytics see the calls of the last 30 days and the available
    loads only: dropping every older call and every load that is not
    available leaves the snapshot unchanged. *)
Theorem get_analytics_sees_window_only (db : Db) (now : Z) :
  get_analytics (visible db now) now = get_analytics db now.
Proof.
  unfold get_analytics, _negotiation_depth, _carrier_objections, _top_lanes,
    _equipment_demand_supply.
  rewrite booked_calls_visible, failed_calls_visible, all_calls_visible,
    available_loads_visible, recent_calls_visible.
  reflexivity.
Qed.

(** The left join of the all-calls query returns a call once when no
    booking references it, with a null [agreed_rate], and otherwise once
    per booking that references it, with that booking's rate. *)
Lemma left_join_rows_per_call (db : Db) (c : Call.t) :
  let rows := left_join_booked_loads db c in
  List.length rows = Nat.max 1 (bookings_of_call db c) /\
  Forall (fun r => CallRow.call r = c) rows /\
  map CallRow.agreed_rate rows
  = (if (bookings_of_call db c =? 0)%nat then [None]
     else map (fun bl => Some (BookedLoad.agreed_rate bl))
              (filter (fun bl => match BookedLoad.call_id bl with
                                 | Some i => String.eqb (Call.call_id c) i
                                 | None => false
                                 end) (booked_loads db))).
Proof.
  unfold left_join_booked_loads, bookings_of_call.
  destruct (filter _ (booked_loads db)) as [| bl bls].
  - repeat split. repeat constructor.
  - cbv zeta. split; [| split].
    + rewrite length_map. cbn [List.length]. lia.
    + rewrite Forall_forall. intros r Hr.
      apply in_map_iff in Hr. destruct Hr as [b [<- _]]. reflexivity.
    + cbn [List.length Nat.eqb]. rewrite map_map. reflexivity.
Qed.

Lemma left_join_single (db : Db) (c : Call.t) :
  (bookings_of_call db c <= 1)%nat -> map CallRow.call (left_join_booked_loads db c) = [c].
Proof.
  unfold left_join_booked_loads, bookings_of_call.
  destruct (filter _ (booked_loads db)) as [| bl [| bl' bls]]; cbn; try reflexivity; lia.
Qed.

(** X12: when no call is referenced by more than one booking, the
    all-calls query returns exactly the calls of the last 30 days, each
    once and in table order. *)
Theorem all_calls_once_each (db : Db) (now : Z)
  (one_booking_per_call : Forall (fun c => (bookings_of_call db c <= 1)%nat) (calls db)) :
  map CallRow.call (get_all_calls_last_30_days db now)
  = filter (fun c => last_30_days now (Call.created_at c)) (calls db).
Proof.
  unfold get_all_calls_last_30_days.
  induction one_booking_per_call as [| c cs Hc _ IH]; [reflexivity |].
  cbn [filter]. destruct (last_30_days now (Call.created_at c)); [| exact IH].
  cbn [flat_map]. rewrite map_app, IH, (left_join_single db c Hc). reflexivity.
Qed.

Lemma all_calls_once_each_witness :
  map CallRow.call (get_all_calls_last_30_days objections_db 0) = calls objections_db.
Proof.
  apply (all_calls_once_each objections_db 0).
  repeat constructor.
Defined.

Lemma left_join_not_nil (db : Db) (c : Call.t) :
  exists r, In r (left_join_booked_loads db c) /\ CallRow.call r = c.
Proof.
  unfold left_join_booked_loads.
  destruct (filter _ (booked_loads db)) as [| bl bls].
  - eexists. split; [left; reflexivity | reflexivity].
  - eexists. split; [left; reflexivity | reflexivity].
Qed.

(** X13: a call returned by the booked-calls or by the failed-calls query
    is also a call of the all-calls query, and the two queries share no
    call. *)
Theorem queries_are_nested (db : Db) (now : Z) (c : Call.t) :
  (In c (get_booked_calls_last_30_days db now)
   \/ In c (get_failed_calls_last_30_days db now) ->
   In c (map CallRow.call (get_all_calls_last_30_days db now))) /\
  ~ (In c (get_booked_calls_last_30_days db now)
     /\ In c (get_failed_calls_last_30_days db now)).
Proof.
  unfold get_booked_calls_last_30_days, get_failed_calls_last_30_days,
    get_all_calls_last_30_days.
  rewrite !filter_In. split.
  - intros H.
    assert (Hc : In c (calls db) /\ last_30_days now (Call.created_at c) = true).
    { destruct H as [[Hin Hb] | [Hin Hb]]; apply andb_true_iff in Hb; tauto. }
    destruct (left_join_not_nil db c) as [r [Hr Hrc]].
    apply in_map_iff. exists r. split; [exact Hrc |].
    apply in_flat_map. exists c. split; [| exact Hr].
    apply filter_In. exact Hc.
  - intros [[_ Hb] [_ Hf]].
    apply andb_true_iff in Hb. destruct Hb as [Hb _].
    apply andb_true_iff in Hf. destruct Hf as [Hf _].
    apply String.eqb_eq in Hb. rewrite Hb in Hf. discriminate Hf.
Qed.

Lemma queries_are_nested_witness :
  In (failed_call "c-3" "dropped_call")
     (map CallRow.call (get_all_calls_last_30_days objections_db 0)).
Proof.
  apply (queries_are_nested objections_db 0 (failed_call "c-3" "dropped_call")).
  right. vm_compute. tauto.
Defined.

Lemma count_by_get (types : list string) (ty : string) :
  Counter.get String.eqb (count_by types) ty = occurrences String.eqb ty types.
Proof.
  unfold count_by. rewrite (fold_incr_tally_id String.eqb String.eqb_spec).
  apply (get_tally String.eqb String.eqb_spec).
Qed.

Lemma occurrences_map_filter {A : Type} (f : A -> string) (p : A -> bool) (ty : string)
      (l : list A) :
  occurrences String.eqb ty (map f (filter p l))
  = List.length (filter (fun x => p x && String.eqb ty (f x)) l).
Proof.
  unfold occurrences. induction l as [| x l IH]; [reflexivity |].
  cbn [filter]. destruct (p x); cbn [andb map filter]; [| exact IH].
  destruct (String.eqb ty (f x)); cbn [List.length]; rewrite IH; reflexivity.
Qed.

(** X14: the dict of available loads maps each equipment type to the
    number of available loads of that type: its keys are pairwise
    different, a type without available load reads 0, and its values add
    up to the number of available loads. *)
Theorem available_loads_by_equipment_counts (db : Db) (ty : string) :
  let demand_raw := get_available_loads_by_equipment db in
  Counter.get String.eqb demand_raw ty
  = List.length (filter (fun l => String.eqb (Load.status l) "available"
                                  && String.eqb ty (Load.equipment_type l)) (loads db)) /\
  NoDup (Counter.keys demand_raw) /\
  (In ty (Counter.keys demand_raw) <->
   exists l, In l (loads db) /\ Load.status l = "available" /\ Load.equipment_type l = ty) /\
  Counter.total demand_raw
  = List.length (filter (fun l => String.eqb (Load.status l) "available") (loads db)).
Proof.
  unfold get_available_loads_by_equipment. cbv zeta.
  split; [| split; [| split]].
  - rewrite count_by_get. apply occurrences_map_filter.
  - apply count_by_keys_NoDup.
  - unfold count_by. rewrite (fold_incr_tally_id String.eqb String.eqb_spec).
    rewrite (keys_tally String.eqb), (in_first_seen String.eqb String.eqb_spec).
    rewrite in_map_iff. split.
    + intros [l [Hty Hl]]. apply filter_In in Hl. destruct Hl as [Hl Hs].
      exists l. apply String.eqb_eq in Hs. tauto.
    + intros [l [Hl [Hs Hty]]]. exists l. split; [exact Hty |].
      apply filter_In. split; [exact Hl |]. apply String.eqb_eq. exact Hs.
  - unfold count_by. rewrite (fold_incr_tally_id String.eqb String.eqb_spec).
    rewrite (total_tally String.eqb String.eqb_spec). apply length_map.
Qed.

Lemma available_loads_by_equipment_counts_witness :
  Counter.get String.eqb (get_available_loads_by_equipment one_load_db) "dry_van" = 1%nat
  /\ In "dry_van" (Counter.keys (get_available_loads_by_equipment one_load_db)).
Proof.
  destruct (available_loads_by_equipment_counts one_load_db "dry_van")
    as (Hget & _ & Hin & _).
  split; [exact Hget |].
  apply Hin. exists dallas_load. repeat split. left. reflexivity.
Defined.

Lemma occurrences_flat_map_option {A : Type} (f : A -> option string) (p : A -> bool)
      (ty : string) (l : list A) :
  occurrences String.eqb ty
              (flat_map (fun x => match f x with
                                  | Some t => if p x then [t] else []
                                  | None => []
                                  end) l)
  = List.length (filter (fun x => p x && match f x with
                                         | Some t => String.eqb ty t
                                         | None => false
                                         end) l).
Proof.
  unfold occurrences. induction l as [| x l IH]; [reflexivity |].
  cbn [flat_map filter]. rewrite filter_app, length_app, IH.
  destruct (f x) as [t |]; destruct (p x); cbn [andb filter List.length app];
    try reflexivity.
  destruct (String.eqb ty t); reflexivity.
Qed.

Lemma length_flat_map_option {A : Type} (f : A -> option string) (p : A -> bool)
      (l : list A) :
  List.length (flat_map (fun x => match f x with
                                  | Some t => if p x then [t] else []
                                  | None => []
                                  end) l)
  = List.length (filter (fun x => p x && match f x with
                                         | Some _ => true
                                         | None => false
                                         end) l).
Proof.
  induction l as [| x l IH]; [reflexivity |].
  cbn [flat_map filter]. rewrite length_app, IH.
  destruct (f x) as [t |]; destruct (p x); reflexivity.
Qed.

(** X15: the dict of recent calls maps each equipment type to the number
    of calls of the last 30 days with that type; calls without equipment
    type are left out, so its values add up to the number of calls of
    the last 30 days that name one. *)
Theorem recent_calls_by_equipment_counts (db : Db) (now : Z) (ty : string) :
  let supply_raw := get_recent_calls_by_equipment db now in
  Counter.get String.eqb supply_raw ty
  = List.length (filter (fun c => last_30_days now (Call.created_at c)
                                  && match Call.equipment_type c with
                                     | Some t => String.eqb ty t
                                     | None => false
                                     end) (calls db)) /\
  NoDup (Counter.keys supply_raw) /\
  Counter.total supply_raw
  = List.length (filter (fun c => last_30_days now (Call.created_at c)
                                  && match Call.equipment_type c with
                                     | Some _ => true
                                     | None => false
                                     end) (calls db)) /\
  (Counter.total supply_raw
   <= List.length (filter (fun c => last_30_days now (Call.created_at c)) (calls db)))%nat.
Proof.
  unfold get_recent_calls_by_equipment. cbv zeta.
  assert (Htotal : forall types, Counter.total (count_by types) = List.length types).
  { intros types. unfold count_by.
    rewrite (fold_incr_tally_id String.eqb String.eqb_spec).
    apply (total_tally String.eqb String.eqb_spec). }
  split; [| split; [| split]].
  - rewrite count_by_get.
    apply (occurrences_flat_map_option Call.equipment_type
             (fun c => last_30_days now (Call.created_at c))).
  - apply count_by_keys_NoDup.
  - rewrite Htotal.
    apply (length_flat_map_option Call.equipment_type
             (fun c => last_30_days now (Call.created_at c))).
  - rewrite Htotal.
    rewrite (length_flat_map_option Call.equipment_type
               (fun c => last_30_days now (Call.created_at c))).
    induction (calls db) as [| c cs IH]; [reflexivity |].
    cbn [filter]. destruct (last_30_days now (Call.created_at c)); cbn [andb]; [| exact IH].
    destruct (Call.equipment_type c); cbn [List.length]; lia.
Qed.

(* ================================================================== *)
(** * Booking reads *)
(* ================================================================== *)

Lemma left_join_head {A : Type} (p : A -> bool) (l : list A) :
  exists rest,
    match filter p l with
    | [] => [None]
    | x :: xs => map Some (x :: xs)
    end = find p l :: rest.
Proof.
  induction l as [| x l [rest IH]]; cbn [filter find].
  - exists []. reflexivity.
  - destruct (p x).
    + eexists. cbn [map]. reflexivity.
    + exists rest. exact IH.
Qed.

Section BookedLoadReads.
Variable sentiment : Call.t -> option string.
Variable db : Db.

Lemma joined_rows_head (bl : BookedLoad.t) :
  exists rest, joined_rows sentiment db bl = first_joined sentiment db bl :: rest.
Proof.
  unfold joined_rows, first_joined, join_loads, join_calls, first_load, first_call.
  destruct (left_join_head
              (fun l => String.eqb (BookedLoad.load_id bl) (Load.load_id l)) (loads db))
    as [rl Hl].
  destruct (left_join_head
              (fun c => match BookedLoad.call_id bl with
                        | Some i => String.eqb i (Call.call_id c)
                        | None => false
                        end) (calls db))
    as [rc Hc].
  rewrite Hl, Hc. cbn [flat_map map app]. eexists. reflexivity.
Qed.

Lemma joined_rows_booking (bl : BookedLoad.t) (r : BookedLoadRow.t) :
  In r (joined_rows sentiment db bl) -> BookedLoadRow.booking r = bl.
Proof.
  unfold joined_rows. intros Hr. apply in_flat_map in Hr.
  destruct Hr as [l [_ Hr]]. apply in_map_iff in Hr.
  destruct Hr as [c [<- _]]. reflexivity.
Qed.

(** With the rows in table order, [fetchone()] gives the first booking
    row of the load, joined with the first load of that id and the first
    call the booking references. *)
Lemma get_booked_load_head (load_id : string) :
  get_booked_load sentiment db load_id
  = match bookings_for db load_id with
    | [] => None
    | bl :: _ => Some (first_joined sentiment db bl)
    end.
Proof.
  unfold get_booked_load, bookings_for.
  destruct (filter _ (booked_loads db)) as [| bl bls]; [reflexivity |].
  cbn [flat_map].
  destruct (joined_rows_head bl) as [rest ->]. reflexivity.
Qed.

Lemma first_load_none (load_id : string) :
  (forall l, In l (loads db) -> Load.load_id l <> load_id) ->
  first_load db load_id = None.
Proof.
  intros Hno. unfold first_load.
  destruct (find _ (loads db)) as [l |] eqn:Hf; [| reflexivity].
  apply find_some in Hf. destruct Hf as [Hin He].
  apply String.eqb_eq in He. exfalso. apply (Hno l Hin). symmetry. exact He.
Qed.

(** X16: [get_booked_load] returns [None] exactly when the load has no
    booking row; a row it returns carries a booking row of that load,
    with null lane, equipment and rate when no load has that id, and
    with null rounds and sentiment when the booking references no
    call. *)
Theorem get_booked_load_found (load_id : string) :
  (get_booked_load sentiment db load_id = None <-> bookings_for db load_id = []) /\
  (forall r,
     get_booked_load sentiment db load_id = Some r ->
     In (BookedLoadRow.booking r) (booked_loads db) /\
     BookedLoad.load_id (BookedLoadRow.booking r) = load_id /\
     ((forall l, In l (loads db) -> Load.load_id l <> load_id) ->
      BookedLoadRow.lane_origin r = None /\
      BookedLoadRow.lane_destination r = None /\
      BookedLoadRow.equipment_type r = None /\
      BookedLoadRow.loadboard_rate r = None) /\
     (BookedLoad.call_id (BookedLoadRow.booking r) = None ->
      BookedLoadRow.negotiation_rounds r = None /\
      BookedLoadRow.sentiment r = None)).
Proof.
  rewrite get_booked_load_head.
  destruct (bookings_for db load_id) as [| bl bls] eqn:Hb.
  - split; [tauto | discriminate].
  - split; [split; discriminate |].
    intros r Hr. injection Hr as <-.
    assert (Hin : In bl (bookings_for db load_id)) by (rewrite Hb; left; reflexivity).
    unfold bookings_for in Hin. apply filter_In in Hin. destruct Hin as [Hin Hid].
    apply String.eqb_eq in Hid.
    unfold first_joined, enriched.
    cbn [BookedLoadRow.booking BookedLoadRow.lane_origin BookedLoadRow.lane_destination
         BookedLoadRow.equipment_type BookedLoadRow.loadboard_rate
         BookedLoadRow.negotiation_rounds BookedLoadRow.sentiment].
    split; [exact Hin |]. split; [exact Hid |]. split.
    + intros Hno. rewrite Hid, (first_load_none load_id Hno). cbn [option_map].
      repeat split.
    + intros Hnone. rewrite Hnone. unfold first_call.
      replace (find (fun _ : Call.t => false) (calls db)) with (@None Call.t).
      * split; reflexivity.
      * induction (calls db) as [| c cs IH]; [reflexivity | exact IH].
Qed.

Lemma all_rows_perm :
  Permutation (get_all_booked_loads sentiment db)
              (flat_map (joined_rows sentiment db) (booked_loads db)).
Proof. apply sorted_by_key_perm. Qed.

Lemma length_flat_map_ge {A B : Type} (f : A -> list B) (l : list A) :
  (forall x, In x l -> (1 <= List.length (f x))%nat) ->
  (List.length l <= List.length (flat_map f l))%nat.
Proof.
  induction l as [| x l IH]; intros H; [simpl; lia |].
  cbn [flat_map List.length]. rewrite length_app.
  specialize (H x (or_introl eq_refl)) as Hx.
  specialize (IH (fun y Hy => H y (or_intror Hy))). lia.
Qed.

(** X17: [get_all_booked_loads] lists the bookings from the newest to the
    oldest; every row carries a booking of the table and every booking
    of the table has a row, so the list is at least as long as the
    table. *)
Theorem get_all_booked_loads_newest_first :
  let rows := get_all_booked_loads sentiment db in
  StronglySorted (fun a b => BookedLoad.created_at (BookedLoadRow.booking b)
                             <= BookedLoad.created_at (BookedLoadRow.booking a)) rows /\
  (forall bl, In bl (booked_loads db) <-> In bl (map BookedLoadRow.booking rows)) /\
  (List.length (booked_loads db) <= List.length rows)%nat.
Proof.
  cbv zeta. split; [| split].
  - apply (sorted_by_key_sorted
             (fun r => BookedLoad.created_at (BookedLoadRow.booking r)) true).
  - intros bl. rewrite in_map_iff. split.
    + intros Hbl. destruct (joined_rows_head bl) as [rest Hhead].
      exists (first_joined sentiment db bl). split; [reflexivity |].
      apply (Permutation_in _ (Permutation_sym all_rows_perm)).
      apply in_flat_map. exists bl. split; [exact Hbl |].
      rewrite Hhead. left. reflexivity.
    + intros [r [<- Hr]].
      apply (Permutation_in _ all_rows_perm) in Hr.
      apply in_flat_map in Hr. destruct Hr as [bl [Hbl Hr]].
      rewrite (joined_rows_booking bl r Hr). exact Hbl.
  - rewrite (Permutation_length all_rows_perm).
    apply length_flat_map_ge. intros bl _.
    destruct (joined_rows_head bl) as [rest ->]. simpl. lia.
Qed.

(** X18: what [get_booked_load] returns is a row of [get_all_booked_loads]. *)
Theorem get_booked_load_is_listed (load_id : string) (r : BookedLoadRow.t)
  (found : get_booked_load sentiment db load_id = Some r) :
  In r (get_all_booked_loads sentiment db)
  /\ BookedLoad.load_id (BookedLoadRow.booking r) = load_id.
Proof.
  rewrite get_booked_load_head in found.
  destruct (bookings_for db load_id) as [| bl bls] eqn:Hb; [discriminate |].
  injection found as <-.
  assert (Hin : In bl (bookings_for db load_id)) by (rewrite Hb; left; reflexivity).
  unfold bookings_for in Hin. apply filter_In in Hin. destruct Hin as [Hin Hid].
  split.
  - apply (Permutation_in _ (Permutation_sym all_rows_perm)).
    apply in_flat_map. exists bl. split; [exact Hin |].
    destruct (joined_rows_head bl) as [rest ->]. left. reflexivity.
  - apply String.eqb_eq. exact Hid.
Qed.
End BookedLoadReads.

(* ================================================================== *)
(** * Booking writes followed by reads *)
(* ================================================================== *)

Section AfterInsert.
Variable sentiment : Call.t -> option string.
Variable req : BookedLoadRequest.t.
Variable token : string.
Variable utcnow : Z.
Variable db : Db.

Lemma first_load_after_insert (id : string) :
  first_load (snd (insert_booked_load req token utcnow db)) id
  = option_map (fun l =>
                  if String.eqb (Load.load_id l) (BookedLoadRequest.load_id req)
                  then Load.mk (Load.load_id l) (Load.equipment_type l) "booked"
                               (Load.origin l) (Load.destination l)
                               (Load.loadboard_rate l) (Some utcnow)
                  else l)
               (first_load db id).
Proof.
  unfold first_load, insert_booked_load, mark_booked, insert_row. cbn [snd loads].
  induction (loads db) as [| l ls IH]; [reflexivity |].
  cbn [map find].
  assert (Hid : Load.load_id
                  (if String.eqb (Load.load_id l) (BookedLoadRequest.load_id req)
                   then Load.mk (Load.load_id l) (Load.equipment_type l) "booked"
                                (Load.origin l) (Load.destination l)
                                (Load.loadboard_rate l) (Some utcnow)
                   else l) = Load.load_id l).
  { destruct (String.eqb (Load.load_id l) (BookedLoadRequest.load_id req)); reflexivity. }
  rewrite Hid. destruct (String.eqb id (Load.load_id l)); [reflexivity | exact IH].
Qed.

Lemma first_joined_after_insert (bl : BookedLoad.t) :
  first_joined sentiment (snd (insert_booked_load req token utcnow db)) bl
  = first_joined sentiment db bl.
Proof.
  unfold first_joined. rewrite first_load_after_insert.
  replace (first_call (snd (insert_booked_load req token utcnow db)) (BookedLoad.call_id bl))
    with (first_call db (BookedLoad.call_id bl)) by reflexivity.
  unfold enriched.
  destruct (first_load db (BookedLoad.load_id bl)) as [l |]; [| reflexivity].
  cbn [option_map].
  destruct (String.eqb (Load.load_id l) (BookedLoadRequest.load_id req)); reflexivity.
Qed.

(** X19: on a load without booking row, [insert_booked_load] followed by
    [get_booked_load] returns the new booking: the request's data under
    the fresh id and time stamp, joined with the lane, equipment and
    rate of the load and with the rounds and sentiment of the referenced
    call; the load then has this booking row and no other. *)
Theorem insert_then_get_booked_load
  (unbooked : bookings_for db (BookedLoadRequest.load_id req) = []) :
  let id := BookedLoadRequest.load_id req in
  let row := fst (insert_booked_load req token utcnow db) in
  let db' := snd (insert_booked_load req token utcnow db) in
  row = BookedLoad.mk ("BK-" ++ token)%string id
                      (BookedLoadRequest.mc_number req)
                      (BookedLoadRequest.carrier_name req)
                      (BookedLoadRequest.agreed_rate req)
                      (BookedLoadRequest.agreed_pickup_datetime req)
                      (BookedLoadRequest.offer_id req)
                      (BookedLoadRequest.call_id req)
                      utcnow /\
  bookings_for db' id = [row] /\
  get_booked_load sentiment db' id
  = Some (BookedLoadRow.mk
            row
            (option_map Load.origin (first_load db id))
            (option_map Load.destination (first_load db id))
            (option_map Load.equipment_type (first_load db id))
            (option_map Load.loadboard_rate (first_load db id))
            (match first_call db (BookedLoadRequest.call_id req) with
             | Some c => Call.negotiation_rounds c
             | None => None
             end)
            (match first_call db (BookedLoadRequest.call_id req) with
             | Some c => sentiment c
             | None => None
             end)).
Proof.
  cbv zeta. split; [reflexivity |].
  assert (Hb : bookings_for (snd (insert_booked_load req token utcnow db))
                            (BookedLoadRequest.load_id req)
               = [fst (insert_booked_load req token utcnow db)]).
  { rewrite bookings_after_insert, String.eqb_refl, unbooked. reflexivity. }
  split; [exact Hb |].
  rewrite get_booked_load_head, Hb, first_joined_after_insert. reflexivity.
Qed.

(** X20: [insert_booked_load] leaves every other load alone: for a load id
    other than the booked one, the load row, its booking rows and the
    answer of [get_booked_load] are what they were; the calls are never
    touched. *)
Theorem insert_booked_load_frame (other : string)
  (other_load : other <> BookedLoadRequest.load_id req) :
  let db' := snd (insert_booked_load req token utcnow db) in
  first_load db' other = first_load db other /\
  bookings_for db' other = bookings_for db other /\
  get_booked_load sentiment db' other = get_booked_load sentiment db other /\
  calls db' = calls db.
Proof.
  cbv zeta.
  assert (Hb : bookings_for (snd (insert_booked_load req token utcnow db)) other
               = bookings_for db other).
  { rewrite bookings_after_insert.
    destruct (String.eqb_spec (BookedLoadRequest.load_id req) other);
      [congruence | apply app_nil_r]. }
  split; [| split; [exact Hb | split; [| reflexivity]]].
  - rewrite first_load_after_insert.
    destruct (first_load db other) as [l |] eqn:Hl; [| reflexivity].
    cbn [option_map]. unfold first_load in Hl. apply find_some in Hl.
    destruct Hl as [_ Hid]. apply String.eqb_eq in Hid.
    destruct (String.eqb_spec (Load.load_id l) (BookedLoadRequest.load_id req));
      [congruence | reflexivity].
  - rewrite !get_booked_load_head, Hb.
    destruct (bookings_for db other); [reflexivity |].
    rewrite first_joined_after_insert. reflexivity.
Qed.

(** X21: a booked load stops counting as demand: after
    [insert_booked_load] the dict of available loads counts, for each
    equipment type, the available loads of that type other than the
    booked one. *)
Theorem available_loads_after_insert (ty : string) :
  Counter.get String.eqb
              (get_available_loads_by_equipment (snd (insert_booked_load req token utcnow db)))
              ty
  = List.length
      (filter (fun l => String.eqb (Load.status l) "available"
                        && String.eqb ty (Load.equipment_type l)
                        && negb (String.eqb (Load.load_id l) (BookedLoadRequest.load_id req)))
              (loads db)).
Proof.
  unfold get_available_loads_by_equipment.
  rewrite count_by_get, occurrences_map_filter.
  unfold insert_booked_load, mark_booked, insert_row. cbn [snd loads].
  induction (loads db) as [| l ls IH]; [reflexivity |].
  cbn [map filter].
  destruct (String.eqb (Load.load_id l) (BookedLoadRequest.load_id req)).
  - cbn [Load.status Load.equipment_type String.eqb andb negb].
    rewrite andb_false_r. exact IH.
  - cbn [negb]. rewrite andb_true_r.
    destruct (String.eqb (Load.status l) "available" && String.eqb ty (Load.equipment_type l));
      cbn [List.length]; rewrite IH; reflexivity.
Qed.

(** X22: once a booking references a call that no booking referenced
    before, the all-calls query returns that call with the agreed rate
    of the booking. *)
Theorem agreed_rate_after_insert (c : Call.t)
  (referenced : BookedLoadRequest.call_id req = Some (Call.call_id c))
  (first_reference : bookings_of_call db c = 0%nat) :
  left_join_booked_loads (snd (insert_booked_load req token utcnow db)) c
  = [CallRow.mk c (Some (BookedLoadRequest.agreed_rate req))].
Proof.
  unfold bookings_of_call in first_reference. apply length_zero_iff_nil in first_reference.
  unfold left_join_booked_loads, insert_booked_load, mark_booked, insert_row.
  cbn [snd booked_loads]. rewrite filter_app, first_reference.
  cbn [app filter BookedLoad.call_id]. rewrite referenced, String.eqb_refl.
  reflexivity.
Qed.
End AfterInsert.

Lemma insert_booked_load_frame_witness :
  first_load (snd (insert_booked_load (dallas_request "L-7") "0a1b2c3d" 50 one_load_db))
             "L-100"
  = Some dallas_load.
Proof.
  apply (insert_booked_load_frame (fun _ => None) (dallas_request "L-7") "0a1b2c3d" 50
                                  one_load_db "L-100").
  discriminate.
Defined.

Lemma get_booked_load_is_listed_witness :
  In (first_joined (fun _ => None)
                   (snd (insert_booked_load (dallas_request "L-100") "0a1b2c3d" 50 one_load_db))
                   (fst (insert_booked_load (dallas_request "L-100") "0a1b2c3d" 50 one_load_db)))
     (get_all_booked_loads (fun _ => None)
        (snd (insert_booked_load (dallas_request "L-100") "0a1b2c3d" 50 one_load_db))).
Proof.
  apply (get_booked_load_is_listed
           (fun _ => None)
           (snd (insert_booked_load (dallas_request "L-100") "0a1b2c3d" 50 one_load_db))
           "L-100").
  reflexivity.
Defined.

Lemma agreed_rate_after_insert_witness :
  left_join_booked_loads
    (snd (insert_booked_load referencing_request "0a1b2c3d" 50 old_call_db)) old_call
  = [CallRow.mk old_call (Some (inject_Z 1400))].
Proof.
  apply (agreed_rate_after_insert referencing_request "0a1b2c3d" 50 old_call_db old_call);
    reflexivity.
Defined.

Lemma insert_then_get_booked_load_witness :
  get_booked_load (fun _ => None)
                  (snd (insert_booked_load (dallas_request "L-100") "0a1b2c3d" 50 one_load_db))
                  "L-100"
  = Some (BookedLoadRow.mk
            (fst (insert_booked_load (dallas_request "L-100") "0a1b2c3d" 50 one_load_db))
            (Some (Load.origin dallas_load)) (Some (Load.destination dallas_load))
            (Some (Load.equipment_type dallas_load)) (Some (Load.loadboard_rate dallas_load))
            None None).
Proof.
  apply (insert_then_get_booked_load (fun _ => None) (dallas_request "L-100") "0a1b2c3d" 50
                                     one_load_db).
  reflexivity.
Defined.
